(** * high-tide: platform integration layer

    A shallow embedding of [src/lib/secret_storage.py] (the credential
    store over the Windows Credential Manager and libsecret) and of the
    parts of [src/lib/windows_integration.py] that bridge playback state
    to the operating system (media transport controls, tray icon, toast
    notifications, autostart and protocol registration, the check of
    the GStreamer plugins), together with the properties the
    specification states about them and further properties of the code.

    Python text is a list of code points, exceptions are values of
    [exn], and every method is a function from the state it can touch
    (the object, the operating-system stores, the log) to a result and
    the state it leaves behind. *)

From Stdlib Require Import List NArith Bool Ascii String Lia Wf_nat.
From Stdlib.Strings Require Import Byte.
Import ListNotations.

Set Warnings "-register-all".

Local Open Scope N_scope.
Local Open Scope list_scope.

(* ================================================================= *)
(** * Python values *)
(* ================================================================= *)

Module Py.

(** A Python [str]: a sequence of code points.  [is_str] is the range
    CPython enforces ([0 .. 0x10FFFF], surrogates included). *)
Definition pystr := list N.

Definition is_str (s : pystr) : Prop := Forall (fun c => c <= 1114111) s.

Definition ord (a : ascii) : N := N_of_ascii a.

(** A literal of the source text. *)
Definition lit (s : string) : pystr := map ord (list_ascii_of_string s).

Fixpoint str_eqb (a b : pystr) : bool :=
  match a, b with
  | [], [] => true
  | x :: a', y :: b' => (x =? y) && str_eqb a' b'
  | _, _ => false
  end.

Fixpoint startswith (prefix s : pystr) : bool :=
  match prefix, s with
  | [], _ => true
  | p :: prefix', c :: s' => (p =? c) && startswith prefix' s'
  | _ :: _, [] => false
  end.

(** [needle in haystack] on two strings. *)
Fixpoint str_contains (needle haystack : pystr) : bool :=
  startswith needle haystack ||
  match haystack with
  | [] => false
  | _ :: rest => str_contains needle rest
  end.

(** Truthiness of a string and of an optional string. *)
Definition truthy (s : pystr) : bool :=
  match s with [] => false | _ :: _ => true end.

Definition truthy_opt (o : option pystr) : bool :=
  match o with None => false | Some s => truthy s end.

Definition is_high_surrogate (c : N) : bool := (55296 <=? c) && (c <=? 56319).
Definition is_low_surrogate (c : N) : bool := (56320 <=? c) && (c <=? 57343).

(** An object of unknown type ([Any]) and [str()] of it.  An object of
    any other class, a [datetime] for one, is given by the text its
    [__str__] returns. *)
Inductive pyobj : Type :=
| PyNone
| PyBool (b : bool)
| PyStr (s : pystr)
| PyObject (text : pystr).

Definition str (o : pyobj) : pystr :=
  match o with
  | PyNone => lit "None"
  | PyBool true => lit "True"
  | PyBool false => lit "False"
  | PyStr s => s
  | PyObject text => text
  end.

(** [o is False] *)
Definition is_False (o : pyobj) : bool :=
  match o with PyBool false => true | _ => false end.

(** The exceptions the modelled code can meet.  All of them derive from
    [Exception], so an [except Exception] clause catches every one. *)
Inductive exn : Type :=
| KeyError (key : pystr)
| TypeError
| AttributeError
| ValueError
| JSONDecodeError
| RecursionError
| UnicodeDecodeError
| UnicodeEncodeError
| OSError
| FileNotFoundError
| PermissionError
| ImportError
| RuntimeError
| GLibError.

Inductive result (A : Type) : Type :=
| Ok (a : A)
| Raise (e : exn).
Arguments Ok {A} a.
Arguments Raise {A} e.

Definition rbind {A B} (r : result A) (k : A -> result B) : result B :=
  match r with
  | Ok a => k a
  | Raise e => Raise e
  end.

(** Calls to [logger].  A record keeps the level and the fixed text of
    the message; what an f-string appends after the colon (the
    exception, a path, a result code) is left out. *)
Inductive level : Type := DEBUG | INFO | WARNING | ERROR | EXCEPTION.

Record log_record : Type := Log { log_level : level; log_message : string }.

(** ** State and exceptions

    [M S A] is a computation over a mutable state [S] that returns an
    [A] or raises; the state survives a raise, as the heap does in
    Python. *)
Definition M (S A : Type) : Type := S -> result A * S.

Definition ret {S A} (a : A) : M S A := fun s => (Ok a, s).

Definition raise {S A} (e : exn) : M S A := fun s => (Raise e, s).

Definition bind {S A B} (m : M S A) (k : A -> M S B) : M S B :=
  fun s =>
    match m s with
    | (Ok a, s') => k a s'
    | (Raise e, s') => (Raise e, s')
    end.

Definition get_state {S} : M S S := fun s => (Ok s, s).

Definition modify {S} (f : S -> S) : M S unit := fun s => (Ok tt, f s).

Definition lift {S A} (r : result A) : M S A := fun s => (r, s).

(** [try: body / except Exception: handler]. *)
Definition try_except {S A} (body : M S A) (handler : exn -> M S A) : M S A :=
  fun s =>
    match body s with
    | (Ok a, s') => (Ok a, s')
    | (Raise e, s') => handler e s'
    end.

(** [try: body / except E: handler] for one class of exceptions. *)
Definition try_except_only {S A} (catches : exn -> bool)
    (body : M S A) (handler : exn -> M S A) : M S A :=
  fun s =>
    match body s with
    | (Ok a, s') => (Ok a, s')
    | (Raise e, s') => if catches e then handler e s' else (Raise e, s')
    end.

Definition is_FileNotFoundError (e : exn) : bool :=
  match e with FileNotFoundError => true | _ => false end.

(** [try: body / finally: cleanup]. *)
Definition try_finally {S A} (body : M S A) (cleanup : M S unit) : M S A :=
  fun s =>
    match body s with
    | (r, s') =>
        match cleanup s' with
        | (Ok _, s'') => (r, s'')
        | (Raise e, s'') => (Raise e, s'')
        end
    end.

End Py.

Import Py.

Declare Scope py_scope.
Delimit Scope py_scope with py.
Notation "x <- m ;; k" := (bind m (fun x => k))
  (at level 100, m at next level, right associativity) : py_scope.
Notation "' pat <- m ;; k" := (bind m (fun pat => k))
  (at level 100, pat pattern, m at next level, right associativity) : py_scope.
Notation "m ;;; k" := (bind m (fun _ => k))
  (at level 100, right associativity) : py_scope.
Notation "'PASS'" := (ret tt) : py_scope.

(** Code points that the JSON grammar names. *)
Definition DQUOTE : N := 34.
Definition BACKSLASH : N := 92.

(* ================================================================= *)
(** * The [json] module *)
(* ================================================================= *)

Module Json.

(** What [json.loads] can return.  A number keeps its literal text. *)
Inductive json : Type :=
| JNull
| JBool (b : bool)
| JNum (literal : pystr)
| JStr (s : pystr)
| JArr (items : list json)
| JObj (members : list (pystr * json)).

(** A [dict] with string keys, in insertion order. *)
Definition dict := list (pystr * json).

Fixpoint dict_get (k : pystr) (d : dict) : option json :=
  match d with
  | [] => None
  | (k', v) :: d' => if str_eqb k k' then Some v else dict_get k d'
  end.

Definition dict_has (k : pystr) (d : dict) : bool :=
  match dict_get k d with Some _ => true | None => false end.

(** [d[k] = v]: an existing key keeps its place. *)
Fixpoint dict_set (k : pystr) (v : json) (d : dict) : dict :=
  match d with
  | [] => [(k, v)]
  | (k', v') :: d' =>
      if str_eqb k k' then (k, v) :: d' else (k', v') :: dict_set k v d'
  end.


(** ** Encoding ([json.dumps] with its defaults, [ensure_ascii=True]) *)

Definition hexdigit (d : N) : N := if d <? 10 then 48 + d else 87 + d.

(** ['\\u{0:04x}'.format(n)] *)
Definition u_escape (n : N) : pystr :=
  [BACKSLASH; ord "u";
   hexdigit (n / 4096 mod 16); hexdigit (n / 256 mod 16);
   hexdigit (n / 16 mod 16); hexdigit (n mod 16)].

(** The replacement of one character: the short escapes, printable
    ASCII as it is, everything else as [\uXXXX], above the basic plane
    as a surrogate pair. *)
Definition escape_char (c : N) : pystr :=
  if c =? DQUOTE then [BACKSLASH; DQUOTE]
  else if c =? BACKSLASH then [BACKSLASH; BACKSLASH]
  else if c =? 10 then [BACKSLASH; ord "n"]
  else if c =? 13 then [BACKSLASH; ord "r"]
  else if c =? 9 then [BACKSLASH; ord "t"]
  else if c =? 12 then [BACKSLASH; ord "f"]
  else if c =? 8 then [BACKSLASH; ord "b"]
  else if (32 <=? c) && (c <=? 126) then [c]
  else if c <? 65536 then u_escape c
  else
    let n := c - 65536 in
    let s1 := N.lor 55296 (N.land (N.shiftr n 10) 1023) in
    let s2 := N.lor 56320 (N.land n 1023) in
    u_escape s1 ++ u_escape s2.

Fixpoint escape (s : pystr) : pystr :=
  match s with
  | [] => []
  | c :: s' => escape_char c ++ escape s'
  end.

Definition encode_basestring_ascii (s : pystr) : pystr :=
  DQUOTE :: escape s ++ [DQUOTE].

Fixpoint dumps (v : json) : pystr :=
  match v with
  | JNull => lit "null"
  | JBool true => lit "true"
  | JBool false => lit "false"
  | JNum literal => literal
  | JStr s => encode_basestring_ascii s
  | JArr items =>
      ord "[" ::
      (fix go (l : list json) : pystr :=
         match l with
         | [] => []
         | x :: l' =>
             dumps x ++ match l' with [] => [] | _ :: _ => lit ", " ++ go l' end
         end) items ++ [ord "]"]
  | JObj members =>
      ord "{" ::
      (fix go (l : list (pystr * json)) : pystr :=
         match l with
         | [] => []
         | (k, x) :: l' =>
             encode_basestring_ascii k ++ lit ": " ++ dumps x
             ++ match l' with [] => [] | _ :: _ => lit ", " ++ go l' end
         end) members ++ [ord "}"]
  end.

(** ** Decoding ([json.loads], the C scanner, [strict=True]) *)

Definition is_ws (c : N) : bool :=
  (c =? 32) || (c =? 9) || (c =? 10) || (c =? 13).

Fixpoint skip_ws (s : pystr) : pystr :=
  match s with
  | c :: r => if is_ws c then skip_ws r else s
  | [] => []
  end.

Definition hexval (c : N) : option N :=
  if (48 <=? c) && (c <=? 57) then Some (c - 48)
  else if (97 <=? c) && (c <=? 102) then Some (c - 87)
  else if (65 <=? c) && (c <=? 70) then Some (c - 55)
  else None.

Definition hex4 (h1 h2 h3 h4 : N) : option N :=
  match hexval h1, hexval h2, hexval h3, hexval h4 with
  | Some a, Some b, Some c, Some d => Some (a * 4096 + b * 256 + c * 16 + d)
  | _, _, _, _ => None
  end.

(** [0x10000 + (((hi - 0xd800) << 10) | (lo - 0xdc00))] *)
Definition join_surrogates (hi lo : N) : N :=
  65536 + N.lor (N.shiftl (hi - 55296) 10) (lo - 56320).

Definition unescape (e : N) : option N :=
  if e =? DQUOTE then Some DQUOTE
  else if e =? BACKSLASH then Some BACKSLASH
  else if e =? ord "/" then Some (ord "/")
  else if e =? ord "b" then Some 8
  else if e =? ord "f" then Some 12
  else if e =? ord "n" then Some 10
  else if e =? ord "r" then Some 13
  else if e =? ord "t" then Some 9
  else None.

Definition push (c : N) (r : result (pystr * pystr)) : result (pystr * pystr) :=
  rbind r (fun '(s, rest) => Ok (c :: s, rest)).

(** The body of a string literal, after its opening quote: the decoded
    text and what follows the closing quote.  An escaped high surrogate
    directly followed by an escaped low surrogate is one code point. *)
Fixpoint scanstring (s : pystr) : result (pystr * pystr) :=
  match s with
  | [] => Raise JSONDecodeError
  | c :: r =>
      if c =? DQUOTE then Ok ([], r)
      else if c =? BACKSLASH then
        match r with
        | [] => Raise JSONDecodeError
        | e :: r1 =>
            if e =? ord "u" then
              match r1 with
              | h1 :: h2 :: h3 :: h4 :: r2 =>
                  match hex4 h1 h2 h3 h4 with
                  | None => Raise JSONDecodeError
                  | Some uni =>
                      if is_high_surrogate uni then
                        match r2 with
                        | b :: r3 =>
                            if b =? BACKSLASH then
                              match r3 with
                              | u :: r4 =>
                                  if u =? ord "u" then
                                    match r4 with
                                    | g1 :: g2 :: g3 :: g4 :: r5 =>
                                        match hex4 g1 g2 g3 g4 with
                                        | None => Raise JSONDecodeError
                                        | Some uni2 =>
                                            if is_low_surrogate uni2
                                            then push (join_surrogates uni uni2)
                                                      (scanstring r5)
                                            else push uni (scanstring r2)
                                        end
                                    | _ => Raise JSONDecodeError
                                    end
                                  else push uni (scanstring r2)
                              | [] => Raise JSONDecodeError
                              end
                            else push uni (scanstring r2)
                        | [] => Raise JSONDecodeError
                        end
                      else push uni (scanstring r2)
                  end
              | _ => Raise JSONDecodeError
              end
            else
              match unescape e with
              | Some ch => push ch (scanstring r1)
              | None => Raise JSONDecodeError
              end
        end
      else if c <? 32 then Raise JSONDecodeError
      else push c (scanstring r)
  end.

Definition is_digit (c : N) : bool := (48 <=? c) && (c <=? 57).

Fixpoint span_digits (s : pystr) : pystr * pystr :=
  match s with
  | c :: r =>
      if is_digit c then let '(ds, rest) := span_digits r in (c :: ds, rest)
      else ([], s)
  | [] => ([], [])
  end.

(** A number literal: an optional minus sign, an integer part without
    a leading zero, then an optional fraction and an optional exponent,
    each taken only when it is complete.  Every part is returned with
    the text that follows it. *)
Definition take_sign (s : pystr) : pystr * pystr :=
  match s with
  | c :: r => if c =? ord "-" then ([c], r) else ([], s)
  | [] => ([], s)
  end.

Definition take_integer (s : pystr) : option (pystr * pystr) :=
  match s with
  | c :: r =>
      if c =? ord "0" then Some ([c], r)
      else if is_digit c then
        let '(ds, rest) := span_digits r in Some (c :: ds, rest)
      else None
  | [] => None
  end.

Definition take_fraction (s : pystr) : pystr * pystr :=
  match s with
  | dot :: d :: r =>
      if (dot =? ord ".") && is_digit d then
        let '(ds, rest) := span_digits r in (dot :: d :: ds, rest)
      else ([], s)
  | _ => ([], s)
  end.

Definition take_exponent (s : pystr) : pystr * pystr :=
  match s with
  | e :: r =>
      if (e =? ord "e") || (e =? ord "E") then
        let '(sg, r') :=
          match r with
          | c :: r'' =>
              if (c =? ord "-") || (c =? ord "+") then ([c], r'')
              else ([], r)
          | [] => ([], r)
          end in
        match span_digits r' with
        | ([], _) => ([], s)
        | (ds, rest) => (e :: sg ++ ds, rest)
        end
      else ([], s)
  | [] => ([], s)
  end.

Definition match_number (s : pystr) : option (pystr * pystr) :=
  let '(sign, s1) := take_sign s in
  match take_integer s1 with
  | None => None
  | Some (ip, s2) =>
      let '(frac, s3) := take_fraction s2 in
      let '(expo, s4) := take_exponent s3 in
      Some (sign ++ ip ++ frac ++ expo, s4)
  end.

(** The literal of an integer, which goes through [int()]: that refuses
    more than 4300 digits ([sys.int_info.default_max_str_digits]) with
    a [ValueError].  A literal with a fraction or an exponent goes
    through [float()], which has no such limit. *)
Definition is_integer_literal (text : pystr) : bool :=
  forallb (fun c => is_digit c || (c =? ord "-")) text.

Definition exceeds_int_max_str_digits (text : pystr) : bool :=
  is_integer_literal text
  && Nat.ltb 4300 (List.length (filter is_digit text)).

Definition keyword (word : string) (v : json) (s : pystr)
  : option (json * pystr) :=
  if startswith (lit word) s
  then Some (v, skipn (List.length (lit word)) s)
  else None.

(** One JSON value at the head of [s].  [fuel] bounds the number of
    nested values and of members still to read; [loads] passes more
    than the reader can use on its input.

    The reader follows the text to any depth.  CPython gives up with a
    [RecursionError] once arrays and objects nest deeper than the
    stack of the interpreter allows, a depth that depends on the frames
    in use at the call and on the version (some hundreds of levels at
    least); what is claimed below of a value read here is claimed of
    values that nest one level at most, as the bundle does. *)
Fixpoint scan_once (fuel : nat) (s : pystr) {struct fuel}
  : result (json * pystr) :=
  match fuel with
  | O => Raise RecursionError
  | S fuel' =>
      match s with
      | [] => Raise JSONDecodeError
      | c :: r =>
          if c =? DQUOTE then
            rbind (scanstring r) (fun '(str, rest) => Ok (JStr str, rest))
          else if c =? ord "{" then
            match skip_ws r with
            | [] => Raise JSONDecodeError
            | c1 :: r1 =>
                if c1 =? ord "}" then Ok (JObj [], r1)
                else parse_members fuel' (c1 :: r1) []
            end
          else if c =? ord "[" then
            match skip_ws r with
            | [] => Raise JSONDecodeError
            | c1 :: r1 =>
                if c1 =? ord "]" then Ok (JArr [], r1)
                else parse_items fuel' (c1 :: r1) []
            end
          else
            let literal :=
              if c =? ord "n" then keyword "null" JNull s
              else if c =? ord "t" then keyword "true" (JBool true) s
              else if c =? ord "f" then keyword "false" (JBool false) s
              else if c =? ord "N" then keyword "NaN" (JNum (lit "NaN")) s
              else if c =? ord "I"
                   then keyword "Infinity" (JNum (lit "Infinity")) s
              else if c =? ord "-"
                   then keyword "-Infinity" (JNum (lit "-Infinity")) s
              else None in
            match literal with
            | Some found => Ok found
            | None =>
                match match_number s with
                | Some (text, rest) =>
                    if exceeds_int_max_str_digits text then Raise ValueError
                    else Ok (JNum text, rest)
                | None => Raise JSONDecodeError
                end
            end
      end
  end

with parse_members (fuel : nat) (s : pystr) (acc : dict) {struct fuel}
  : result (json * pystr) :=
  match fuel with
  | O => Raise RecursionError
  | S fuel' =>
      match s with
      | [] => Raise JSONDecodeError
      | q :: r =>
          if q =? DQUOTE then
            rbind (scanstring r) (fun '(key, r1) =>
              match skip_ws r1 with
              | [] => Raise JSONDecodeError
              | colon :: r2 =>
                  if colon =? ord ":" then
                    rbind (scan_once fuel' (skip_ws r2)) (fun '(v, r3) =>
                      let acc' := dict_set key v acc in
                      match skip_ws r3 with
                      | [] => Raise JSONDecodeError
                      | c :: r4 =>
                          if c =? ord "}" then Ok (JObj acc', r4)
                          else if c =? ord ","
                               then parse_members fuel' (skip_ws r4) acc'
                          else Raise JSONDecodeError
                      end)
                  else Raise JSONDecodeError
              end)
          else Raise JSONDecodeError
      end
  end

with parse_items (fuel : nat) (s : pystr) (acc : list json) {struct fuel}
  : result (json * pystr) :=
  match fuel with
  | O => Raise RecursionError
  | S fuel' =>
      rbind (scan_once fuel' s) (fun '(v, r1) =>
        let acc' := acc ++ [v] in
        match skip_ws r1 with
        | [] => Raise JSONDecodeError
        | c :: r2 =>
            if c =? ord "]" then Ok (JArr acc', r2)
            else if c =? ord ","
                 then parse_items fuel' (skip_ws r2) acc'
            else Raise JSONDecodeError
        end)
  end.

(** [json.loads(s)]: one value, white space around it, nothing else. *)
Definition loads (s : pystr) : result json :=
  if startswith [65279] s then Raise JSONDecodeError
  else
    rbind (scan_once (S (2 * List.length s)) (skip_ws s)) (fun '(v, rest) =>
      match skip_ws rest with
      | [] => Ok v
      | _ :: _ => Raise JSONDecodeError
      end).

(** Printable ASCII. *)
Definition printable (c : N) : Prop := 32 <= c <= 126.

(** The shape of the replacement of one character. *)
Inductive escaped (c : N) : pystr -> Prop :=
| escaped_plain :
    32 <= c <= 126 -> c <> DQUOTE -> c <> BACKSLASH -> escaped c [c]
| escaped_short (e : N) :
    e <> ord "u" -> unescape e = Some c -> c < 128 ->
    escaped c [BACKSLASH; e]
| escaped_u :
    c < 65536 -> escaped c (u_escape c)
| escaped_pair :
    65536 <= c ->
    escaped c (u_escape (55296 + (c - 65536) / 1024)
               ++ u_escape (56320 + (c - 65536) mod 1024)).

(** ** Surrogates in a string

    [dumps] writes a surrogate code point of a string as a [\u] escape
    of its own, and [loads] reads two such escapes in a row, a high
    one and then a low one, as a single code point.  [join_pairs] is
    the string that comes back. *)
Fixpoint has_surrogate_pair (s : pystr) : bool :=
  match s with
  | hi :: ((lo :: _) as tail) =>
      (is_high_surrogate hi && is_low_surrogate lo) || has_surrogate_pair tail
  | _ => false
  end.

Fixpoint join_pairs (s : pystr) : pystr :=
  match s with
  | hi :: ((lo :: rest) as tail) =>
      if is_high_surrogate hi && is_low_surrogate lo
      then join_surrogates hi lo :: join_pairs rest
      else hi :: join_pairs tail
  | _ => s
  end.

End Json.

Import Json.

(* ================================================================= *)
(** * The [utf-16-le] codec *)
(* ================================================================= *)

Module Utf16.

Definition byte_of (n : N) : byte :=
  match Byte.of_N (n mod 256) with
  | Some b => b
  | None => x00
  end.

(** One 16-bit code unit, low byte first. *)
Definition code_unit (u : N) : list byte := [byte_of u; byte_of (u / 256)].

Definition unit_of (lo hi : byte) : N := Byte.to_N lo + 256 * Byte.to_N hi.

(** [s.encode("utf-16-le")]: a surrogate code point cannot be encoded. *)
Fixpoint encode (s : pystr) : result (list byte) :=
  match s with
  | [] => Ok []
  | c :: s' =>
      if is_high_surrogate c || is_low_surrogate c then Raise UnicodeEncodeError
      else
        rbind (encode s') (fun rest =>
          if c <? 65536 then Ok (code_unit c ++ rest)
          else
            let n := c - 65536 in
            Ok (code_unit (55296 + N.shiftr n 10)
                ++ code_unit (56320 + N.land n 1023) ++ rest))
  end.

Definition push (c : N) (r : result pystr) : result pystr :=
  rbind r (fun s => Ok (c :: s)).

(** [b.decode("utf-16-le")], errors strict: an odd length, a lone low
    surrogate and a high surrogate without its low one are refused. *)
Fixpoint decode (b : list byte) : result pystr :=
  match b with
  | [] => Ok []
  | [_] => Raise UnicodeDecodeError
  | lo :: hi :: rest =>
      let u := unit_of lo hi in
      if is_high_surrogate u then
        match rest with
        | lo2 :: hi2 :: rest' =>
            let u2 := unit_of lo2 hi2 in
            if is_low_surrogate u2
            then push (join_surrogates u u2) (decode rest')
            else Raise UnicodeDecodeError
        | _ => Raise UnicodeDecodeError
        end
      else if is_low_surrogate u then Raise UnicodeDecodeError
      else push u (decode rest)
  end.

End Utf16.

(* ================================================================= *)
(** * secret_storage.py *)
(* ================================================================= *)

Module SecretStorage.

(** ** The operating-system stores *)

(** The Windows Credential Manager entry of type [CRED_TYPE_GENERIC]
    under the target name of the application.  [CredWriteW] reports
    success or failure; [write_succeeds] is that answer. *)
Record Vault : Type := {
  credential : option (list byte);
  write_succeeds : bool
}.

Definition CredReadW (v : Vault) : option (list byte) := credential v.

Definition CredWriteW (blob : list byte) (v : Vault) : bool * Vault :=
  if write_succeeds v
  then (true, {| credential := Some blob; write_succeeds := write_succeeds v |})
  else (false, v).

(** Deleting an entry that does not exist fails with [ERROR_NOT_FOUND]. *)
Definition CredDeleteW (v : Vault) : bool * Vault :=
  match credential v with
  | Some _ => (true, {| credential := None; write_succeeds := write_succeeds v |})
  | None => (false, v)
  end.

(** The calls into libsecret.  Each of them reports a failure of the
    secret service as a [GLib.Error]. *)
Inductive libsecret_call : Type :=
| ServiceGet | CollectionForAlias | ServiceUnlock
| PasswordLookup | PasswordStore | PasswordClear.

Definition libsecret_call_eqb (a b : libsecret_call) : bool :=
  match a, b with
  | ServiceGet, ServiceGet | CollectionForAlias, CollectionForAlias
  | ServiceUnlock, ServiceUnlock | PasswordLookup, PasswordLookup
  | PasswordStore, PasswordStore | PasswordClear, PasswordClear => true
  | _, _ => false
  end.

(** The secret service: the calls that currently fail, the default
    collection ([None] when the alias is not set, otherwise whether it
    is locked) and the password stored under the schema. *)
Record Keyring : Type := {
  failing : list libsecret_call;
  default_collection : option bool;
  password : option pystr
}.

Definition fails (c : libsecret_call) (k : Keyring) : bool :=
  existsb (libsecret_call_eqb c) (failing k).

Definition set_password (p : option pystr) (k : Keyring) : Keyring :=
  {| failing := failing k;
     default_collection := default_collection k;
     password := p |}.

Definition set_unlocked (k : Keyring) : Keyring :=
  {| failing := failing k;
     default_collection := Some false;
     password := password k |}.

(** Everything outside the object that the store reads or writes. *)
Record World : Type := {
  IS_WINDOWS : bool;
  vault : Vault;
  keyring : Keyring;
  log : list log_record
}.

Definition with_vault (v : Vault) (w : World) : World :=
  {| IS_WINDOWS := IS_WINDOWS w; vault := v; keyring := keyring w; log := log w |}.

Definition with_keyring (k : Keyring) (w : World) : World :=
  {| IS_WINDOWS := IS_WINDOWS w; vault := vault w; keyring := k; log := log w |}.

Definition with_log (l : list log_record) (w : World) : World :=
  {| IS_WINDOWS := IS_WINDOWS w; vault := vault w; keyring := keyring w; log := l |}.

(** ** The session and the store *)

(** [tidalapi.Session], as far as [save] reads it. *)
Record Session : Type := {
  token_type : pystr;
  access_token : pystr;
  refresh_token : pystr;
  expiry_time : pyobj
}.

(** The attributes of the store.  [attributes] and [schema], which only
    [_init_linux] sets, are constants and are left out. *)
Record SecretStore : Type := {
  version : pystr;
  session : Session;
  token_dictionary : json;
  key : pystr
}.

Definition with_token_dictionary (d : json) (self : SecretStore) : SecretStore :=
  {| version := version self; session := session self;
     token_dictionary := d; key := key self |}.

(** A method runs on the object and the world. *)
Definition Self : Type := SecretStore * World.

Definition logger (lv : level) (msg : string) : M Self unit :=
  modify (fun '(self, w) => (self, with_log (log w ++ [Log lv msg]) w)).

Definition assign_token_dictionary (d : json) : M Self unit :=
  modify (fun '(self, w) => (with_token_dictionary d self, w)).

Definition libsecret {A} (c : libsecret_call) (run : Keyring -> A * Keyring)
  : M Self A :=
  fun '(self, w) =>
    if fails c (keyring w) then (Raise GLibError, (self, w))
    else let '(a, k) := run (keyring w) in (Ok a, (self, with_keyring k w)).

Local Open Scope py_scope.

(** [bytes(cred.CredentialBlob[:cred.CredentialBlobSize])]: the blob is
    a pointer to [c_byte], so a slice is a list of signed integers and
    [bytes] refuses the negative ones. *)
Definition bytes_of_c_byte (blob : list byte) : result (list byte) :=
  if existsb (fun b => 128 <=? Byte.to_N b) blob then Raise ValueError
  else Ok blob.

Definition _windows_read_credential : M Self (option pystr) :=
  '(self, w) <- get_state ;;
  match CredReadW (vault w) with
  | Some blob =>
      try_finally
        (if 0 <? N.of_nat (List.length blob) then
           password_bytes <- lift (bytes_of_c_byte blob) ;;
           text <- lift (Utf16.decode password_bytes) ;;
           ret (Some text)
         else ret None)
        PASS
  | None => ret None
  end.

Definition _windows_write_credential (password : pystr) : M Self bool :=
  password_bytes <- lift (Utf16.encode password) ;;
  fun '(self, w) =>
    let '(ok, v) := CredWriteW password_bytes (vault w) in
    (Ok ok, (self, with_vault v w)).

Definition _windows_delete_credential : M Self bool :=
  fun '(self, w) =>
    let '(ok, v) := CredDeleteW (vault w) in
    (Ok ok, (self, with_vault v w)).

Definition _init_windows : M Self unit :=
  try_except
    (password <- _windows_read_credential ;;
     match password with
     | Some text =>
         if truthy text then
           json_data <- lift (loads text) ;;
           assign_token_dictionary json_data
         else PASS
     | None => PASS
     end)
    (fun _ =>
       logger EXCEPTION "Failed to load secret store, resetting" ;;;
       assign_token_dictionary (JObj [])).

Definition _init_linux : M Self unit :=
  libsecret ServiceGet (fun k => (tt, k)) ;;;
  collection <- libsecret CollectionForAlias (fun k => (default_collection k, k)) ;;
  match collection with
  | Some true =>
      logger INFO "Collection is locked, attempting to unlock" ;;;
      libsecret ServiceUnlock (fun k => (tt, set_unlocked k))
  | _ => PASS
  end ;;;
  password <- libsecret PasswordLookup (fun k => (password k, k)) ;;
  try_except
    (match password with
     | Some text =>
         if truthy text then
           json_data <- lift (loads text) ;;
           assign_token_dictionary json_data
         else PASS
     | None => PASS
     end)
    (fun _ =>
       logger EXCEPTION "Failed to load secret store, resetting" ;;;
       assign_token_dictionary (JObj [])).

(** [SecretStore(session)] *)
Definition __init__ (session : Session) : M World SecretStore :=
  fun w =>
    let self :=
      {| version := lit "0.0";
         session := session;
         token_dictionary := JObj [];
         key := lit "high-tide-login" |} in
    let body :=
      logger INFO "initializing secret store" ;;;
      if IS_WINDOWS w then _init_windows else _init_linux in
    match body (self, w) with
    | (Ok _, (self', w')) => (Ok self', w')
    | (Raise e, (_, w')) => (Raise e, w')
    end.

(** [key in container], for the containers [json.loads] can produce. *)
Definition contains (k : pystr) (container : json) : result bool :=
  match container with
  | JObj d => Ok (dict_has k d)
  | JArr items =>
      Ok (existsb (fun x => match x with JStr s => str_eqb k s | _ => false end)
                  items)
  | JStr s => Ok (str_contains k s)
  | JNull | JBool _ | JNum _ => Raise TypeError
  end.

(** [all(key in container for key in keys)] *)
Fixpoint all_in (keys : list pystr) (container : json) : result bool :=
  match keys with
  | [] => Ok true
  | k :: keys' =>
      rbind (contains k container) (fun present =>
        if present then all_in keys' container else Ok false)
  end.

Definition required_keys : list pystr :=
  [lit "token-type"; lit "access-token"; lit "refresh-token"].

Definition has_credentials (self : SecretStore) : result bool :=
  all_in required_keys (token_dictionary self).

(** [container[k]] *)
Definition subscript (container : json) (k : pystr) : result json :=
  match container with
  | JObj d =>
      match dict_get k d with
      | Some v => Ok v
      | None => Raise (KeyError k)
      end
  | _ => Raise TypeError
  end.

Definition get (self : SecretStore) : result (json * json * json) :=
  rbind (subscript (token_dictionary self) (lit "token-type")) (fun t =>
  rbind (subscript (token_dictionary self) (lit "access-token")) (fun a =>
  rbind (subscript (token_dictionary self) (lit "refresh-token")) (fun r =>
  Ok (t, a, r)))).

(** [container.clear()] *)
Definition cleared (container : json) : result json :=
  match container with
  | JObj _ => Ok (JObj [])
  | JArr _ => Ok (JArr [])
  | _ => Raise AttributeError
  end.

Definition clear : M Self unit :=
  '(self, w) <- get_state ;;
  emptied <- lift (cleared (token_dictionary self)) ;;
  assign_token_dictionary emptied ;;;
  if IS_WINDOWS w then
    _ <- _windows_delete_credential ;; PASS
  else
    libsecret PasswordClear (fun k => (tt, set_password None k)).

Definition save : M Self unit :=
  '(self, w) <- get_state ;;
  let token_type := token_type (session self) in
  let access_token := access_token (session self) in
  let refresh_token := refresh_token (session self) in
  let expiry_time := expiry_time (session self) in
  assign_token_dictionary
    (JObj [(lit "token-type", JStr token_type);
           (lit "access-token", JStr access_token);
           (lit "refresh-token", JStr refresh_token);
           (lit "expiry-time", JStr (str expiry_time))]) ;;;
  '(self, w) <- get_state ;;
  let json_data := dumps (token_dictionary self) in
  if IS_WINDOWS w then
    ok <- _windows_write_credential json_data ;;
    if negb ok
    then logger ERROR "Failed to save credentials to Windows Credential Manager"
    else PASS
  else
    libsecret PasswordStore (fun k => (tt, set_password (Some json_data) k)).

(** ** Vocabulary of the properties *)

(** A string without a high surrogate directly followed by a low one. *)
Definition plain_text (s : pystr) : Prop :=
  is_str s /\ has_surrogate_pair s = false.

(** The dictionary [save] builds from four strings. *)
Definition bundle (token_type access_token refresh_token expiry_time : pystr)
  : dict :=
  [(lit "token-type", JStr token_type);
   (lit "access-token", JStr access_token);
   (lit "refresh-token", JStr refresh_token);
   (lit "expiry-time", JStr expiry_time)].

(** The four fields [save] reads, as strings. *)
Definition session_strings (P : pystr -> Prop) (ses : Session) : Prop :=
  P (token_type ses) /\ P (access_token ses) /\ P (refresh_token ses)
  /\ P (str (expiry_time ses)).

Definition session_bundle (ses : Session) : dict :=
  bundle (token_type ses) (access_token ses) (refresh_token ses)
         (str (expiry_time ses)).

(** The backend of the platform takes the write of [save] and answers
    the calls of the constructor. *)
Definition backend_accepts (w : World) : Prop :=
  if IS_WINDOWS w then write_succeeds (vault w) = true
  else failing (keyring w) = [].

(** A value that is not an object and nests one level at most: a
    scalar, or a list of scalars. *)
Definition is_scalar (v : json) : bool :=
  match v with
  | JArr _ | JObj _ => false
  | JNull | JBool _ | JNum _ | JStr _ => true
  end.

Definition flat (v : json) : bool :=
  match v with
  | JArr items => forallb is_scalar items
  | JObj _ => false
  | JNull | JBool _ | JNum _ | JStr _ => true
  end.

(** A string of Unicode scalar values: no surrogate code point at all. *)
Definition scalar_text (s : pystr) : Prop :=
  Forall (fun c => c <= 1114111
                   /\ is_high_surrogate c = false
                   /\ is_low_surrogate c = false) s.

End SecretStorage.

(* ================================================================= *)
(** * windows_integration.py *)
(* ================================================================= *)

Module WindowsIntegration.

(** ** The desktop *)

(** The steps of the native set-up of the media controls, in the order
    [initialize] takes them. *)
Inductive setup_step : Type :=
| ImportPlayback | CreatePlayer | GetControls | EnableButtons
| AddButtonHandler | GetDisplayUpdater | SetPlaybackType.

Definition setup_step_eqb (a b : setup_step) : bool :=
  match a, b with
  | ImportPlayback, ImportPlayback | CreatePlayer, CreatePlayer
  | GetControls, GetControls | EnableButtons, EnableButtons
  | AddButtonHandler, AddButtonHandler
  | GetDisplayUpdater, GetDisplayUpdater
  | SetPlaybackType, SetPlaybackType => true
  | _, _ => false
  end.

Inductive MediaPlaybackStatus : Type := CLOSED | PLAYING | PAUSED.

(** The system media transport controls of the process. *)
Record Smtc : Type := {
  is_enabled : bool;
  buttons_enabled : bool;
  button_handlers : nat;
  playback_status : MediaPlaybackStatus;
  music_title : pystr;
  music_artist : pystr;
  music_album_title : pystr;
  display_updates : nat
}.

(** A background thread that was started. *)
Inductive thread : Type :=
| ThumbnailThread (thumbnail_path : pystr)
| ToastThread (title msg : pystr) (icon_path : option pystr).

Definition registry_key := list (pystr * pystr).

Record Desktop : Type := {
  IS_WINDOWS : bool;
  HAS_WINSDK : bool;
  HAS_WIN10TOAST : bool;
  (** what [SetCurrentProcessExplicitAppUserModelID] answers: a success
      code, [S_OK] being 0, or [None] when the call, or the loading of
      [shell32] before it, raises (ctypes turns a failure [HRESULT]
      into an [OSError]) *)
  app_id_hresult : option N;
  (** the step of the native set-up that raises, if one does *)
  setup_fault : option setup_step;
  (** whether later calls on the native controls raise *)
  controls_fault : bool;
  (** whether [ToastNotifier()] raises *)
  notifier_fault : bool;
  smtc : Smtc;
  (** the paths for which [os.path.exists] holds *)
  files : list pystr;
  threads : list thread;
  (** the values of
      [HKEY_CURRENT_USER\Software\Microsoft\Windows\CurrentVersion\Run],
      [None] when the key does not exist *)
  run_key : option registry_key;
  (** the access rights the user holds on that key, as a mask *)
  run_key_access : N;
  sys_frozen : bool;
  sys_executable : pystr;
  (** [os.path.abspath(sys.argv[0])] *)
  main_script : pystr;
  log : list log_record
}.

Definition with_smtc (x : Smtc) (d : Desktop) : Desktop :=
  {| IS_WINDOWS := IS_WINDOWS d; HAS_WINSDK := HAS_WINSDK d;
     HAS_WIN10TOAST := HAS_WIN10TOAST d;
     app_id_hresult := app_id_hresult d; setup_fault := setup_fault d;
     controls_fault := controls_fault d;
     notifier_fault := notifier_fault d; smtc := x; files := files d;
     threads := threads d; run_key := run_key d;
     run_key_access := run_key_access d; sys_frozen := sys_frozen d;
     sys_executable := sys_executable d; main_script := main_script d;
     log := log d |}.

Definition with_threads (x : list thread) (d : Desktop) : Desktop :=
  {| IS_WINDOWS := IS_WINDOWS d; HAS_WINSDK := HAS_WINSDK d;
     HAS_WIN10TOAST := HAS_WIN10TOAST d;
     app_id_hresult := app_id_hresult d; setup_fault := setup_fault d;
     controls_fault := controls_fault d;
     notifier_fault := notifier_fault d; smtc := smtc d; files := files d;
     threads := x; run_key := run_key d;
     run_key_access := run_key_access d; sys_frozen := sys_frozen d;
     sys_executable := sys_executable d; main_script := main_script d;
     log := log d |}.

Definition with_run_key (x : option registry_key) (d : Desktop) : Desktop :=
  {| IS_WINDOWS := IS_WINDOWS d; HAS_WINSDK := HAS_WINSDK d;
     HAS_WIN10TOAST := HAS_WIN10TOAST d;
     app_id_hresult := app_id_hresult d; setup_fault := setup_fault d;
     controls_fault := controls_fault d;
     notifier_fault := notifier_fault d; smtc := smtc d; files := files d;
     threads := threads d; run_key := x;
     run_key_access := run_key_access d; sys_frozen := sys_frozen d;
     sys_executable := sys_executable d; main_script := main_script d;
     log := log d |}.

Definition with_log (x : list log_record) (d : Desktop) : Desktop :=
  {| IS_WINDOWS := IS_WINDOWS d; HAS_WINSDK := HAS_WINSDK d;
     HAS_WIN10TOAST := HAS_WIN10TOAST d;
     app_id_hresult := app_id_hresult d; setup_fault := setup_fault d;
     controls_fault := controls_fault d;
     notifier_fault := notifier_fault d; smtc := smtc d; files := files d;
     threads := threads d; run_key := run_key d;
     run_key_access := run_key_access d; sys_frozen := sys_frozen d;
     sys_executable := sys_executable d; main_script := main_script d;
     log := x |}.

(** [os.path.exists] *)
Definition path_exists (p : pystr) (d : Desktop) : bool :=
  existsb (str_eqb p) (files d).

Local Open Scope py_scope.

Definition logger {O} (lv : level) (msg : string) : M (O * Desktop) unit :=
  modify (fun '(self, d) => (self, with_log (log d ++ [Log lv msg]) d)).

(** The same in a function of the module. *)
Definition flog (lv : level) (msg : string) : M Desktop unit :=
  modify (fun d => with_log (log d ++ [Log lv msg]) d).

(** [threading.Thread(target=..., daemon=True).start()] *)
Definition start_thread {O} (t : thread) : M (O * Desktop) unit :=
  modify (fun '(self, d) => (self, with_threads (threads d ++ [t]) d)).

(** ** WindowsMediaControls *)

(** The six callbacks of the constructor are not part of the state: the
    methods below never call them.  A reference to a native object is
    [true] when it is set and [false] when it is [None]. *)
Record WindowsMediaControls : Type := {
  _media_player : bool;
  _smtc : bool;
  _display_updater : bool;
  _initialized : bool;
  _current_title : pystr;
  _current_artist : pystr;
  _current_album : pystr;
  _button_pressed_token : option nat
}.

(** [WindowsMediaControls(...)] *)
Definition new_media_controls : WindowsMediaControls :=
  {| _media_player := false; _smtc := false; _display_updater := false;
     _initialized := false; _current_title := []; _current_artist := [];
     _current_album := []; _button_pressed_token := None |}.

Definition set_media_player (v : bool) (o : WindowsMediaControls) :=
  {| _media_player := v; _smtc := _smtc o;
     _display_updater := _display_updater o; _initialized := _initialized o;
     _current_title := _current_title o; _current_artist := _current_artist o;
     _current_album := _current_album o;
     _button_pressed_token := _button_pressed_token o |}.

Definition set_smtc (v : bool) (o : WindowsMediaControls) :=
  {| _media_player := _media_player o; _smtc := v;
     _display_updater := _display_updater o; _initialized := _initialized o;
     _current_title := _current_title o; _current_artist := _current_artist o;
     _current_album := _current_album o;
     _button_pressed_token := _button_pressed_token o |}.

Definition set_display_updater (v : bool) (o : WindowsMediaControls) :=
  {| _media_player := _media_player o; _smtc := _smtc o;
     _display_updater := v; _initialized := _initialized o;
     _current_title := _current_title o; _current_artist := _current_artist o;
     _current_album := _current_album o;
     _button_pressed_token := _button_pressed_token o |}.

Definition set_initialized (v : bool) (o : WindowsMediaControls) :=
  {| _media_player := _media_player o; _smtc := _smtc o;
     _display_updater := _display_updater o; _initialized := v;
     _current_title := _current_title o; _current_artist := _current_artist o;
     _current_album := _current_album o;
     _button_pressed_token := _button_pressed_token o |}.

Definition set_current (title artist album : pystr) (o : WindowsMediaControls) :=
  {| _media_player := _media_player o; _smtc := _smtc o;
     _display_updater := _display_updater o; _initialized := _initialized o;
     _current_title := title; _current_artist := artist;
     _current_album := album;
     _button_pressed_token := _button_pressed_token o |}.

Definition set_button_pressed_token (v : option nat) (o : WindowsMediaControls) :=
  {| _media_player := _media_player o; _smtc := _smtc o;
     _display_updater := _display_updater o; _initialized := _initialized o;
     _current_title := _current_title o; _current_artist := _current_artist o;
     _current_album := _current_album o;
     _button_pressed_token := v |}.

(** The native side of the same assignments. *)
Definition enable_all (x : Smtc) : Smtc :=
  {| is_enabled := true; buttons_enabled := true;
     button_handlers := button_handlers x;
     playback_status := playback_status x;
     music_title := music_title x; music_artist := music_artist x;
     music_album_title := music_album_title x;
     display_updates := display_updates x |}.

Definition add_button_pressed (x : Smtc) : Smtc :=
  {| is_enabled := is_enabled x; buttons_enabled := buttons_enabled x;
     button_handlers := S (button_handlers x);
     playback_status := playback_status x;
     music_title := music_title x; music_artist := music_artist x;
     music_album_title := music_album_title x;
     display_updates := display_updates x |}.

Definition set_playback_status (v : MediaPlaybackStatus) (x : Smtc) : Smtc :=
  {| is_enabled := is_enabled x; buttons_enabled := buttons_enabled x;
     button_handlers := button_handlers x;
     playback_status := v;
     music_title := music_title x; music_artist := music_artist x;
     music_album_title := music_album_title x;
     display_updates := display_updates x |}.

Definition set_music_properties (title artist album : pystr) (x : Smtc) : Smtc :=
  {| is_enabled := is_enabled x; buttons_enabled := buttons_enabled x;
     button_handlers := button_handlers x;
     playback_status := playback_status x;
     music_title := title; music_artist := artist;
     music_album_title := album;
     display_updates := display_updates x |}.

Definition display_update (x : Smtc) : Smtc :=
  {| is_enabled := is_enabled x; buttons_enabled := buttons_enabled x;
     button_handlers := button_handlers x;
     playback_status := playback_status x;
     music_title := music_title x; music_artist := music_artist x;
     music_album_title := music_album_title x;
     display_updates := S (display_updates x) |}.

Definition Controls : Type := WindowsMediaControls * Desktop.

Definition update_self (f : WindowsMediaControls -> WindowsMediaControls)
  : M Controls unit :=
  modify (fun '(self, d) => (f self, d)).

(** One step of the native set-up: it raises when the desktop says so,
    and otherwise has the effect [f] on the controls. *)
Definition native (step : setup_step) (f : Smtc -> Smtc) : M Controls unit :=
  '(self, d) <- get_state ;;
  match setup_fault d with
  | Some failing =>
      if setup_step_eqb step failing then raise RuntimeError
      else modify (fun '(self, d) => (self, with_smtc (f (smtc d)) d))
  | None => modify (fun '(self, d) => (self, with_smtc (f (smtc d)) d))
  end.

(** A call on the controls after the set-up. *)
Definition on_controls (f : Smtc -> Smtc) : M Controls unit :=
  '(self, d) <- get_state ;;
  if controls_fault d then raise RuntimeError
  else modify (fun '(self, d) => (self, with_smtc (f (smtc d)) d)).

(** [_set_app_user_model_id] writes one debug record on each of its
    three paths; the [False] of the last one is the only value it
    returns, and [initialize] does not look at it. *)
Definition _set_app_user_model_id : M Controls pyobj :=
  try_except
    ('(self, d) <- get_state ;;
     match app_id_hresult d with
     | Some result =>
         if result =? 0 then
           logger DEBUG "Set AppUserModelId to: io.github.nokse22.high-tide" ;;;
           ret PyNone
         else
           logger DEBUG "Failed to set AppUserModelId" ;;;
           ret PyNone
     | None => raise OSError
     end)
    (fun _ =>
       logger DEBUG "Could not set AppUserModelId" ;;;
       ret (PyBool false)).

(** [initialize] hands back [True], [False] or, when the function runs
    off its end, [None]. *)
Definition initialize : M Controls pyobj :=
  '(self, d) <- get_state ;;
  if negb (HAS_WINSDK d) then
    logger WARNING "Cannot initialize SMTC: winsdk not available" ;;;
    ret (PyBool false)
  else
    try_except
      (_set_app_user_model_id ;;;
       native ImportPlayback id ;;;
       native CreatePlayer id ;;;
       update_self (set_media_player true) ;;;
       native GetControls id ;;;
       update_self (set_smtc true) ;;;
       native EnableButtons enable_all ;;;
       '(self, d) <- get_state ;;
       native AddButtonHandler add_button_pressed ;;;
       update_self (set_button_pressed_token (Some (button_handlers (smtc d)))) ;;;
       native GetDisplayUpdater id ;;;
       update_self (set_display_updater true) ;;;
       native SetPlaybackType id ;;;
       update_self (set_initialized true) ;;;
       logger INFO "Windows Media Controls (SMTC) initialized successfully" ;;;
       ret (PyBool true))
      (fun e =>
         logger WARNING "Failed to initialize Windows Media Controls" ;;;
         logger INFO
           "Media keys may not work - this is normal for some Windows configurations" ;;;
         update_self (set_initialized false) ;;;
         ret PyNone).

Definition update_playback_status (is_playing : bool) : M Controls unit :=
  '(self, d) <- get_state ;;
  if negb (_initialized self) || negb (_smtc self) then ret tt
  else
    try_except
      (if is_playing
       then on_controls (set_playback_status PLAYING)
       else on_controls (set_playback_status PAUSED))
      (fun _ => logger EXCEPTION "Error updating SMTC playback status").

Definition _set_thumbnail_async (thumbnail_path : pystr) : M Controls unit :=
  start_thread (ThumbnailThread thumbnail_path).

Definition update_metadata (title artist album thumbnail_path : pystr)
    (duration_ms : N) : M Controls unit :=
  '(self, d) <- get_state ;;
  if negb (_initialized self) || negb (_display_updater self) then ret tt
  else
    try_except
      (update_self (set_current title artist album) ;;;
       on_controls (set_music_properties title artist album) ;;;
       if truthy thumbnail_path && path_exists thumbnail_path d
       then _set_thumbnail_async thumbnail_path
       else on_controls display_update)
      (fun _ => logger EXCEPTION "Error updating SMTC metadata").

(** ** WindowsNotifications *)

Record WindowsNotifications : Type := {
  _notifier : bool;
  _enabled : bool;
  _last_track_id : option pystr
}.

Definition Notifications : Type := WindowsNotifications * Desktop.

(** The defaults of the class: no notifier, enabled, no track shown. *)
Definition class_defaults : WindowsNotifications :=
  {| _notifier := false; _enabled := true; _last_track_id := None |}.

(** [WindowsNotifications()] *)
Definition new_notifications : M Desktop WindowsNotifications :=
  d <- get_state ;;
  if HAS_WIN10TOAST d then
    try_except
      (if notifier_fault d then raise RuntimeError
       else
         flog INFO "Windows toast notifications initialized" ;;;
         ret {| _notifier := true; _enabled := _enabled class_defaults;
                _last_track_id := _last_track_id class_defaults |})
      (fun _ =>
         flog EXCEPTION "Failed to initialize Windows notifications" ;;;
         ret {| _notifier := false; _enabled := _enabled class_defaults;
                _last_track_id := _last_track_id class_defaults |})
  else ret class_defaults.

Definition set_enabled (enabled : bool) : M Notifications unit :=
  modify (fun '(self, d) =>
    ({| _notifier := _notifier self; _enabled := enabled;
        _last_track_id := _last_track_id self |}, d)).

(** [a == b] on two optional strings *)
Definition opt_str_eqb (a b : option pystr) : bool :=
  match a, b with
  | Some x, Some y => str_eqb x y
  | None, None => true
  | _, _ => false
  end.

Definition show_now_playing (title artist album : pystr)
    (icon_path track_id : option pystr) : M Notifications bool :=
  '(self, d) <- get_state ;;
  if negb (_enabled self) || negb (_notifier self) then ret false
  else if truthy_opt track_id && opt_str_eqb track_id (_last_track_id self)
  then ret false
  else
    modify (fun '(self, d) =>
      ({| _notifier := _notifier self; _enabled := _enabled self;
          _last_track_id := track_id |}, d)) ;;;
    try_except
      (let message :=
         if truthy album then artist ++ [32; 8226; 32] ++ album else artist in
       start_thread (ToastThread title message icon_path) ;;;
       ret true)
      (fun _ =>
         logger EXCEPTION "Failed to show Now Playing notification" ;;;
         ret false).

(** ** Startup registration *)

Definition _APP_NAME : pystr := lit "HighTide".

Fixpoint reg_get (name : pystr) (k : registry_key) : option pystr :=
  match k with
  | [] => None
  | (n, v) :: k' => if str_eqb name n then Some v else reg_get name k'
  end.

Fixpoint reg_set (name value : pystr) (k : registry_key) : registry_key :=
  match k with
  | [] => [(name, value)]
  | (n, v) :: k' =>
      if str_eqb name n then (name, value) :: k' else (n, v) :: reg_set name value k'
  end.

Fixpoint reg_del (name : pystr) (k : registry_key) : registry_key :=
  match k with
  | [] => []
  | (n, v) :: k' =>
      if str_eqb name n then reg_del name k' else (n, v) :: reg_del name k'
  end.

(** Access masks of [winreg]: the right to set values, the rights to
    read a key, and all rights. *)
Definition KEY_SET_VALUE : N := 2.
Definition KEY_READ : N := 131097.
Definition KEY_ALL_ACCESS : N := 983103.

(** Whether the user holds every right of the mask [access]. *)
Definition granted (access : N) (d : Desktop) : bool :=
  N.land access (run_key_access d) =? access.

(** [winreg.OpenKey(HKEY_CURRENT_USER, _STARTUP_REG_KEY, 0, access)]:
    a key that does not exist is a [FileNotFoundError], a key on which
    the user lacks a right of the mask a [PermissionError]. *)
Definition OpenKey (access : N) : M Desktop registry_key :=
  d <- get_state ;;
  match run_key d with
  | Some k => if granted access d then ret k else raise PermissionError
  | None => raise FileNotFoundError
  end.

Definition QueryValueEx (key : registry_key) (name : pystr) : M Desktop pystr :=
  match reg_get name key with
  | Some v => ret v
  | None => raise FileNotFoundError
  end.

Definition SetValueEx (key : registry_key) (name value : pystr)
  : M Desktop unit :=
  modify (with_run_key (Some (reg_set name value key))).

Definition DeleteValue (key : registry_key) (name : pystr) : M Desktop unit :=
  match reg_get name key with
  | Some _ => modify (with_run_key (Some (reg_del name key)))
  | None => raise FileNotFoundError
  end.

Definition get_startup_command (d : Desktop) : option pystr :=
  if sys_frozen d then Some (DQUOTE :: sys_executable d ++ [DQUOTE])
  else if path_exists (main_script d) d then
    Some (DQUOTE :: sys_executable d ++ [DQUOTE; 32; DQUOTE]
          ++ main_script d ++ [DQUOTE])
  else None.

Definition is_startup_enabled : M Desktop bool :=
  d <- get_state ;;
  if negb (IS_WINDOWS d) then ret false
  else
    try_except
      (key <- OpenKey KEY_READ ;;
       try_except_only is_FileNotFoundError
         (_ <- QueryValueEx key _APP_NAME ;; ret true)
         (fun _ => ret false))
      (fun _ =>
         flog EXCEPTION "Failed to check startup status" ;;;
         ret false).

Definition set_startup_enabled (enabled : bool) : M Desktop bool :=
  d <- get_state ;;
  if negb (IS_WINDOWS d) then ret false
  else
    try_except
      (key <- OpenKey KEY_SET_VALUE ;;
       if enabled then
         d <- get_state ;;
         match get_startup_command d with
         | Some startup_cmd =>
             if truthy startup_cmd then
               SetValueEx key _APP_NAME startup_cmd ;;;
               flog INFO "Enabled startup" ;;;
               ret true
             else
               flog ERROR "Could not determine executable path for startup" ;;;
               ret false
         | None =>
             flog ERROR "Could not determine executable path for startup" ;;;
             ret false
         end
       else
         try_except_only is_FileNotFoundError
           (DeleteValue key _APP_NAME ;;;
            flog INFO "Disabled startup")
           (fun _ => PASS) ;;;
         ret true)
      (fun _ =>
         flog EXCEPTION "Failed to set startup status" ;;;
         ret false).

(** Runs the functions of the startup registration on a desktop whose
    fields are known. *)
Ltac run_registry :=
  cbv beta iota zeta delta
    [set_startup_enabled is_startup_enabled try_except try_except_only bind
     get_state OpenKey granted DeleteValue QueryValueEx SetValueEx ret raise
     modify flog fst snd negb is_FileNotFoundError
     IS_WINDOWS run_key run_key_access with_run_key with_log].

(** ** Button events *)

(** [SystemMediaTransportControlsButton] *)
Inductive SystemMediaTransportControlsButton : Type :=
| PLAY | PAUSE | STOP | RECORD | FAST_FORWARD | REWIND
| NEXT | PREVIOUS | CHANNEL_UP | CHANNEL_DOWN.

(** The callbacks handed to [WindowsMediaControls(...)], which only
    [_on_button_pressed] calls.  A callback is code of the caller: it
    may change the object and the desktop, and it may raise. *)
Record Callbacks : Type := {
  on_play : M Controls unit;
  on_pause : M Controls unit;
  on_play_pause : M Controls unit;
  on_next : M Controls unit;
  on_previous : M Controls unit;
  on_stop : M Controls unit
}.

Definition _on_button_pressed (self_callbacks : Callbacks)
    (button : SystemMediaTransportControlsButton) : M Controls unit :=
  try_except
    ('(self, d) <- get_state ;;
     (if HAS_WINSDK d then PASS else raise ImportError) ;;;
     logger DEBUG "SMTC button pressed" ;;;
     match button with
     | PLAY => on_play self_callbacks
     | PAUSE => on_pause self_callbacks
     | NEXT => on_next self_callbacks
     | PREVIOUS => on_previous self_callbacks
     | STOP => on_stop self_callbacks
     | _ => PASS
     end)
    (fun _ => logger EXCEPTION "Error handling SMTC button press").

(** ** Position and shutdown *)

Definition update_position (position_ms : N) : M Controls unit :=
  '(self, d) <- get_state ;;
  if negb (_initialized self) then ret tt
  else PASS.

(** The native side of [shutdown]. *)
Definition remove_button_pressed (x : Smtc) : Smtc :=
  {| is_enabled := is_enabled x; buttons_enabled := buttons_enabled x;
     button_handlers := Nat.pred (button_handlers x);
     playback_status := playback_status x;
     music_title := music_title x; music_artist := music_artist x;
     music_album_title := music_album_title x;
     display_updates := display_updates x |}.

Definition disable (x : Smtc) : Smtc :=
  {| is_enabled := false; buttons_enabled := buttons_enabled x;
     button_handlers := button_handlers x;
     playback_status := playback_status x;
     music_title := music_title x; music_artist := music_artist x;
     music_album_title := music_album_title x;
     display_updates := display_updates x |}.

Definition shutdown : M Controls unit :=
  '(self, d) <- get_state ;;
  (if _smtc self then
     try_except
       (match _button_pressed_token self with
        | Some token => on_controls remove_button_pressed
        | None => PASS
        end ;;;
        on_controls disable)
       (fun _ => PASS)
   else PASS) ;;;
  update_self (set_button_pressed_token None) ;;;
  update_self (set_media_player false) ;;;
  update_self (set_smtc false) ;;;
  update_self (set_display_updater false) ;;;
  update_self (set_initialized false) ;;;
  logger DEBUG "Windows Media Controls shut down".

(** ** Generic messages *)

Definition show_message (title message : pystr) (icon_path : option pystr)
  : M Notifications bool :=
  '(self, d) <- get_state ;;
  if negb (_enabled self) || negb (_notifier self) then ret false
  else
    try_except
      (start_thread (ToastThread title message icon_path) ;;;
       ret true)
      (fun _ =>
         logger EXCEPTION "Failed to show notification" ;;;
         ret false).

(** ** The executable *)

Definition get_executable_path (d : Desktop) : option pystr :=
  if sys_frozen d then Some (sys_executable d)
  else if path_exists (main_script d) d then
    Some (sys_executable d ++ [DQUOTE; 32; DQUOTE] ++ main_script d)
  else None.

End WindowsIntegration.

(* ================================================================= *)
(** * windows_integration.py: the tray icon *)
(* ================================================================= *)

Module TrayIcon.

Local Open Scope py_scope.

(** ** The notification area *)

(** The image an icon is built from: the SVG file rendered by cairosvg
    at 64 by 64 pixels, the file as Pillow opens it, or the placeholder
    that [_load_icon_image] draws. *)
Inductive image : Type :=
| Rasterized (icon_path : pystr)
| Opened (icon_path : pystr)
| Placeholder.

(** A [pystray.Icon]: its image, its tooltip, whether its loop was
    started and whether [stop()] was called on it. *)
Record Icon : Type := {
  icon_image : image;
  title : pystr;
  running : bool;
  stopped : bool
}.

Record Shell : Type := {
  HAS_PYSTRAY : bool;
  (** whether [import cairosvg] succeeds *)
  has_cairosvg : bool;
  (** whether the conversion of the SVG file raises *)
  svg_fault : bool;
  (** whether [Image.open(icon_path)] raises *)
  open_fault : bool;
  (** whether [pystray.Icon(...)] raises *)
  icon_fault : bool;
  (** whether the assignment to [icon.title] raises *)
  title_fault : bool;
  (** whether [icon.stop()] raises *)
  stop_fault : bool;
  (** the paths for which [os.path.exists] holds *)
  files : list pystr;
  (** the icons created so far, the oldest first *)
  icons : list Icon;
  log : list log_record
}.

Definition with_icons (x : list Icon) (h : Shell) : Shell :=
  {| HAS_PYSTRAY := HAS_PYSTRAY h; has_cairosvg := has_cairosvg h;
     svg_fault := svg_fault h; open_fault := open_fault h;
     icon_fault := icon_fault h; title_fault := title_fault h;
     stop_fault := stop_fault h; files := files h; icons := x;
     log := log h |}.

Definition with_log (x : list log_record) (h : Shell) : Shell :=
  {| HAS_PYSTRAY := HAS_PYSTRAY h; has_cairosvg := has_cairosvg h;
     svg_fault := svg_fault h; open_fault := open_fault h;
     icon_fault := icon_fault h; title_fault := title_fault h;
     stop_fault := stop_fault h; files := files h; icons := icons h;
     log := x |}.

(** [os.path.exists] *)
Definition path_exists (p : pystr) (h : Shell) : bool :=
  existsb (str_eqb p) (files h).

(** [l[i] = f(l[i])] on an icon that was created. *)
Fixpoint update_nth (i : nat) (f : Icon -> Icon) (l : list Icon) : list Icon :=
  match l, i with
  | [], _ => []
  | x :: l', O => f x :: l'
  | x :: l', S i' => x :: update_nth i' f l'
  end.

Definition set_title (v : pystr) (x : Icon) : Icon :=
  {| icon_image := icon_image x; title := v; running := running x;
     stopped := stopped x |}.

Definition set_running (x : Icon) : Icon :=
  {| icon_image := icon_image x; title := title x; running := true;
     stopped := stopped x |}.

Definition set_stopped (x : Icon) : Icon :=
  {| icon_image := icon_image x; title := title x; running := running x;
     stopped := true |}.

(** ** WindowsTrayIcon *)

(** [_icon] and [_thread] refer to an icon by its position in [icons]. *)
Record WindowsTrayIcon : Type := {
  _icon : option nat;
  _thread : option nat;
  _is_playing : bool;
  _current_title : pystr;
  _current_artist : pystr
}.

Definition Tray : Type := WindowsTrayIcon * Shell.

(** The callbacks handed to [WindowsTrayIcon(...)]: code of the caller,
    which may change the object and the shell, and may raise. *)
Record Callbacks : Type := {
  on_show : M Tray unit;
  on_play_pause : M Tray unit;
  on_next : M Tray unit;
  on_previous : M Tray unit;
  on_quit : M Tray unit
}.

(** [WindowsTrayIcon(...)] *)
Definition new_tray_icon : WindowsTrayIcon :=
  {| _icon := None; _thread := None; _is_playing := false;
     _current_title := lit "High Tide"; _current_artist := [] |}.

Definition set_icon (v : option nat) (o : WindowsTrayIcon) : WindowsTrayIcon :=
  {| _icon := v; _thread := _thread o; _is_playing := _is_playing o;
     _current_title := _current_title o;
     _current_artist := _current_artist o |}.

Definition set_thread (v : option nat) (o : WindowsTrayIcon) : WindowsTrayIcon :=
  {| _icon := _icon o; _thread := v; _is_playing := _is_playing o;
     _current_title := _current_title o;
     _current_artist := _current_artist o |}.

Definition set_track (is_playing : bool) (title artist : pystr)
    (o : WindowsTrayIcon) : WindowsTrayIcon :=
  {| _icon := _icon o; _thread := _thread o; _is_playing := is_playing;
     _current_title := title; _current_artist := artist |}.

Definition logger (lv : level) (msg : string) : M Tray unit :=
  modify (fun '(self, h) => (self, with_log (log h ++ [Log lv msg]) h)).

Definition update_self (f : WindowsTrayIcon -> WindowsTrayIcon) : M Tray unit :=
  modify (fun '(self, h) => (f self, h)).

(** A call on the icon at position [i]. *)
Definition on_icon (i : nat) (f : Icon -> Icon) : M Tray unit :=
  modify (fun '(self, h) => (self, with_icons (update_nth i f (icons h)) h)).

(** [s.lower()], as far as [endswith('.svg')] can tell: of all code
    points only the capitals [S], [V] and [G] are turned into a letter
    of the suffix, and none into the full stop. *)
Definition lower (s : pystr) : pystr :=
  map (fun c => if (65 <=? c) && (c <=? 90) then c + 32 else c) s.

Definition endswith (suffix s : pystr) : bool :=
  startswith (rev suffix) (rev s).

(** The drawing of the placeholder. *)
Definition default_image : M Tray image := ret Placeholder.

Definition _load_icon_image (icon_path : option pystr) : M Tray image :=
  '(self, h) <- get_state ;;
  match icon_path with
  | Some path =>
      if truthy path && path_exists path h then
        if endswith (lit ".svg") (lower path) then
          converted <-
            try_except
              ((if has_cairosvg h then PASS else raise ImportError) ;;;
               (if svg_fault h then raise RuntimeError else PASS) ;;;
               ret (Some (Rasterized path)))
              (fun e =>
                 match e with
                 | ImportError =>
                     logger DEBUG "cairosvg not available, using fallback icon"
                 | _ => logger DEBUG "Failed to convert SVG"
                 end ;;;
                 ret None) ;;
          match converted with
          | Some image => ret image
          | None => default_image
          end
        else
          opened <-
            try_except
              ((if open_fault h then raise RuntimeError else PASS) ;;;
               ret (Some (Opened path)))
              (fun _ => logger DEBUG "Failed to open icon" ;;; ret None) ;;
          match opened with
          | Some image => ret image
          | None => default_image
          end
      else default_image
  | None => default_image
  end.

(** One entry of the menu: a label, or a separator. *)
Definition menu (self : WindowsTrayIcon) : list (option pystr) :=
  [Some (lit "Show High Tide");
   None;
   Some (if _is_playing self then lit "Pause" else lit "Play");
   Some (lit "Next");
   Some (lit "Previous");
   None;
   Some (lit "Quit")].

Definition start (icon_path : option pystr) : M Tray bool :=
  '(self, h) <- get_state ;;
  if negb (HAS_PYSTRAY h) then
    logger INFO "pystray not available; system tray icon disabled" ;;;
    ret false
  else
    try_except
      (image <- _load_icon_image icon_path ;;
       '(self, h) <- get_state ;;
       (if icon_fault h then raise RuntimeError else PASS) ;;;
       let created := List.length (icons h) in
       modify (fun '(self, h) =>
         (set_icon (Some created) self,
          with_icons
            (icons h ++ [{| icon_image := image; title := lit "High Tide";
                            running := false; stopped := false |}]) h)) ;;;
       on_icon created set_running ;;;
       update_self (set_thread (Some created)) ;;;
       logger INFO "Windows system tray icon started" ;;;
       ret true)
      (fun _ =>
         logger EXCEPTION "Failed to start system tray icon" ;;;
         ret false).

Definition stop : M Tray unit :=
  '(self, h) <- get_state ;;
  match _icon self with
  | Some i =>
      try_except
        (if stop_fault h then raise RuntimeError else on_icon i set_stopped)
        (fun _ => PASS) ;;;
      update_self (set_icon None) ;;;
      logger INFO "Windows system tray icon stopped"
  | None => PASS
  end.

(** The text [update_state] puts on the icon. *)
Definition tooltip (is_playing : bool) (title artist : pystr) : pystr :=
  let tooltip :=
    if truthy title then lit "High Tide - " ++ title else lit "High Tide" in
  let tooltip :=
    if truthy artist then tooltip ++ lit " by " ++ artist else tooltip in
  if negb is_playing && truthy title then tooltip ++ lit " (Paused)"
  else tooltip.

Definition update_state (is_playing : bool) (title artist : pystr)
  : M Tray unit :=
  update_self
    (set_track is_playing (if truthy title then title else lit "High Tide")
               artist) ;;;
  '(self, h) <- get_state ;;
  match _icon self with
  | Some i =>
      try_except
        (if title_fault h then raise RuntimeError
         else on_icon i (set_title (tooltip is_playing title artist)))
        (fun _ => PASS)
  | None => PASS
  end.

Definition _on_show_clicked (callbacks : Callbacks) : M Tray unit :=
  on_show callbacks.

Definition _on_play_pause_clicked (callbacks : Callbacks) : M Tray unit :=
  on_play_pause callbacks.

Definition _on_next_clicked (callbacks : Callbacks) : M Tray unit :=
  on_next callbacks.

Definition _on_previous_clicked (callbacks : Callbacks) : M Tray unit :=
  on_previous callbacks.

Definition _on_quit_clicked (callbacks : Callbacks) : M Tray unit :=
  stop ;;;
  on_quit callbacks.

End TrayIcon.

(* ================================================================= *)
(** * windows_integration.py: the protocol handler *)
(* ================================================================= *)

Module Protocol.

Import WindowsIntegration.

(** ** The registry below [HKEY_CURRENT_USER\Software\Classes\tidal] *)

(** A key: its values and its subkeys, by name. *)
Inductive regkey : Type :=
| Key (values : registry_key) (subkeys : list (pystr * regkey)).

Definition values (k : regkey) : registry_key :=
  match k with Key vs _ => vs end.

Definition subkeys (k : regkey) : list (pystr * regkey) :=
  match k with Key _ subs => subs end.

(** The key of the protocol, [None] when it does not exist, and whether
    the registry refuses the calls that need write access.  A path is
    the list of the key names that follow [Software\Classes\tidal]. *)
Record Hive : Type := {
  tidal : option regkey;
  read_only : bool
}.

Definition with_tidal (x : option regkey) (h : Hive) : Hive :=
  {| tidal := x; read_only := read_only h |}.

Fixpoint sub_get (name : pystr) (subs : list (pystr * regkey)) : option regkey :=
  match subs with
  | [] => None
  | (n, c) :: subs' => if str_eqb name n then Some c else sub_get name subs'
  end.

(** The subkey [name] replaced by [f] of it. *)
Fixpoint sub_update (name : pystr) (f : regkey -> regkey)
    (subs : list (pystr * regkey)) : list (pystr * regkey) :=
  match subs with
  | [] => []
  | (n, c) :: subs' =>
      if str_eqb name n then (n, f c) :: subs'
      else (n, c) :: sub_update name f subs'
  end.

(** The same, with the subkey created empty when it is not there. *)
Fixpoint sub_ensure (name : pystr) (f : regkey -> regkey)
    (subs : list (pystr * regkey)) : list (pystr * regkey) :=
  match subs with
  | [] => [(name, f (Key [] []))]
  | (n, c) :: subs' =>
      if str_eqb name n then (n, f c) :: subs'
      else (n, c) :: sub_ensure name f subs'
  end.

Fixpoint sub_del (name : pystr) (subs : list (pystr * regkey))
  : list (pystr * regkey) :=
  match subs with
  | [] => []
  | (n, c) :: subs' =>
      if str_eqb name n then subs' else (n, c) :: sub_del name subs'
  end.

Fixpoint lookup_in (path : list pystr) (k : regkey) : option regkey :=
  match path with
  | [] => Some k
  | name :: rest =>
      match sub_get name (subkeys k) with
      | Some c => lookup_in rest c
      | None => None
      end
  end.

Fixpoint modify_in (path : list pystr) (f : regkey -> regkey) (k : regkey)
  : regkey :=
  match path with
  | [] => f k
  | name :: rest =>
      Key (values k) (sub_update name (modify_in rest f) (subkeys k))
  end.

Fixpoint create_in (path : list pystr) (k : regkey) : regkey :=
  match path with
  | [] => k
  | name :: rest =>
      Key (values k) (sub_ensure name (create_in rest) (subkeys k))
  end.

Definition lookup (path : list pystr) (root : option regkey) : option regkey :=
  match root with
  | Some k => lookup_in path k
  | None => None
  end.

Definition modify_at (path : list pystr) (f : regkey -> regkey)
    (root : option regkey) : option regkey :=
  option_map (modify_in path f) root.

Definition create (path : list pystr) (root : option regkey) : option regkey :=
  Some (create_in path (match root with Some k => k | None => Key [] [] end)).

(** The key at [path] taken out of its parent. *)
Definition remove (path : list pystr) (root : option regkey) : option regkey :=
  match path with
  | [] => None
  | _ :: _ =>
      modify_at (removelast path)
        (fun k => Key (values k) (sub_del (last path []) (subkeys k))) root
  end.

Definition value_at (path : list pystr) (name : pystr) (root : option regkey)
  : option pystr :=
  match lookup path root with
  | Some k => reg_get name (values k)
  | None => None
  end.

(** ** [winreg] *)

(** The error codes of the calls, which CPython raises as
    [FileNotFoundError], [PermissionError] and a plain [OSError]. *)
Inductive WinError : Type :=
| ERROR_FILE_NOT_FOUND | ERROR_ACCESS_DENIED | ERROR_NO_MORE_ITEMS.

(** What leaves a call: an [OSError], or the recursion limit. *)
Inductive failure : Type :=
| OSError (winerror : WinError)
| RecursionLimit.

Definition is_OSError (e : failure) : bool :=
  match e with OSError _ => true | RecursionLimit => false end.

Definition is_FileNotFound (e : failure) : bool :=
  match e with OSError ERROR_FILE_NOT_FOUND => true | _ => false end.

(** A computation on the registry that returns or raises. *)
Definition W (A : Type) : Type := Hive -> (A + failure) * Hive.

Definition wret {A} (a : A) : W A := fun h => (inl a, h).

Definition wraise {A} (e : failure) : W A := fun h => (inr e, h).

Definition wbind {A B} (m : W A) (k : A -> W B) : W B :=
  fun h =>
    match m h with
    | (inl a, h') => k a h'
    | (inr e, h') => (inr e, h')
    end.

(** [try: body / except E: handler] *)
Definition wtry {A} (catches : failure -> bool) (body : W A)
    (handler : failure -> W A) : W A :=
  fun h =>
    match body h with
    | (inl a, h') => (inl a, h')
    | (inr e, h') => if catches e then handler e h' else (inr e, h')
    end.

Declare Scope winreg_scope.
Delimit Scope winreg_scope with winreg.
Notation "x <- m ;; k" := (wbind m (fun x => k))
  (at level 100, m at next level, right associativity) : winreg_scope.
Notation "m ;;; k" := (wbind m (fun _ => k))
  (at level 100, right associativity) : winreg_scope.

Inductive access : Type := KEY_READ | KEY_SET_VALUE | KEY_ALL_ACCESS.

Definition writes (a : access) : bool :=
  match a with KEY_READ => false | _ => true end.

Local Open Scope winreg_scope.

(** A handle is the path of the key it was opened on. *)
Definition OpenKey (path : list pystr) (a : access) : W (list pystr) :=
  fun h =>
    match lookup path (tidal h) with
    | None => (inr (OSError ERROR_FILE_NOT_FOUND), h)
    | Some _ =>
        if writes a && read_only h then (inr (OSError ERROR_ACCESS_DENIED), h)
        else (inl path, h)
    end.

Definition CreateKey (path : list pystr) : W (list pystr) :=
  fun h =>
    if read_only h then (inr (OSError ERROR_ACCESS_DENIED), h)
    else (inl path, with_tidal (create path (tidal h)) h).

Definition SetValueEx (key : list pystr) (name value : pystr) : W unit :=
  fun h =>
    (inl tt,
     with_tidal
       (modify_at key (fun k => Key (reg_set name value (values k)) (subkeys k))
                  (tidal h)) h).

(** The name of the subkey at [index]; past the last one, and on a
    handle whose key is gone, the call raises an [OSError]. *)
Definition EnumKey (key : list pystr) (index : nat) : W pystr :=
  fun h =>
    match lookup key (tidal h) with
    | Some k =>
        match nth_error (subkeys k) index with
        | Some (name, _) => (inl name, h)
        | None => (inr (OSError ERROR_NO_MORE_ITEMS), h)
        end
    | None => (inr (OSError ERROR_NO_MORE_ITEMS), h)
    end.

(** A key with subkeys cannot be deleted. *)
Definition DeleteKey (path : list pystr) : W unit :=
  fun h =>
    match lookup path (tidal h) with
    | None => (inr (OSError ERROR_FILE_NOT_FOUND), h)
    | Some k =>
        if read_only h then (inr (OSError ERROR_ACCESS_DENIED), h)
        else
          match subkeys k with
          | [] => (inl tt, with_tidal (remove path (tidal h)) h)
          | _ :: _ => (inr (OSError ERROR_ACCESS_DENIED), h)
          end
    end.

(** ** The three functions *)

(** The function nested in [unregister_protocol_handler], and its
    [while True] loop.  [fuel] bounds the depth of the calls. *)
Fixpoint delete_key_recursive (fuel : nat) (path : list pystr) : W unit :=
  match fuel with
  | O => wraise RecursionLimit
  | S fuel' =>
      wtry is_FileNotFound
        (key <- OpenKey path KEY_ALL_ACCESS ;;
         delete_subkeys fuel' key ;;;
         DeleteKey path)
        (fun _ => wret tt)
  end
with delete_subkeys (fuel : nat) (key : list pystr) : W unit :=
  match fuel with
  | O => wraise RecursionLimit
  | S fuel' =>
      again <-
        wtry is_OSError
          (subkey_name <- EnumKey key 0 ;;
           delete_key_recursive fuel' (key ++ [subkey_name]) ;;;
           wret true)
          (fun _ => wret false) ;;
      if again then delete_subkeys fuel' key else wret tt
  end.

(** The number of keys of a tree. *)
Fixpoint size (k : regkey) : nat :=
  match k with
  | Key _ subs =>
      S ((fix sizes (l : list (pystr * regkey)) : nat :=
            match l with
            | [] => 0%nat
            | (_, c) :: l' => (size c + sizes l')%nat
            end) subs)
  end.

Definition sizes (subs : list (pystr * regkey)) : nat :=
  list_sum (map (fun entry => size (snd entry)) subs).

Definition Registry : Type := Hive * Desktop.

(** [try: body / except Exception: handler] around calls of [winreg];
    [rest] is what follows the calls inside the [try]. *)
Definition try_winreg {A B} (body : W A) (rest : A -> M Registry B)
    (handler : failure -> M Registry B) : M Registry B :=
  fun '(h, d) =>
    match body h with
    | (inl a, h') => rest a (h', d)
    | (inr e, h') => handler e (h', d)
    end.

Local Open Scope py_scope.

Definition is_protocol_handler_registered : M Registry bool :=
  '(h, d) <- get_state ;;
  if negb (IS_WINDOWS d) then ret false
  else
    try_winreg (OpenKey [] KEY_READ)
      (fun _ => ret true)
      (fun e =>
         if is_FileNotFound e then ret false
         else
           logger EXCEPTION "Failed to check protocol handler status" ;;;
           ret false).

(** The part of a string in front of its first double quote: the first
    piece of [split] at the quote. *)
Fixpoint before_quote (s : pystr) : pystr :=
  match s with
  | [] => []
  | c :: s' => if c =? DQUOTE then [] else c :: before_quote s'
  end.

Definition icon_of (executable : pystr) : pystr :=
  (if existsb (N.eqb DQUOTE) executable then before_quote executable
   else executable) ++ lit ",0".

Definition command_of (executable : pystr) (d : Desktop) : pystr :=
  if sys_frozen d then
    DQUOTE :: executable ++ DQUOTE :: 32 :: DQUOTE :: lit "%1" ++ [DQUOTE]
  else
    DQUOTE :: sys_executable d ++ DQUOTE :: 32 :: DQUOTE :: main_script d
    ++ DQUOTE :: 32 :: DQUOTE :: lit "%1" ++ [DQUOTE].

Definition register_protocol_handler : M Registry bool :=
  '(h, d) <- get_state ;;
  if negb (IS_WINDOWS d) then ret false
  else
    match get_executable_path d with
    | Some executable =>
        if negb (truthy executable) then
          logger ERROR
            "Could not determine executable path for protocol registration" ;;;
          ret false
        else
          try_winreg
            (key <- CreateKey [] ;;
             SetValueEx key (lit "") (lit "URL:TIDAL Protocol") ;;;
             SetValueEx key (lit "URL Protocol") (lit "") ;;;
             key <- CreateKey [lit "DefaultIcon"] ;;
             SetValueEx key (lit "") (icon_of executable) ;;;
             key <- CreateKey [lit "shell"; lit "open"; lit "command"] ;;
             SetValueEx key (lit "") (command_of executable d))%winreg
            (fun _ =>
               logger INFO "Registered tidal:// protocol handler" ;;;
               ret true)
            (fun _ =>
               logger EXCEPTION "Failed to register protocol handler" ;;;
               ret false)
    | None =>
        logger ERROR
          "Could not determine executable path for protocol registration" ;;;
        ret false
    end.

(** [delete_key_recursive] is given a depth of calls that no tree
    needs in full: twice the number of its keys, and one. *)
Definition unregister_protocol_handler : M Registry bool :=
  '(h, d) <- get_state ;;
  if negb (IS_WINDOWS d) then ret false
  else
    try_winreg
      (delete_key_recursive
         (match tidal h with Some k => S (2 * size k) | None => 1%nat end) [])
      (fun _ =>
         logger INFO "Unregistered tidal:// protocol handler" ;;;
         ret true)
      (fun _ =>
         logger EXCEPTION "Failed to unregister protocol handler" ;;;
         ret false).

(** ** Vocabulary of the properties *)

(** [delete_key_recursive], given enough calls, deletes the key [c]
    wherever it stands. *)
Definition deletes (c : regkey) : Prop :=
  forall (fuel : nat) (root : option regkey) (p : list pystr),
    lookup p root = Some c ->
    (2 * size c <= fuel)%nat ->
    delete_key_recursive fuel p {| tidal := root; read_only := false |}
    = (inl tt, {| tidal := remove p root; read_only := false |}).

End Protocol.

(* ================================================================= *)
(** * windows_integration.py: the GStreamer plugins *)
(* ================================================================= *)

Module Plugins.

Import WindowsIntegration.

Local Open Scope py_scope.

(** The GStreamer installation: whether importing and initializing
    [Gst] raises, and the element factories it finds. *)
Record Gst : Type := {
  gst_fault : bool;
  factories : list pystr
}.

Definition Checker : Type := Gst * Desktop.

(** [Gst.ElementFactory.find(element_name) is not None] *)
Definition find (element_name : pystr) (g : Gst) : bool :=
  existsb (str_eqb element_name) (factories g).

(** The dictionary [required_plugins], in the order of its entries. *)
Definition required_plugins : list (pystr * pystr) :=
  [(lit "playbin", lit "playbin");
   (lit "playbin3", lit "playbin3");
   (lit "audioconvert", lit "audioconvert");
   (lit "audioresample", lit "audioresample");
   (lit "directsoundsink", lit "directsoundsink");
   (lit "wasapisink", lit "wasapisink");
   (lit "rgvolume", lit "rgvolume");
   (lit "rglimiter", lit "rglimiter");
   (lit "taginject", lit "taginject");
   (lit "queue", lit "queue")].

(** [[name for name, available in results.items() if not available]] *)
Definition missing_of (results : list (pystr * bool)) : list pystr :=
  map fst (filter (fun entry => negb (snd entry)) results).

Definition check_gstreamer_plugins : M Checker (list (pystr * bool)) :=
  '(g, d) <- get_state ;;
  if negb (IS_WINDOWS d) then ret []
  else
    try_except
      ((if gst_fault g then raise ImportError else PASS) ;;;
       let results :=
         map (fun entry => (fst entry, find (snd entry) g)) required_plugins in
       let missing := missing_of results in
       (match missing with
        | _ :: _ => logger WARNING "Missing GStreamer plugins"
        | [] => logger INFO "All required GStreamer plugins available"
        end) ;;;
       ret results)
      (fun _ =>
         logger EXCEPTION "Failed to check GStreamer plugins" ;;;
         ret []).

(** The three messages.  The text around the plugin names is fixed; the
    names of the first message are taken from a set, so their order in
    the text is not determined: they are listed here in the order of
    [missing]. *)
Inductive message : Type :=
| CriticalMissing (plugins : list pystr)
| NoAudioOutput
| OptionalMissing (plugins : list pystr).

Definition critical : list pystr :=
  [lit "playbin"; lit "playbin3"; lit "audioconvert"].

Definition sink_plugins : list pystr :=
  [lit "directsoundsink"; lit "wasapisink"].

Definition member (name : pystr) (names : list pystr) : bool :=
  existsb (str_eqb name) names.

Definition get_missing_plugins_message : M Checker (option message) :=
  results <- check_gstreamer_plugins ;;
  let missing := missing_of results in
  match missing with
  | [] => ret None
  | _ :: _ =>
      let critical_missing := filter (fun name => member name critical) missing in
      match critical_missing with
      | _ :: _ => ret (Some (CriticalMissing critical_missing))
      | [] =>
          if forallb (fun name => member name missing) sink_plugins
          then ret (Some NoAudioOutput)
          else
            match missing with
            | _ :: _ => ret (Some (OptionalMissing missing))
            | [] => ret None
            end
      end
  end.

End Plugins.

(* ================================================================= *)
(** * Sample states *)
(* ================================================================= *)

Module Samples.

Import SecretStorage.

(** The session of the round-trip example of the specification. *)
Definition bearer_session : Session :=
  {| token_type := lit "Bearer";
     access_token := lit "A";
     refresh_token := lit "R";
     expiry_time := PyStr (lit "2025-01-01") |}.

Definition bearer_bundle : dict :=
  [(lit "token-type", JStr (lit "Bearer"));
   (lit "access-token", JStr (lit "A"));
   (lit "refresh-token", JStr (lit "R"));
   (lit "expiry-time", JStr (lit "2025-01-01"))].

(** A session whose access token is a high surrogate followed by a low
    one, as two code points. *)
Definition surrogate_session : Session :=
  {| token_type := lit "Bearer";
     access_token := [55357; 56832];
     refresh_token := lit "R";
     expiry_time := PyStr (lit "2025-01-01") |}.

Definition empty_store : SecretStore :=
  {| version := lit "0.0";
     session := bearer_session;
     token_dictionary := JObj [];
     key := lit "high-tide-login" |}.

Definition empty_vault : Vault :=
  {| credential := None; write_succeeds := true |}.

(** A vault that refuses every write. *)
Definition refusing_vault : Vault :=
  {| credential := None; write_succeeds := false |}.

Definition empty_keyring : Keyring :=
  {| failing := []; default_collection := Some false; password := None |}.

(** A secret service whose lookups fail. *)
Definition broken_keyring : Keyring :=
  {| failing := [PasswordLookup];
     default_collection := Some false;
     password := None |}.

Definition windows_world (v : Vault) : World :=
  {| SecretStorage.IS_WINDOWS := true;
     vault := v;
     keyring := empty_keyring;
     SecretStorage.log := [] |}.

Definition linux_world (k : Keyring) : World :=
  {| SecretStorage.IS_WINDOWS := false;
     vault := empty_vault;
     keyring := k;
     SecretStorage.log := [] |}.

Import WindowsIntegration.

Definition idle_smtc : Smtc :=
  {| is_enabled := false; buttons_enabled := false; button_handlers := 0;
     playback_status := CLOSED; music_title := []; music_artist := [];
     music_album_title := []; display_updates := 0 |}.

(** A Windows desktop with every optional package installed, the
    application frozen into an executable, and the [Run] key as given,
    with every right on it. *)
Definition desktop (fault : option setup_step) (run : option registry_key)
  : Desktop :=
  {| IS_WINDOWS := true; HAS_WINSDK := true; HAS_WIN10TOAST := true;
     app_id_hresult := Some 0;
     setup_fault := fault; controls_fault := false;
     notifier_fault := false; smtc := idle_smtc;
     files := []; threads := []; run_key := run;
     run_key_access := KEY_ALL_ACCESS; sys_frozen := true;
     sys_executable := lit "C:\HighTide\high-tide.exe";
     main_script := lit "C:\HighTide\high-tide.exe";
     log := [] |}.


End Samples.

(* ================================================================= *)
(** * Properties *)
(* ================================================================= *)

Import SecretStorage.

(** ** Strings and dictionaries *)

Lemma str_eqb_eq (a b : pystr) : str_eqb a b = true <-> a = b.
Proof.
  revert b; induction a as [|x a IH]; intros [|y b]; simpl;
    try (split; [discriminate | discriminate]); try tauto.
  rewrite andb_true_iff, N.eqb_eq, IH.
  split; [intros [-> ->]; reflexivity | intros H; inversion H; auto].
Qed.

Lemma str_eqb_refl (a : pystr) : str_eqb a a = true.
Proof. apply str_eqb_eq; reflexivity. Qed.

Lemma str_eqb_neq (a b : pystr) : str_eqb a b = false <-> a <> b.
Proof.
  rewrite <- str_eqb_eq. destruct (str_eqb a b); split; congruence.
Qed.





(** ** [has_credentials] and [get] *)

(** On a dictionary [has_credentials] is the conjunction of three
    membership tests. *)
Lemma has_credentials_dict (self : SecretStore) (d : dict) :
  has_credentials (with_token_dictionary (JObj d) self)
  = Ok (dict_has (lit "token-type") d
        && dict_has (lit "access-token") d
        && dict_has (lit "refresh-token") d).
Proof.
  unfold has_credentials, required_keys; simpl token_dictionary.
  unfold all_in, contains, rbind.
  destruct (dict_has (lit "token-type") d); [|reflexivity].
  destruct (dict_has (lit "access-token") d); [|reflexivity].
  destruct (dict_has (lit "refresh-token") d); reflexivity.
Qed.


(** C4, as stated, fails on a bundle that is not a dictionary.  The
    constructor takes over whatever [json.loads] makes of the stored
    payload; for the list of the three key names [has_credentials]
    tests membership and answers [True], and [get] cannot subscript the
    list with a key: it raises [TypeError]. *)
Lemma C4_counterexample :
  let payload := dumps (JArr [JStr (lit "token-type");
                              JStr (lit "access-token");
                              JStr (lit "refresh-token")]) in
  let w := Samples.linux_world
             {| failing := []; default_collection := Some false;
                password := Some payload |} in
  (exists store w',
     __init__ Samples.bearer_session w = (Ok store, w')
     /\ has_credentials store = Ok true
     /\ get store = Raise TypeError)
  /\ ~ (forall store : SecretStore,
          has_credentials store = Ok true ->
          exists t a r, get store = Ok (t, a, r)).
Proof.
  intros payload w. split.
  - do 2 eexists. split; [vm_compute; reflexivity|].
    split; vm_compute; reflexivity.
  - intros H.
    destruct (H (with_token_dictionary
                   (JArr [JStr (lit "token-type"); JStr (lit "access-token");
                          JStr (lit "refresh-token")])
                   Samples.empty_store) eq_refl) as [t [a [r Hget]]].
    discriminate Hget.
Qed.

(** C4, amended.  On a bundle that is a dictionary and for which
    [has_credentials] is [True], [get] returns the three stored tokens
    and does not raise; on the empty bundle, where [has_credentials] is
    [False], it raises [KeyError] and returns nothing: the store has no
    handler that would log and swallow it. *)
Theorem C4_get_returns_under_has_credentials :
  forall (self : SecretStore) (d : dict),
    (has_credentials (with_token_dictionary (JObj d) self) = Ok true ->
     exists t a r,
       get (with_token_dictionary (JObj d) self) = Ok (t, a, r)
       /\ dict_get (lit "token-type") d = Some t
       /\ dict_get (lit "access-token") d = Some a
       /\ dict_get (lit "refresh-token") d = Some r)
    /\ has_credentials (with_token_dictionary (JObj []) self) = Ok false
    /\ get (with_token_dictionary (JObj []) self)
       = Raise (KeyError (lit "token-type")).
Proof.
  intros self d. split; [|split; reflexivity].
  intros H. rewrite has_credentials_dict in H.
  injection H as H. rewrite !andb_true_iff in H.
  destruct H as [[H1 H2] H3]. unfold dict_has in H1, H2, H3.
  destruct (dict_get (lit "token-type") d) as [t|] eqn:Et; [|discriminate].
  destruct (dict_get (lit "access-token") d) as [a|] eqn:Ea; [|discriminate].
  destruct (dict_get (lit "refresh-token") d) as [r|] eqn:Er; [|discriminate].
  exists t, a, r. unfold get, subscript.
  cbn [token_dictionary with_token_dictionary].
  rewrite Et, Ea, Er. repeat split; reflexivity.
Qed.

Lemma C4_witness :
  let store :=
    with_token_dictionary (JObj Samples.bearer_bundle) Samples.empty_store in
  has_credentials store = Ok true
  /\ get store = Ok (JStr (lit "Bearer"), JStr (lit "A"), JStr (lit "R")).
Proof.
  intros store. split; [reflexivity|].
  destruct (proj1 (C4_get_returns_under_has_credentials
                     Samples.empty_store Samples.bearer_bundle) eq_refl)
    as [t [a [r [Hget [Ht [Ha Hr]]]]]].
  injection Ht as <-. injection Ha as <-. injection Hr as <-. exact Hget.
Defined.

(** ** The JSON codec *)

(** *** The codec on small inputs *)

Example dumps_empty_object : dumps (JObj []) = lit "{}".
Proof. reflexivity. Qed.

Example dumps_one_member :
  dumps (JObj [(lit "a", JStr (lit "b"))])
  = lit "{" ++ [DQUOTE] ++ lit "a" ++ [DQUOTE] ++ lit ": "
    ++ [DQUOTE] ++ lit "b" ++ [DQUOTE] ++ lit "}".
Proof. reflexivity. Qed.

Example escape_newline : escape [10] = lit "\n".
Proof. reflexivity. Qed.

Example escape_e_acute : escape [233] = lit "\u00e9".
Proof. reflexivity. Qed.

Example escape_above_basic_plane : escape [128512] = lit "\ud83d\ude00".
Proof. reflexivity. Qed.

Example loads_array : loads (lit " [1, 2.5e3, null, true] ")
  = Ok (JArr [JNum (lit "1"); JNum (lit "2.5e3"); JNull; JBool true]).
Proof. reflexivity. Qed.

Example loads_keeps_last_of_duplicate_keys :
  loads (lit "{" ++ [DQUOTE] ++ lit "a" ++ [DQUOTE] ++ lit ": 1, "
         ++ [DQUOTE] ++ lit "b" ++ [DQUOTE] ++ lit ": 2, "
         ++ [DQUOTE] ++ lit "a" ++ [DQUOTE] ++ lit ": 3}")
  = Ok (JObj [(lit "a", JNum (lit "3")); (lit "b", JNum (lit "2"))]).
Proof. reflexivity. Qed.

Example loads_rejects_truncated_object : loads (lit "{") = Raise JSONDecodeError.
Proof. reflexivity. Qed.

Example loads_rejects_trailing_text : loads (lit "{} x") = Raise JSONDecodeError.
Proof. reflexivity. Qed.

Example loads_rejects_empty_text : loads [] = Raise JSONDecodeError.
Proof. reflexivity. Qed.

Example loads_takes_4300_digits :
  loads (repeat (ord "7") 4300) = Ok (JNum (repeat (ord "7") 4300)).
Proof. vm_compute; reflexivity. Qed.

Example loads_refuses_4301_digits :
  loads (ord "-" :: repeat (ord "7") 4301) = Raise ValueError
  /\ loads (lit "[" ++ repeat (ord "7") 4301) = Raise ValueError.
Proof. split; vm_compute; reflexivity. Qed.

Example loads_takes_a_long_float :
  loads (repeat (ord "7") 4301 ++ lit ".0")
  = Ok (JNum (repeat (ord "7") 4301 ++ lit ".0")).
Proof. vm_compute; reflexivity. Qed.

(** *** Hexadecimal escapes *)

Lemma hexval_hexdigit (d : N) : d < 16 -> hexval (hexdigit d) = Some d.
Proof.
  intros H.
  assert (E : d = 0 \/ d = 1 \/ d = 2 \/ d = 3 \/ d = 4 \/ d = 5 \/ d = 6
              \/ d = 7 \/ d = 8 \/ d = 9 \/ d = 10 \/ d = 11 \/ d = 12
              \/ d = 13 \/ d = 14 \/ d = 15) by lia.
  repeat (destruct E as [E|E]; [subst d; reflexivity|]).
  subst d; reflexivity.
Qed.

Lemma hexdigit_ascii (d : N) : d < 16 -> 48 <= hexdigit d <= 102.
Proof.
  intros H. unfold hexdigit. destruct (N.ltb_spec d 10); lia.
Qed.

Lemma hex_digits_sum (n : N) :
  n < 65536 ->
  (n / 4096 mod 16) * 4096 + (n / 256 mod 16) * 256
  + (n / 16 mod 16) * 16 + n mod 16 = n.
Proof.
  intros H.
  pose proof (N.div_mod n 16).
  pose proof (N.div_mod (n / 16) 16).
  pose proof (N.div_mod (n / 256) 16).
  assert (n / 16 / 16 = n / 256) by (rewrite N.Div0.div_div; reflexivity).
  assert (n / 256 / 16 = n / 4096) by (rewrite N.Div0.div_div; reflexivity).
  assert (n / 4096 < 16) by (apply N.Div0.div_lt_upper_bound; lia).
  rewrite (N.mod_small (n / 4096) 16) by lia. lia.
Qed.

Lemma mod16_lt (n : N) : n mod 16 < 16.
Proof. apply N.mod_lt; discriminate. Qed.

Lemma hex4_digits (n : N) :
  n < 65536 ->
  hex4 (hexdigit (n / 4096 mod 16)) (hexdigit (n / 256 mod 16))
       (hexdigit (n / 16 mod 16)) (hexdigit (n mod 16)) = Some n.
Proof.
  intros H. unfold hex4.
  rewrite !hexval_hexdigit by apply mod16_lt.
  rewrite hex_digits_sum by exact H. reflexivity.
Qed.

(** *** Surrogate arithmetic *)

Lemma lor_shifted (a b : N) : b < 1024 -> N.lor (a * 1024) b = a * 1024 + b.
Proof.
  intros Hb.
  assert (Hland : N.land (a * 1024) b = 0).
  { apply N.bits_inj. intros i. rewrite N.land_spec, N.bits_0.
    destruct (N.lt_ge_cases i 10) as [Hi|Hi].
    - change 1024 with (2 ^ 10).
      rewrite N.mul_pow2_bits_low by exact Hi. reflexivity.
    - destruct (N.eq_dec b 0) as [->|Hnz].
      + rewrite N.bits_0, andb_false_r; reflexivity.
      + rewrite (N.bits_above_log2 b i), andb_false_r; [reflexivity|].
        apply N.log2_lt_pow2; [lia|].
        apply N.lt_le_trans with (2 ^ 10); [exact Hb|].
        apply N.pow_le_mono_r; [discriminate | exact Hi]. }
  rewrite <- N.lxor_lor by exact Hland.
  rewrite <- N.add_nocarry_lxor by exact Hland. reflexivity.
Qed.

(** The two halves [dumps] writes for a code point above the basic
    plane. *)
Lemma pair_halves (c : N) :
  65536 <= c -> c <= 1114111 ->
  let n := c - 65536 in
  N.lor 55296 (N.land (N.shiftr n 10) 1023) = 55296 + n / 1024
  /\ N.lor 56320 (N.land n 1023) = 56320 + n mod 1024
  /\ n / 1024 < 1024 /\ n mod 1024 < 1024.
Proof.
  intros Hlo Hhi n.
  assert (Hn : n < 1048576) by (unfold n; lia).
  assert (Hq : n / 1024 < 1024)
    by (apply N.Div0.div_lt_upper_bound; lia).
  assert (Hr : n mod 1024 < 1024) by (apply N.mod_lt; discriminate).
  change 1023 with (N.ones 10).
  rewrite !N.land_ones, N.shiftr_div_pow2.
  change (2 ^ 10) with 1024.
  rewrite (N.mod_small (n / 1024) 1024) by exact Hq.
  change 55296 with (54 * 1024). change 56320 with (55 * 1024).
  rewrite !lor_shifted by assumption. auto.
Qed.

Lemma join_halves (c : N) :
  65536 <= c -> c <= 1114111 ->
  let n := c - 65536 in
  join_surrogates (55296 + n / 1024) (56320 + n mod 1024) = c.
Proof.
  intros Hlo Hhi n. unfold join_surrogates.
  rewrite (N.add_comm 55296), (N.add_comm 56320), !N.add_sub.
  rewrite N.shiftl_mul_pow2. change (2 ^ 10) with 1024.
  rewrite lor_shifted by (apply N.mod_lt; discriminate).
  pose proof (N.div_mod n 1024). unfold n in *. lia.
Qed.

(** *** Reading back an escaped string *)

Lemma push_ok (c : N) (s rest : pystr) :
  Json.push c (Ok (s, rest)) = Ok (c :: s, rest).
Proof. reflexivity. Qed.

(** One step of [scanstring] on a [\uXXXX] escape. *)
Lemma scanstring_u (n : N) (r : pystr) :
  n < 65536 ->
  scanstring (u_escape n ++ r)
  = if is_high_surrogate n then
      match r with
      | b :: r3 =>
          if b =? BACKSLASH then
            match r3 with
            | u :: r4 =>
                if u =? ord "u" then
                  match r4 with
                  | g1 :: g2 :: g3 :: g4 :: r5 =>
                      match hex4 g1 g2 g3 g4 with
                      | None => Raise JSONDecodeError
                      | Some uni2 =>
                          if is_low_surrogate uni2
                          then Json.push (join_surrogates n uni2) (scanstring r5)
                          else Json.push n (scanstring r)
                      end
                  | _ => Raise JSONDecodeError
                  end
                else Json.push n (scanstring r)
            | [] => Raise JSONDecodeError
            end
          else Json.push n (scanstring r)
      | [] => Raise JSONDecodeError
      end
    else Json.push n (scanstring r).
Proof.
  intros H. unfold u_escape.
  cbn [app scanstring].
  change (BACKSLASH =? DQUOTE) with false.
  change (BACKSLASH =? BACKSLASH) with true.
  change (ord "u" =? ord "u") with true.
  cbv iota. rewrite hex4_digits by exact H.
  reflexivity.
Qed.

Lemma escape_char_shape (c : N) : c <= 1114111 -> escaped c (escape_char c).
Proof.
  intros Hc. unfold escape_char.
  destruct (N.eqb_spec c DQUOTE) as [->|H1];
    [apply (escaped_short _ DQUOTE); [discriminate | reflexivity | reflexivity]|].
  destruct (N.eqb_spec c BACKSLASH) as [->|H2];
    [apply (escaped_short _ BACKSLASH); [discriminate | reflexivity | reflexivity]|].
  destruct (N.eqb_spec c 10) as [->|H3];
    [apply (escaped_short _ (ord "n")); [discriminate | reflexivity | reflexivity]|].
  destruct (N.eqb_spec c 13) as [->|H4];
    [apply (escaped_short _ (ord "r")); [discriminate | reflexivity | reflexivity]|].
  destruct (N.eqb_spec c 9) as [->|H5];
    [apply (escaped_short _ (ord "t")); [discriminate | reflexivity | reflexivity]|].
  destruct (N.eqb_spec c 12) as [->|H6];
    [apply (escaped_short _ (ord "f")); [discriminate | reflexivity | reflexivity]|].
  destruct (N.eqb_spec c 8) as [->|H7];
    [apply (escaped_short _ (ord "b")); [discriminate | reflexivity | reflexivity]|].
  destruct (N.leb_spec 32 c) as [Hlo|Hlo]; cbn [andb].
  - destruct (N.leb_spec c 126) as [Hhi|Hhi].
    + apply escaped_plain; [lia | exact H1 | exact H2].
    + destruct (N.ltb_spec c 65536) as [Hb|Hb]; [apply escaped_u; exact Hb|].
      cbv zeta. destruct (pair_halves c Hb Hc) as [-> [-> _]].
      apply escaped_pair; exact Hb.
  - destruct (N.ltb_spec c 65536) as [Hb|Hb]; [apply escaped_u; exact Hb | lia].
Qed.

Lemma halves_are_surrogates (c : N) :
  65536 <= c -> c <= 1114111 ->
  let hi := 55296 + (c - 65536) / 1024 in
  let lo := 56320 + (c - 65536) mod 1024 in
  hi < 65536 /\ lo < 65536
  /\ is_high_surrogate hi = true /\ is_low_surrogate hi = false
  /\ is_low_surrogate lo = true.
Proof.
  intros Hlo Hhi hi lo.
  destruct (pair_halves c Hlo Hhi) as [_ [_ [Hq Hr]]]. cbv zeta in Hq, Hr.
  unfold is_high_surrogate, is_low_surrogate, hi, lo.
  generalize dependent ((c - 65536) / 1024).
  generalize dependent ((c - 65536) mod 1024).
  intros r Hr q Hq.
  repeat split; try lia;
    rewrite ?andb_true_iff, ?andb_false_iff, ?N.leb_le, ?N.leb_gt; lia.
Qed.

(** A character that is not a high surrogate is read back as it is,
    whatever follows. *)
Lemma scanstring_escape_char (c : N) (r : pystr) :
  c <= 1114111 -> is_high_surrogate c = false ->
  scanstring (escape_char c ++ r) = Json.push c (scanstring r).
Proof.
  intros Hc Hhigh.
  destruct (escape_char_shape c Hc) as [Hr H1 H2 | e He Hu Hs | Hb | Hb].
  - cbn [app scanstring].
    destruct (N.eqb_spec c DQUOTE); [contradiction|].
    destruct (N.eqb_spec c BACKSLASH); [contradiction|].
    destruct (N.ltb_spec c 32); [lia | reflexivity].
  - cbn [app scanstring].
    change (BACKSLASH =? DQUOTE) with false.
    change (BACKSLASH =? BACKSLASH) with true. cbv iota.
    destruct (N.eqb_spec e (ord "u")); [contradiction|].
    rewrite Hu. reflexivity.
  - rewrite scanstring_u by exact Hb. rewrite Hhigh. reflexivity.
  - destruct (halves_are_surrogates c Hb Hc) as [Hh [Hl [Hhs [_ Hls]]]].
    cbv zeta in Hh, Hl, Hhs, Hls.
    rewrite <- app_assoc, scanstring_u by exact Hh.
    rewrite Hhs. unfold u_escape at 1. cbn [app].
    change (BACKSLASH =? BACKSLASH) with true.
    change (ord "u" =? ord "u") with true. cbv iota.
    rewrite hex4_digits by exact Hl. rewrite Hls.
    rewrite join_halves by assumption. reflexivity.
Qed.

(** After a high surrogate the reader looks at the next escape. *)
Lemma scanstring_high_then_quote (hi : N) (rest : pystr) :
  hi < 65536 -> is_high_surrogate hi = true ->
  scanstring (u_escape hi ++ DQUOTE :: rest) = Ok ([hi], rest).
Proof.
  intros Hb Hh. rewrite scanstring_u by exact Hb. rewrite Hh.
  reflexivity.
Qed.

Lemma scanstring_high_then_char (hi c : N) (r : pystr) :
  hi < 65536 -> is_high_surrogate hi = true -> c <= 1114111 ->
  scanstring (u_escape hi ++ escape_char c ++ r)
  = if is_low_surrogate c
    then Json.push (join_surrogates hi c) (scanstring r)
    else Json.push hi (scanstring (escape_char c ++ r)).
Proof.
  intros Hb Hh Hc. rewrite scanstring_u by exact Hb. rewrite Hh.
  destruct (escape_char_shape c Hc) as [Hr H1 H2 | e He Hu Hs | Hcb | Hcb].
  - cbn [app]. destruct (N.eqb_spec c BACKSLASH); [contradiction|].
    replace (is_low_surrogate c) with false; [reflexivity|].
    unfold is_low_surrogate. symmetry.
    rewrite andb_false_iff, !N.leb_gt. lia.
  - cbn [app]. change (BACKSLASH =? BACKSLASH) with true. cbv iota.
    destruct (N.eqb_spec e (ord "u")); [contradiction|].
    replace (is_low_surrogate c) with false; [reflexivity|].
    unfold is_low_surrogate. symmetry.
    rewrite andb_false_iff, !N.leb_gt. lia.
  - unfold u_escape at 1. cbn [app].
    change (BACKSLASH =? BACKSLASH) with true.
    change (ord "u" =? ord "u") with true. cbv iota.
    rewrite hex4_digits by exact Hcb.
    destruct (is_low_surrogate c); reflexivity.
  - destruct (halves_are_surrogates c Hcb Hc) as [Hh' [Hl' [_ [Hnl _]]]].
    cbv zeta in Hh', Hl', Hnl.
    rewrite <- app_assoc. unfold u_escape at 1. cbn [app].
    change (BACKSLASH =? BACKSLASH) with true.
    change (ord "u" =? ord "u") with true. cbv iota.
    rewrite hex4_digits by exact Hh'. rewrite Hnl.
    replace (is_low_surrogate c) with false; [reflexivity|].
    unfold is_low_surrogate. symmetry.
    rewrite andb_false_iff, !N.leb_gt. lia.
Qed.

Lemma escape_char_high (c : N) :
  is_high_surrogate c = true -> escape_char c = u_escape c /\ c < 65536.
Proof.
  unfold is_high_surrogate. rewrite andb_true_iff, !N.leb_le. intros [Hlo Hhi].
  split; [|lia]. unfold escape_char, DQUOTE, BACKSLASH.
  repeat match goal with
         | |- context [?a =? ?b] =>
             destruct (N.eqb_spec a b); [exfalso; lia|]
         end.
  destruct (N.leb_spec 32 c); [|lia].
  destruct (N.leb_spec c 126); [lia|]. cbn [andb].
  destruct (N.ltb_spec c 65536); [reflexivity | lia].
Qed.

Lemma list_pair_ind (A : Type) (P : list A -> Prop) :
  P [] -> (forall a, P [a]) ->
  (forall a b l, P l -> P (b :: l) -> P (a :: b :: l)) ->
  forall l, P l.
Proof.
  intros H0 H1 H2.
  assert (both : forall l, P l /\ forall a, P (a :: l)).
  { induction l as [|b l [IH IH']]; [split; [exact H0 | exact H1]|].
    split; [apply IH'|]. intros a. apply H2; [exact IH | apply IH']. }
  intros l; apply both.
Qed.

(** [scanstring] reads the escaped form of a string back as the string
    with its surrogate pairs joined. *)
Lemma scanstring_escape (s rest : pystr) :
  is_str s ->
  scanstring (escape s ++ DQUOTE :: rest) = Ok (join_pairs s, rest).
Proof.
  revert rest. induction s as [|a|a b l IHl IHbl] using list_pair_ind;
    intros rest Hs.
  - reflexivity.
  - inversion Hs as [|? ? Ha _]; subst.
    cbn [escape join_pairs]. rewrite app_nil_r.
    destruct (is_high_surrogate a) eqn:Hh.
    + destruct (escape_char_high a Hh) as [-> Hb].
      apply scanstring_high_then_quote; assumption.
    + rewrite scanstring_escape_char by assumption. reflexivity.
  - inversion Hs as [|? ? Ha Hs']; subst.
    inversion Hs' as [|? ? Hb Hl]; subst.
    change (escape (a :: b :: l)) with (escape_char a ++ escape (b :: l)).
    rewrite <- app_assoc.
    destruct (is_high_surrogate a) eqn:Hh.
    + destruct (escape_char_high a Hh) as [-> Hab].
      change (escape (b :: l)) with (escape_char b ++ escape l).
      rewrite <- app_assoc.
      rewrite scanstring_high_then_char by assumption.
      cbn [join_pairs]. rewrite Hh. cbn [andb].
      destruct (is_low_surrogate b).
      * rewrite IHl by exact Hl. reflexivity.
      * rewrite app_assoc.
        change (escape_char b ++ escape l) with (escape (b :: l)).
        rewrite IHbl by exact Hs'. reflexivity.
    + rewrite scanstring_escape_char by assumption.
      rewrite IHbl by exact Hs'.
      cbn [join_pairs]. rewrite Hh. reflexivity.
Qed.

Lemma join_pairs_cons (a b : N) (l : pystr) :
  join_pairs (a :: b :: l)
  = if is_high_surrogate a && is_low_surrogate b
    then join_surrogates a b :: join_pairs l
    else a :: join_pairs (b :: l).
Proof. reflexivity. Qed.

Lemma has_surrogate_pair_cons (a b : N) (l : pystr) :
  has_surrogate_pair (a :: b :: l)
  = (is_high_surrogate a && is_low_surrogate b) || has_surrogate_pair (b :: l).
Proof. reflexivity. Qed.

(** A string without a surrogate pair comes back unchanged. *)
Lemma join_pairs_id (s : pystr) : has_surrogate_pair s = false -> join_pairs s = s.
Proof.
  induction s as [|a|a b l IHl IHbl] using list_pair_ind; try reflexivity.
  rewrite has_surrogate_pair_cons, join_pairs_cons.
  destruct (is_high_surrogate a && is_low_surrogate b); [discriminate|].
  cbn [orb]. intros H. rewrite IHbl by exact H. reflexivity.
Qed.

(** The escaped form is printable ASCII. *)
Lemma u_escape_printable (n : N) : Forall printable (u_escape n).
Proof.
  unfold u_escape, printable.
  repeat constructor; try (cbv; discriminate);
    pose proof (hexdigit_ascii _ (mod16_lt n));
    pose proof (hexdigit_ascii _ (mod16_lt (n / 16)));
    pose proof (hexdigit_ascii _ (mod16_lt (n / 256)));
    pose proof (hexdigit_ascii _ (mod16_lt (n / 4096))); lia.
Qed.

Lemma escape_printable (s : pystr) : Forall printable (escape s).
Proof.
  induction s as [|c s IH]; [constructor|].
  cbn [escape]. apply Forall_app. split; [|exact IH].
  unfold escape_char.
  repeat match goal with
         | |- context [if ?a =? ?b then _ else _] =>
             destruct (N.eqb_spec a b);
               [repeat constructor; cbv; discriminate|]
         end.
  destruct (N.leb_spec 32 c); cbn [andb].
  - destruct (N.leb_spec c 126).
    + repeat constructor; assumption.
    + destruct (c <? 65536); [apply u_escape_printable|].
      cbv zeta. apply Forall_app. split; apply u_escape_printable.
  - destruct (c <? 65536); [apply u_escape_printable|].
    cbv zeta. apply Forall_app. split; apply u_escape_printable.
Qed.
(** *** The fuel of the reader *)

Lemma push_inv (c : N) (r : result (pystr * pystr)) (s rest : pystr) :
  Json.push c r = Ok (s, rest) -> exists s', r = Ok (s', rest) /\ s = c :: s'.
Proof.
  destruct r as [[s' rest']|e]; simpl; [|discriminate].
  intros H; injection H as <- <-. eauto.
Qed.

Lemma scanstring_rest (s str rest : pystr) :
  scanstring s = Ok (str, rest) -> (List.length rest < List.length s)%nat.
Proof.
  revert str rest.
  induction s as [s IH] using (induction_ltof1 _ (@List.length N)).
  unfold ltof in IH. intros str rest H.
  destruct s as [|c r]; [discriminate|].
  cbn [scanstring] in H.
  repeat match type of H with
         | Raise _ = Ok _ => discriminate H
         | Ok _ = Ok _ => injection H as <- <-; cbn [List.length]; lia
         | Json.push _ (scanstring ?r') = Ok _ =>
             apply push_inv in H; destruct H as [? [H _]];
             apply IH in H; cbn [List.length] in *; lia
         | context [if ?b then _ else _] => destruct b
         | context [match ?x with _ => _ end] => destruct x
         end.
Qed.

Lemma push_raise (c : N) (r : result (pystr * pystr)) (e : exn) :
  Json.push c r = Raise e -> r = Raise e.
Proof. destruct r as [[s rest]|e']; simpl; congruence. Qed.

Lemma scanstring_has_fuel (s : pystr) : scanstring s <> Raise RecursionError.
Proof.
  induction s as [s IH] using (induction_ltof1 _ (@List.length N)).
  unfold ltof in IH. intros H.
  destruct s as [|c r]; [discriminate|].
  cbn [scanstring] in H.
  repeat match type of H with
         | Raise JSONDecodeError = Raise _ => discriminate H
         | Ok _ = Raise _ => discriminate H
         | Json.push _ (scanstring ?r') = Raise _ =>
             apply push_raise in H; revert H; apply IH;
             cbn [List.length]; lia
         | context [if ?b then _ else _] => destruct b
         | context [match ?x with _ => _ end] => destruct x
         end.
Qed.

Lemma skip_ws_length (s : pystr) :
  (List.length (skip_ws s) <= List.length s)%nat.
Proof.
  induction s as [|c r IH]; cbn [skip_ws]; [lia|].
  destruct (is_ws c); cbn [List.length]; lia.
Qed.

Lemma span_digits_rest (s ds rest : pystr) :
  span_digits s = (ds, rest) -> (List.length rest <= List.length s)%nat.
Proof.
  revert ds rest. induction s as [|c r IH]; intros ds rest H; cbn [span_digits] in H.
  - injection H as <- <-. lia.
  - destruct (is_digit c).
    + destruct (span_digits r) as [ds' rest'] eqn:E.
      injection H as <- <-. specialize (IH _ _ eq_refl). cbn [List.length]. lia.
    + injection H as <- <-. lia.
Qed.

Lemma take_sign_rest (s : pystr) :
  (List.length (snd (take_sign s)) <= List.length s)%nat.
Proof.
  destruct s as [|c r]; cbn [take_sign]; [cbn; lia|].
  destruct (c =? ord "-"); cbn [snd List.length]; lia.
Qed.

Lemma take_integer_rest (s ip rest : pystr) :
  take_integer s = Some (ip, rest) -> (List.length rest < List.length s)%nat.
Proof.
  destruct s as [|c r]; cbn [take_integer]; [discriminate|].
  destruct (c =? ord "0").
  - intros H; injection H as _ <-. cbn [List.length]; lia.
  - destruct (is_digit c); [|discriminate].
    destruct (span_digits r) as [ds rest'] eqn:E. apply span_digits_rest in E.
    intros H; injection H as _ <-. cbn [List.length]; lia.
Qed.

Lemma take_fraction_rest (s : pystr) :
  (List.length (snd (take_fraction s)) <= List.length s)%nat.
Proof.
  destruct s as [|dot [|d r]]; cbn [take_fraction snd]; try lia.
  destruct ((dot =? ord ".") && is_digit d); cbn [snd]; [|lia].
  destruct (span_digits r) as [ds rest'] eqn:E. apply span_digits_rest in E.
  cbn [snd List.length]; lia.
Qed.

Lemma take_exponent_rest (s : pystr) :
  (List.length (snd (take_exponent s)) <= List.length s)%nat.
Proof.
  destruct s as [|e r]; cbn [take_exponent snd]; [lia|].
  destruct ((e =? ord "e") || (e =? ord "E")); cbn [snd]; [|lia].
  destruct r as [|c r'']; [cbn; lia|].
  destruct ((c =? ord "-") || (c =? ord "+")).
  - destruct (span_digits r'') as [ds rest'] eqn:Ed.
    apply span_digits_rest in Ed.
    destruct ds; cbn [snd List.length]; lia.
  - destruct (span_digits (c :: r'')) as [ds rest'] eqn:Ed.
    apply span_digits_rest in Ed.
    destruct ds; cbn [snd List.length] in *; lia.
Qed.

Lemma match_number_rest (s text rest : pystr) :
  match_number s = Some (text, rest) ->
  (List.length rest < List.length s)%nat.
Proof.
  unfold match_number. intros H.
  pose proof (take_sign_rest s) as Hs.
  destruct (take_sign s) as [sign s1]. cbn [snd] in Hs.
  destruct (take_integer s1) as [[ip s2]|] eqn:Ei; [|discriminate].
  apply take_integer_rest in Ei.
  pose proof (take_fraction_rest s2) as Hf.
  destruct (take_fraction s2) as [frac s3]. cbn [snd] in Hf.
  pose proof (take_exponent_rest s3) as He.
  destruct (take_exponent s3) as [expo s4]. cbn [snd] in He.
  injection H as _ <-. lia.
Qed.

Lemma startswith_length (p s : pystr) :
  startswith p s = true -> (List.length p <= List.length s)%nat.
Proof.
  revert s. induction p as [|a p IH]; intros [|c s] H; cbn in *;
    try lia; try discriminate.
  apply andb_true_iff in H. destruct H as [_ H]. apply IH in H. lia.
Qed.

Lemma keyword_rest (word : string) (v v' : json) (s rest : pystr) :
  lit word <> [] ->
  keyword word v s = Some (v', rest) ->
  (List.length rest < List.length s)%nat.
Proof.
  unfold keyword. intros Hne H.
  destruct (startswith (lit word) s) eqn:E; [|discriminate].
  injection H as _ <-. apply startswith_length in E.
  rewrite length_skipn. destruct (lit word); [contradiction|].
  cbn [List.length] in *. lia.
Qed.

(** The reader makes progress: with fuel for twice the length of its
    input it does not run out, and what it leaves unread is shorter
    than what it was given. *)
Lemma reader_progresses (fuel : nat) :
  (forall s, (2 * List.length s < fuel)%nat ->
     scan_once fuel s <> Raise RecursionError
     /\ forall v rest, scan_once fuel s = Ok (v, rest) ->
          (List.length rest < List.length s)%nat)
  /\ (forall s acc, (2 * List.length s < fuel)%nat ->
     parse_members fuel s acc <> Raise RecursionError
     /\ forall v rest, parse_members fuel s acc = Ok (v, rest) ->
          (List.length rest < List.length s)%nat)
  /\ (forall s acc, (2 * List.length s + 1 < fuel)%nat ->
     parse_items fuel s acc <> Raise RecursionError
     /\ forall v rest, parse_items fuel s acc = Ok (v, rest) ->
          (List.length rest < List.length s)%nat).
Proof.
  induction fuel as [|fuel [IHs [IHm IHi]]].
  - repeat split; intros; lia.
  - split; [|split].
    + intros s Hlen. destruct s as [|c r]; [split; discriminate|].
      cbn [scan_once]. cbn [List.length] in Hlen.
      destruct (c =? DQUOTE).
      { pose proof (scanstring_has_fuel r) as Hf.
        destruct (scanstring r) as [[str rest]|e] eqn:E; cbn [rbind].
        - split; [discriminate|]. intros v rest' H. injection H as _ <-.
          apply scanstring_rest in E. cbn [List.length]. lia.
        - split; [congruence | discriminate]. }
      destruct (c =? ord "{").
      { pose proof (skip_ws_length r) as Hws.
        destruct (skip_ws r) as [|c1 r1]; [split; discriminate|].
        cbn [List.length] in Hws.
        destruct (c1 =? ord "}").
        - split; [discriminate|]. intros v rest H. injection H as _ <-.
          cbn [List.length]. lia.
        - destruct (IHm (c1 :: r1) []) as [Hf Hr]; [cbn [List.length]; lia|].
          split; [exact Hf|]. intros v rest H. apply Hr in H.
          cbn [List.length] in *. lia. }
      destruct (c =? ord "[").
      { pose proof (skip_ws_length r) as Hws.
        destruct (skip_ws r) as [|c1 r1]; [split; discriminate|].
        cbn [List.length] in Hws.
        destruct (c1 =? ord "]").
        - split; [discriminate|]. intros v rest H. injection H as _ <-.
          cbn [List.length]. lia.
        - destruct (IHi (c1 :: r1) []) as [Hf Hr]; [cbn [List.length]; lia|].
          split; [exact Hf|]. intros v rest H. apply Hr in H.
          cbn [List.length] in *. lia. }
      match goal with
      | |- context [match ?lit with Some found => _ | None => _ end] =>
          assert (Hlit : forall v rest, lit = Some (v, rest) ->
                    (List.length rest < List.length (c :: r))%nat);
          [|destruct lit as [[v0 rest0]|]]
      end.
      { intros v rest.
        repeat match goal with
               | |- context [if ?b then _ else _] => destruct b
               end; intros H; try discriminate H;
          (eapply keyword_rest; [|exact H]); discriminate. }
      { split; [discriminate|]. intros v rest H. injection H as <- <-.
        exact (Hlit _ _ eq_refl). }
      destruct (match_number (c :: r)) as [[text rest0]|] eqn:En.
      * destruct (Json.exceeds_int_max_str_digits text);
          [split; discriminate|].
        split; [discriminate|]. intros v rest H. injection H as _ <-.
        apply match_number_rest in En. exact En.
      * split; discriminate.
    + intros s acc Hlen. destruct s as [|q r]; [split; discriminate|].
      cbn [parse_members]. cbn [List.length] in Hlen.
      destruct (q =? DQUOTE); [|split; discriminate].
      pose proof (scanstring_has_fuel r) as Hsf.
      destruct (scanstring r) as [[key r1]|e] eqn:E; cbn [rbind];
        [|split; [congruence | discriminate]].
      apply scanstring_rest in E.
      pose proof (skip_ws_length r1) as Hw1.
      destruct (skip_ws r1) as [|colon r2]; [split; discriminate|].
      cbn [List.length] in Hw1.
      destruct (colon =? ord ":"); [|split; discriminate].
      pose proof (skip_ws_length r2) as Hw2.
      destruct (IHs (skip_ws r2)) as [Hf Hr]; [lia|].
      destruct (scan_once fuel (skip_ws r2)) as [[v r3]|e] eqn:Ev; cbn [rbind];
        [|split; [congruence | discriminate]].
      specialize (Hr _ _ eq_refl).
      pose proof (skip_ws_length r3) as Hw3.
      destruct (skip_ws r3) as [|c r4]; [split; discriminate|].
      cbn [List.length] in Hw3.
      destruct (c =? ord "}").
      { split; [discriminate|]. intros v' rest H. injection H as _ <-.
        cbn [List.length]. lia. }
      destruct (c =? ord ","); [|split; discriminate].
      pose proof (skip_ws_length r4) as Hw4.
      destruct (IHm (skip_ws r4) (dict_set key v acc)) as [Hf' Hr']; [lia|].
      split; [exact Hf'|]. intros v' rest H. apply Hr' in H.
      cbn [List.length] in *. lia.
    + intros s acc Hlen.
      cbn [parse_items].
      destruct (IHs s) as [Hf Hr]; [lia|].
      destruct (scan_once fuel s) as [[v r1]|e] eqn:Ev; cbn [rbind];
        [|split; [congruence | discriminate]].
      specialize (Hr _ _ eq_refl).
      pose proof (skip_ws_length r1) as Hw1.
      destruct (skip_ws r1) as [|c r2]; [split; discriminate|].
      cbn [List.length] in Hw1.
      destruct (c =? ord "]").
      { split; [discriminate|]. intros v' rest H. injection H as _ <-. lia. }
      destruct (c =? ord ","); [|split; discriminate].
      pose proof (skip_ws_length r2) as Hw2.
      destruct (IHi (skip_ws r2) (acc ++ [v])) as [Hf' Hr']; [lia|].
      split; [exact Hf'|]. intros v' rest H. apply Hr' in H. lia.
Qed.

(** [loads] never fails for lack of fuel. *)
Lemma loads_has_fuel (s : pystr) : loads s <> Raise RecursionError.
Proof.
  unfold loads. destruct (startswith [65279] s); [discriminate|].
  destruct (reader_progresses (S (2 * List.length s))) as [Hs _].
  destruct (Hs (skip_ws s)) as [Hf _].
  { pose proof (skip_ws_length s). lia. }
  destruct (scan_once (S (2 * List.length s)) (skip_ws s)) as [[v rest]|e];
    cbn [rbind]; [|congruence].
  destruct (skip_ws rest); discriminate.
Qed.

(** *** Reading back an object of strings *)

Lemma scan_once_string (fuel : nat) (v rest : pystr) :
  fuel <> O -> is_str v ->
  scan_once fuel (DQUOTE :: escape v ++ DQUOTE :: rest)
  = Ok (JStr (join_pairs v), rest).
Proof.
  intros Hf Hv. destruct fuel as [|fuel]; [contradiction|].
  cbn [scan_once]. change (DQUOTE =? DQUOTE) with true. cbv iota.
  rewrite scanstring_escape by exact Hv. reflexivity.
Qed.

Lemma parse_member_last (fuel : nat) (k v rest : pystr) (acc : dict) :
  fuel <> O -> is_str k -> is_str v ->
  parse_members (S fuel)
    (DQUOTE :: escape k ++ DQUOTE :: ord ":" :: 32 :: DQUOTE
       :: escape v ++ DQUOTE :: ord "}" :: rest) acc
  = Ok (JObj (dict_set (join_pairs k) (JStr (join_pairs v)) acc), rest).
Proof.
  intros Hf Hk Hv.
  cbn [parse_members].
  change (DQUOTE =? DQUOTE) with true. cbv iota.
  rewrite scanstring_escape by exact Hk. cbn [rbind].
  change (skip_ws (ord ":" :: 32 :: DQUOTE :: escape v ++ DQUOTE :: ord "}" :: rest))
    with (ord ":" :: 32 :: DQUOTE :: escape v ++ DQUOTE :: ord "}" :: rest).
  change (ord ":" =? ord ":") with true. cbv iota.
  change (skip_ws (32 :: DQUOTE :: escape v ++ DQUOTE :: ord "}" :: rest))
    with (DQUOTE :: escape v ++ DQUOTE :: ord "}" :: rest).
  rewrite scan_once_string by assumption. cbn [rbind].
  change (skip_ws (ord "}" :: rest)) with (ord "}" :: rest).
  reflexivity.
Qed.

Lemma parse_member_more (fuel : nat) (k v rest : pystr) (acc : dict) :
  fuel <> O -> is_str k -> is_str v ->
  parse_members (S fuel)
    (DQUOTE :: escape k ++ DQUOTE :: ord ":" :: 32 :: DQUOTE
       :: escape v ++ DQUOTE :: ord "," :: 32 :: DQUOTE :: rest) acc
  = parse_members fuel (DQUOTE :: rest)
      (dict_set (join_pairs k) (JStr (join_pairs v)) acc).
Proof.
  intros Hf Hk Hv.
  cbn [parse_members].
  change (DQUOTE =? DQUOTE) with true. cbv iota.
  rewrite scanstring_escape by exact Hk. cbn [rbind].
  change (skip_ws (ord ":" :: 32 :: DQUOTE :: escape v ++ DQUOTE
                     :: ord "," :: 32 :: DQUOTE :: rest))
    with (ord ":" :: 32 :: DQUOTE :: escape v ++ DQUOTE
            :: ord "," :: 32 :: DQUOTE :: rest).
  change (ord ":" =? ord ":") with true. cbv iota.
  change (skip_ws (32 :: DQUOTE :: escape v ++ DQUOTE
                     :: ord "," :: 32 :: DQUOTE :: rest))
    with (DQUOTE :: escape v ++ DQUOTE :: ord "," :: 32 :: DQUOTE :: rest).
  rewrite scan_once_string by assumption. cbn [rbind].
  change (skip_ws (ord "," :: 32 :: DQUOTE :: rest))
    with (ord "," :: 32 :: DQUOTE :: rest).
  reflexivity.
Qed.
(** The text [dumps] writes for a bundle. *)
Lemma dumps_bundle (t a r e : pystr) :
  dumps (JObj (bundle t a r e))
  = ord "{" :: DQUOTE :: escape (lit "token-type") ++ DQUOTE
      :: ord ":" :: 32 :: DQUOTE :: escape t ++ DQUOTE
      :: ord "," :: 32 :: DQUOTE :: escape (lit "access-token") ++ DQUOTE
      :: ord ":" :: 32 :: DQUOTE :: escape a ++ DQUOTE
      :: ord "," :: 32 :: DQUOTE :: escape (lit "refresh-token") ++ DQUOTE
      :: ord ":" :: 32 :: DQUOTE :: escape r ++ DQUOTE
      :: ord "," :: 32 :: DQUOTE :: escape (lit "expiry-time") ++ DQUOTE
      :: ord ":" :: 32 :: DQUOTE :: escape e ++ DQUOTE
      :: [ord "}"].
Proof.
  cbv beta iota delta [bundle dumps encode_basestring_ascii].
  repeat (rewrite <- ?app_assoc, <- ?app_comm_cons; cbn [app]).
  reflexivity.
Qed.

Lemma is_str_lit (s : string) : is_str (lit s).
Proof.
  unfold is_str, lit. apply Forall_forall. intros c Hc.
  apply in_map_iff in Hc. destruct Hc as [a [<- _]].
  unfold ord. pose proof (N_ascii_bounded a). lia.
Qed.

(** [loads] reads the text of a bundle back as an object with the same
    four keys, in order, and the strings with their surrogate pairs
    joined. *)
Lemma loads_dumps_bundle (t a r e : pystr) :
  is_str t -> is_str a -> is_str r -> is_str e ->
  loads (dumps (JObj (bundle t a r e)))
  = Ok (JObj (bundle (join_pairs t) (join_pairs a) (join_pairs r) (join_pairs e))).
Proof.
  intros Ht Ha Hr He. unfold loads. rewrite dumps_bundle.
  cbn [startswith]. change (65279 =? ord "{") with false. cbn [andb].
  match goal with
  | |- context [S (2 * List.length ?l)] =>
      remember (2 * List.length l)%nat as n eqn:Hn
  end.
  assert (Hlen : (5 <= n)%nat).
  { subst n. repeat (rewrite length_app || cbn [List.length]). lia. }
  destruct n as [|[|[|[|[|fuel]]]]]; try lia. clear Hn Hlen.
  change (skip_ws (ord "{" :: ?l)) with (ord "{" :: l).
  cbn [scan_once].
  change (ord "{" =? DQUOTE) with false.
  change (ord "{" =? ord "{") with true. cbv iota.
  change (skip_ws (DQUOTE :: ?l)) with (DQUOTE :: l).
  change (DQUOTE =? ord "}") with false. cbv iota.
  rewrite parse_member_more
    by (try discriminate; try assumption; apply is_str_lit).
  rewrite parse_member_more
    by (try discriminate; try assumption; apply is_str_lit).
  rewrite parse_member_more
    by (try discriminate; try assumption; apply is_str_lit).
  rewrite parse_member_last
    by (try discriminate; try assumption; apply is_str_lit).
  reflexivity.
Qed.

(** ** The UTF-16 codec on ASCII text *)

Lemma to_N_byte_of (n : N) : n < 256 -> Byte.to_N (Utf16.byte_of n) = n.
Proof.
  intros H. unfold Utf16.byte_of. rewrite N.mod_small by exact H.
  destruct (Byte.of_N n) as [b|] eqn:E.
  - apply Byte.to_of_N; exact E.
  - apply Byte.of_N_None_iff in E. lia.
Qed.

Lemma printable_not_surrogate (c : N) :
  printable c -> is_high_surrogate c = false /\ is_low_surrogate c = false.
Proof.
  unfold printable, is_high_surrogate, is_low_surrogate. intros H.
  rewrite !andb_false_iff, !N.leb_gt. lia.
Qed.

(** Printable ASCII text is encoded as one byte below 128 and one zero
    byte per character, which [bytes] accepts and [decode] reads back. *)
Lemma utf16_printable (s : pystr) :
  Forall printable s ->
  exists blob,
    Utf16.encode s = Ok blob
    /\ bytes_of_c_byte blob = Ok blob
    /\ Utf16.decode blob = Ok s
    /\ List.length blob = (2 * List.length s)%nat.
Proof.
  induction 1 as [|c s Hc Hs [blob [He [Hb [Hd Hl]]]]].
  - exists []. repeat split; reflexivity.
  - destruct (printable_not_surrogate c Hc) as [Hh Hlow].
    assert (Hc' : c < 256) by (unfold printable in Hc; lia).
    exists (Utf16.code_unit c ++ blob).
    assert (Hu : Utf16.unit_of (Utf16.byte_of c) (Utf16.byte_of (c / 256)) = c).
    { unfold Utf16.unit_of. rewrite N.div_small by exact Hc'.
      rewrite to_N_byte_of by exact Hc'. change (Byte.to_N (Utf16.byte_of 0)) with 0.
      lia. }
    repeat split.
    + cbn [Utf16.encode]. rewrite Hh, Hlow, He. cbn [orb rbind].
      destruct (N.ltb_spec c 65536); [reflexivity | lia].
    + unfold bytes_of_c_byte in *. unfold Utf16.code_unit. cbn [app existsb].
      rewrite to_N_byte_of by exact Hc'.
      rewrite N.div_small by exact Hc'.
      change (Byte.to_N (Utf16.byte_of 0)) with 0.
      destruct (N.leb_spec 128 c); [unfold printable in Hc; lia|].
      cbn [orb]. change (128 <=? 0) with false. cbn [orb].
      destruct (existsb _ blob); [discriminate Hb | reflexivity].
    + unfold Utf16.code_unit. cbn [app Utf16.decode].
      rewrite Hu, Hh, Hlow, Hd. reflexivity.
    + unfold Utf16.code_unit. cbn [app List.length]. lia.
Qed.

Lemma dumps_bundle_printable (t a r e : pystr) :
  Forall printable (dumps (JObj (bundle t a r e))).
Proof.
  rewrite dumps_bundle.
  repeat first [ apply Forall_cons; [unfold printable; cbv; split; discriminate|]
               | apply Forall_app; split; [apply escape_printable|]
               | apply Forall_nil ].
Qed.

(** ** Saving and loading *)

Lemma save_linux (self : SecretStore) (w : World) :
  IS_WINDOWS w = false ->
  failing (keyring w) = [] ->
  save (self, w)
  = (Ok tt,
     (with_token_dictionary (JObj (session_bundle (session self))) self,
      with_keyring
        (set_password (Some (dumps (JObj (session_bundle (session self)))))
                      (keyring w)) w)).
Proof.
  intros Hw Hf. destruct self as [ver ses dic ky].
  destruct w as [win v [f c p] lg]. simpl in Hw, Hf; subst win f.
  reflexivity.
Qed.

Lemma save_windows (self : SecretStore) (w : World) (blob : list byte) :
  IS_WINDOWS w = true ->
  Utf16.encode (dumps (JObj (session_bundle (session self)))) = Ok blob ->
  save (self, w)
  = (Ok tt,
     (with_token_dictionary (JObj (session_bundle (session self))) self,
      if write_succeeds (vault w)
      then with_vault {| credential := Some blob; write_succeeds := true |} w
      else with_log
             (log w ++ [Log ERROR
                "Failed to save credentials to Windows Credential Manager"]) w)).
Proof.
  intros Hw He. destruct self as [ver ses dic ky].
  destruct w as [win [cred ws] k lg]. simpl in Hw; subst win.
  unfold session_bundle, bundle in He. cbn [session] in He.
  cbv beta iota zeta delta
    [save _windows_write_credential bind get_state lift ret modify logger
     assign_token_dictionary with_token_dictionary token_dictionary session
     IS_WINDOWS CredWriteW vault write_succeeds with_vault].
  rewrite He. destruct ws; reflexivity.
Qed.

(** The constructor on a backend that holds the text of an object. *)
Lemma init_windows_loads (session : Session) (w : World)
    (blob : list byte) (text : pystr) (v : json) :
  IS_WINDOWS w = true ->
  credential (vault w) = Some blob ->
  bytes_of_c_byte blob = Ok blob ->
  Utf16.decode blob = Ok text ->
  text <> [] ->
  loads text = Ok v ->
  exists w',
    __init__ session w
    = (Ok {| version := lit "0.0"; session := session;
             token_dictionary := v; key := lit "high-tide-login" |}, w').
Proof.
  intros Hw Hc Hb Hd Ht Hl.
  destruct w as [win [cred ws] k lg]. simpl in Hw, Hc; subst win cred.
  assert (Hlen : (0 <? N.of_nat (List.length blob)) = true).
  { destruct blob as [|b blob]; [|reflexivity].
    cbn in Hd. injection Hd as <-. contradiction. }
  assert (Htruthy : truthy text = true) by (destruct text; [contradiction | reflexivity]).
  unfold __init__.
  cbv beta iota zeta delta
    [_init_windows _windows_read_credential try_except try_finally bind
     get_state ret lift modify logger assign_token_dictionary CredReadW
     IS_WINDOWS vault credential log with_log with_token_dictionary
     token_dictionary].
  rewrite Hlen, Hb, Hd, Htruthy, Hl. eexists; reflexivity.
Qed.

Lemma init_linux_loads (session : Session) (w : World) (text : pystr) (v : json) :
  IS_WINDOWS w = false ->
  failing (keyring w) = [] ->
  password (keyring w) = Some text ->
  text <> [] ->
  loads text = Ok v ->
  exists w',
    __init__ session w
    = (Ok {| version := lit "0.0"; session := session;
             token_dictionary := v; key := lit "high-tide-login" |}, w').
Proof.
  intros Hw Hf Hp Ht Hl.
  destruct w as [win vlt [f c p] lg]. simpl in Hw, Hf, Hp; subst win f p.
  assert (Htruthy : truthy text = true) by (destruct text; [contradiction | reflexivity]).
  unfold __init__.
  cbv beta iota zeta delta
    [_init_linux libsecret fails failing existsb try_except bind
     get_state ret lift modify logger assign_token_dictionary
     IS_WINDOWS keyring default_collection password log with_log
     with_keyring with_token_dictionary token_dictionary set_unlocked].
  destruct c as [[|]|]; rewrite Htruthy, Hl; eexists; reflexivity.
Qed.

Lemma dumps_bundle_nonempty (t a r e : pystr) : dumps (JObj (bundle t a r e)) <> [].
Proof. rewrite dumps_bundle. discriminate. Qed.

(** A store that holds a bundle has credentials and hands them out. *)
Lemma bundle_has_credentials (self : SecretStore) (t a r e : pystr) :
  has_credentials (with_token_dictionary (JObj (bundle t a r e)) self) = Ok true
  /\ get (with_token_dictionary (JObj (bundle t a r e)) self)
     = Ok (JStr t, JStr a, JStr r).
Proof. split; reflexivity. Qed.

(** Saving on a backend that accepts the write, then building a fresh
    store on what the backend holds: the fresh store holds the saved
    strings with their surrogate pairs joined. *)
Lemma save_then_load (self : SecretStore) (w : World) (session' : Session) :
  session_strings is_str (session self) ->
  backend_accepts w ->
  let ses := session self in
  let saved := save (self, w) in
  fst saved = Ok tt
  /\ token_dictionary (fst (snd saved)) = JObj (session_bundle ses)
  /\ exists fresh w',
       __init__ session' (snd (snd saved)) = (Ok fresh, w')
       /\ token_dictionary fresh
          = JObj (bundle (join_pairs (token_type ses))
                         (join_pairs (access_token ses))
                         (join_pairs (refresh_token ses))
                         (join_pairs (str (expiry_time ses)))).
Proof.
  intros [Ht [Ha [Hr He]]] Hacc ses saved. unfold saved, ses.
  pose proof (loads_dumps_bundle _ _ _ _ Ht Ha Hr He) as Hload.
  fold (session_bundle (session self)) in Hload.
  pose proof (dumps_bundle_nonempty
                (token_type (session self)) (access_token (session self))
                (refresh_token (session self))
                (str (expiry_time (session self)))) as Hne.
  fold (session_bundle (session self)) in Hne.
  unfold backend_accepts in Hacc.
  destruct (IS_WINDOWS w) eqn:Hw.
  - destruct (utf16_printable _
                (dumps_bundle_printable
                   (token_type (session self)) (access_token (session self))
                   (refresh_token (session self))
                   (str (expiry_time (session self)))))
      as [blob [Henc [Hb [Hd _]]]].
    fold (session_bundle (session self)) in Henc, Hd.
    rewrite (save_windows self w blob Hw Henc), Hacc.
    split; [reflexivity|]. split; [reflexivity|].
    cbn [fst snd].
    destruct (init_windows_loads session'
                (with_vault {| credential := Some blob; write_succeeds := true |} w)
                blob _ _ Hw eq_refl Hb Hd Hne Hload) as [w' Hinit].
    do 2 eexists. split; [exact Hinit | reflexivity].
  - rewrite (save_linux self w Hw Hacc).
    split; [reflexivity|]. split; [reflexivity|].
    cbn [fst snd].
    destruct (init_linux_loads session'
                (with_keyring
                   (set_password
                      (Some (dumps (JObj (session_bundle (session self)))))
                      (keyring w)) w)
                _ _ Hw Hacc eq_refl Hne Hload) as [w' Hinit].
    do 2 eexists. split; [exact Hinit | reflexivity].
Qed.

(** C1, as stated, fails in two ways.  A vault that refuses the write:
    [save] logs the failure and returns, and a fresh store finds
    nothing.  A token with a high surrogate followed by a low one:
    the backend takes the write, and the fresh store holds the two
    code points joined into one, so its bundle is not the saved one. *)
Lemma C1_counterexample :
  (let saved :=
     save (Samples.empty_store, Samples.windows_world Samples.refusing_vault) in
   let fresh := __init__ Samples.bearer_session (snd (snd saved)) in
   fst saved = Ok tt
   /\ rbind (fst fresh) has_credentials = Ok false)
  /\
  (let self :=
     {| version := lit "0.0"; session := Samples.surrogate_session;
        token_dictionary := JObj []; key := lit "high-tide-login" |} in
   let saved := save (self, Samples.linux_world Samples.empty_keyring) in
   let fresh := __init__ Samples.surrogate_session (snd (snd saved)) in
   fst saved = Ok tt
   /\ get (fst (snd saved))
      = Ok (JStr (lit "Bearer"), JStr [55357; 56832], JStr (lit "R"))
   /\ rbind (fst fresh) get
      = Ok (JStr (lit "Bearer"), JStr [128512], JStr (lit "R"))).
Proof. split; vm_compute; auto. Qed.

(** C1, amended.  For a session whose four fields are strings without
    a high surrogate directly followed by a low one, over a backend
    that accepts the write: [save] returns, and a fresh store built on
    the backend it leaves holds the bundle that was saved, the same
    four keys and values with the expiry time as a string; so
    [has_credentials] is true and [get] returns the saved token type,
    access token and refresh token. *)
Theorem C1_save_then_fresh_store_round_trip :
  forall (self : SecretStore) (w : World) (session' : Session),
    session_strings plain_text (session self) ->
    backend_accepts w ->
    let ses := session self in
    let saved := save (self, w) in
    fst saved = Ok tt
    /\ token_dictionary (fst (snd saved)) = JObj (session_bundle ses)
    /\ exists fresh w',
         __init__ session' (snd (snd saved)) = (Ok fresh, w')
         /\ token_dictionary fresh = token_dictionary (fst (snd saved))
         /\ has_credentials fresh = Ok true
         /\ get fresh
            = Ok (JStr (token_type ses), JStr (access_token ses),
                  JStr (refresh_token ses)).
Proof.
  intros self w session' [[Ht Ht'] [[Ha Ha'] [[Hr Hr'] [He He']]]] Hacc ses saved.
  destruct (save_then_load self w session'
              (conj Ht (conj Ha (conj Hr He))) Hacc)
    as [Hok [Hdict [fresh [w' [Hinit Hfresh]]]]].
  fold ses in Hdict, Hfresh. fold saved in Hok, Hdict, Hinit.
  rewrite !join_pairs_id in Hfresh by assumption.
  split; [exact Hok|]. split; [exact Hdict|].
  exists fresh, w'. split; [exact Hinit|].
  split; [rewrite Hdict; exact Hfresh|].
  destruct fresh as [ver ses' dic ky]. cbn [token_dictionary] in Hfresh.
  subst dic. split; reflexivity.
Qed.

Lemma C1_witness :
  let self := Samples.empty_store in
  let w := Samples.windows_world Samples.empty_vault in
  session_strings plain_text (session self)
  /\ backend_accepts w
  /\ exists fresh w',
       __init__ Samples.bearer_session (snd (snd (save (self, w)))) = (Ok fresh, w')
       /\ token_dictionary fresh = JObj Samples.bearer_bundle
       /\ has_credentials fresh = Ok true.
Proof.
  intros self w.
  assert (Hs : session_strings plain_text (session self)).
  { repeat split; try reflexivity; apply is_str_lit. }
  assert (Hb : backend_accepts w) by reflexivity.
  split; [exact Hs|]. split; [exact Hb|].
  destruct (C1_save_then_fresh_store_round_trip
              self w Samples.bearer_session Hs Hb)
    as [_ [Hd [fresh [w' [Hinit [Hf [Hc _]]]]]]].
  exists fresh, w'. split; [exact Hinit|].
  split; [rewrite Hf, Hd; reflexivity | exact Hc].
Defined.

(** C6.  When the backend accepts the write, what [save] persists is
    the JSON text of the bundle: printable ASCII that [loads] reads as
    an object with exactly the keys of the token type, the access
    token, the refresh token and the expiry time, each with a string
    value.  The secret service stores that text; the vault stores its
    UTF-16LE encoding, which decodes to the same text. *)
Theorem C6_persisted_payload :
  forall (self : SecretStore) (w : World),
    session_strings is_str (session self) ->
    backend_accepts w ->
    let ses := session self in
    let saved := save (self, w) in
    let payload := dumps (JObj (session_bundle ses)) in
    token_dictionary (fst (snd saved)) = JObj (session_bundle ses)
    /\ Forall printable payload
    /\ loads payload
       = Ok (JObj (bundle (join_pairs (token_type ses))
                          (join_pairs (access_token ses))
                          (join_pairs (refresh_token ses))
                          (join_pairs (str (expiry_time ses)))))
    /\ (if IS_WINDOWS w
        then exists blob,
               Utf16.encode payload = Ok blob
               /\ credential (vault (snd (snd saved))) = Some blob
               /\ Utf16.decode blob = Ok payload
        else password (keyring (snd (snd saved))) = Some payload).
Proof.
  intros self w [Ht [Ha [Hr He]]] Hacc ses saved payload.
  unfold payload, saved, ses.
  assert (Hp : Forall printable (dumps (JObj (session_bundle (session self)))))
    by apply dumps_bundle_printable.
  assert (Hdict : token_dictionary (fst (snd (save (self, w))))
                  = JObj (session_bundle (session self))).
  { apply (save_then_load self w (session self)
             (conj Ht (conj Ha (conj Hr He))) Hacc). }
  split; [exact Hdict|]. split; [exact Hp|].
  split.
  { apply loads_dumps_bundle; assumption. }
  unfold backend_accepts in Hacc.
  destruct (IS_WINDOWS w) eqn:Hw.
  - destruct (utf16_printable _ Hp) as [blob [Henc [_ [Hd _]]]].
    exists blob. split; [exact Henc|]. split; [|exact Hd].
    rewrite (save_windows self w blob Hw Henc), Hacc. reflexivity.
  - rewrite (save_linux self w Hw Hacc). reflexivity.
Qed.

Lemma C6_witness :
  let self := Samples.empty_store in
  let w := Samples.linux_world Samples.empty_keyring in
  session_strings is_str (session self)
  /\ backend_accepts w
  /\ password (keyring (snd (snd (save (self, w)))))
     = Some (dumps (JObj Samples.bearer_bundle)).
Proof.
  intros self w.
  assert (Hs : session_strings is_str (session self)).
  { repeat split; apply is_str_lit. }
  assert (Hb : backend_accepts w) by reflexivity.
  split; [exact Hs|]. split; [exact Hb|].
  exact (proj2 (proj2 (proj2 (C6_persisted_payload self w Hs Hb)))).
Defined.

(** ** Loading the store *)

(** On Windows the constructor catches whatever the read of the
    credential, its decoding and the JSON parser raise. *)
Lemma init_windows_never_raises (session : Session) (w : World) :
  IS_WINDOWS w = true ->
  exists store w',
    __init__ session w = (Ok store, w')
    /\ vault w' = vault w
    /\ (token_dictionary store = JObj []
        \/ exists blob text,
             credential (vault w) = Some blob
             /\ Utf16.decode blob = Ok text
             /\ loads text = Ok (token_dictionary store)).
Proof.
  intros Hw. destruct w as [win [cred ws] k lg]. simpl in Hw; subst win.
  unfold __init__.
  cbv beta iota zeta delta
    [_init_windows _windows_read_credential try_except try_finally bind
     get_state ret lift modify logger assign_token_dictionary CredReadW
     IS_WINDOWS vault credential log with_log with_token_dictionary
     token_dictionary].
  destruct cred as [blob|].
  - destruct (0 <? N.of_nat (List.length blob)).
    + unfold bytes_of_c_byte.
      destruct (existsb _ blob).
      * do 2 eexists. split; [reflexivity|]. split; [reflexivity|].
        left; reflexivity.
      * destruct (Utf16.decode blob) as [text|e] eqn:Hdec.
        -- destruct (truthy text).
           ++ destruct (loads text) as [v|e] eqn:Hload.
              ** do 2 eexists. split; [reflexivity|]. split; [reflexivity|].
                 right. exists blob, text. auto.
              ** do 2 eexists. split; [reflexivity|]. split; [reflexivity|].
                 left; reflexivity.
           ++ do 2 eexists. split; [reflexivity|]. split; [reflexivity|].
              left; reflexivity.
        -- do 2 eexists. split; [reflexivity|]. split; [reflexivity|].
           left; reflexivity.
    + do 2 eexists. split; [reflexivity|]. split; [reflexivity|].
      left; reflexivity.
  - do 2 eexists. split; [reflexivity|]. split; [reflexivity|].
    left; reflexivity.
Qed.

(** On Linux a payload that does not decode is caught in the same way,
    as long as the calls into the secret service themselves succeed. *)
Lemma init_linux_catches_decode_failure (session : Session) (w : World) :
  IS_WINDOWS w = false ->
  failing (keyring w) = [] ->
  exists store w',
    __init__ session w = (Ok store, w')
    /\ password (keyring w') = password (keyring w)
    /\ (token_dictionary store = JObj []
        \/ exists text,
             password (keyring w) = Some text
             /\ loads text = Ok (token_dictionary store)).
Proof.
  intros Hw Hf. destruct w as [win v [f c p] lg].
  simpl in Hw, Hf; subst win f.
  unfold __init__.
  cbv beta iota zeta delta
    [_init_linux libsecret fails failing existsb try_except bind
     get_state ret lift modify logger assign_token_dictionary
     IS_WINDOWS keyring default_collection password log with_log
     with_keyring with_token_dictionary token_dictionary set_unlocked].
  destruct c as [[|]|]; destruct p as [text|];
    try (destruct (truthy text); [destruct (loads text) as [v0|e] eqn:Hload|]);
    do 2 eexists; (split; [reflexivity|]); (split; [reflexivity|]);
    first [ solve [left; reflexivity]
          | right; eexists; split; [reflexivity | eassumption] ].
Qed.

(** On Linux the constructor raises exactly when one of the calls in
    front of the [try] fails. *)
Lemma init_linux_raises_iff (session : Session) (w : World) :
  IS_WINDOWS w = false ->
  (exists e, fst (__init__ session w) = Raise e)
  <-> fails ServiceGet (keyring w) = true
      \/ fails CollectionForAlias (keyring w) = true
      \/ (default_collection (keyring w) = Some true
          /\ fails ServiceUnlock (keyring w) = true)
      \/ fails PasswordLookup (keyring w) = true.
Proof.
  intros Hw. destruct w as [win v [f c p] lg]. simpl in Hw; subst win.
  unfold __init__.
  cbv beta iota zeta delta
    [_init_linux libsecret fails try_except bind
     get_state ret lift modify logger assign_token_dictionary
     IS_WINDOWS keyring failing default_collection password log vault
     with_log with_keyring with_token_dictionary token_dictionary
     set_unlocked].
  destruct (existsb (libsecret_call_eqb ServiceGet) f) eqn:E1.
  { split; [auto | intros _; eexists; reflexivity]. }
  destruct (existsb (libsecret_call_eqb CollectionForAlias) f) eqn:E2.
  { split; [auto | intros _; eexists; reflexivity]. }
  destruct c as [[|]|].
  - destruct (existsb (libsecret_call_eqb ServiceUnlock) f) eqn:E3.
    { split; [auto | intros _; eexists; reflexivity]. }
    destruct (existsb (libsecret_call_eqb PasswordLookup) f) eqn:E4.
    { split; [auto | intros _; eexists; reflexivity]. }
    split.
    + intros [e He]. exfalso.
      destruct p as [text|]; [destruct (truthy text); [destruct (loads text)|]|];
        discriminate He.
    + intros [H|[H|[[_ H]|H]]]; discriminate H.
  - destruct (existsb (libsecret_call_eqb PasswordLookup) f) eqn:E4.
    { split; [auto | intros _; eexists; reflexivity]. }
    split.
    + intros [e He]. exfalso.
      destruct p as [text|]; [destruct (truthy text); [destruct (loads text)|]|];
        discriminate He.
    + intros [H|[H|[[H _]|H]]]; discriminate H.
  - destruct (existsb (libsecret_call_eqb PasswordLookup) f) eqn:E4.
    { split; [auto | intros _; eexists; reflexivity]. }
    split.
    + intros [e He]. exfalso.
      destruct p as [text|]; [destruct (truthy text); [destruct (loads text)|]|];
        discriminate He.
    + intros [H|[H|[[H _]|H]]]; discriminate H.
Qed.

(** C2.  On Linux the lookup of the password is made before the [try]
    of [_init_linux]: when the secret service fails that lookup, the
    [GLib.Error] leaves the constructor, nothing about it is logged and
    no store is built. *)
Theorem C2_linux_lookup_failure_leaves_constructor :
  forall session : Session,
    __init__ session (Samples.linux_world Samples.broken_keyring)
    = (Raise GLibError,
       {| IS_WINDOWS := false;
          vault := Samples.empty_vault;
          keyring := Samples.broken_keyring;
          log := [Log INFO "initializing secret store"] |}).
Proof. intros session. reflexivity. Qed.

(** ** Clearing the store *)

(** C5, as stated, fails in two ways: [clear] is not total.  On Linux,
    when [Secret.password_clear_sync] fails, the [GLib.Error] leaves
    [clear] after the bundle in memory was emptied: the password is
    still stored, and a fresh store has its credentials.  On Windows, a
    vault entry that holds the text [null] makes a store whose bundle is
    [None]; [None] has no [clear], so the call raises [AttributeError]
    before the vault is touched. *)
Lemma C5_counterexample :
  (let k := {| failing := [PasswordClear]; default_collection := Some false;
               password := Some (dumps (JObj Samples.bearer_bundle)) |} in
   let store :=
     with_token_dictionary (JObj Samples.bearer_bundle) Samples.empty_store in
   let first := clear (store, Samples.linux_world k) in
   fst first = Raise GLibError
   /\ has_credentials (fst (snd first)) = Ok false
   /\ password (keyring (snd (snd first))) = password k
   /\ exists fresh w',
        __init__ Samples.bearer_session (snd (snd first)) = (Ok fresh, w')
        /\ has_credentials fresh = Ok true)
  /\
  (let v := {| credential := Some [x6e; x00; x75; x00; x6c; x00; x6c; x00];
               write_succeeds := true |} in
   exists store w',
     __init__ Samples.bearer_session (Samples.windows_world v) = (Ok store, w')
     /\ token_dictionary store = JNull
     /\ fst (clear (store, w')) = Raise AttributeError
     /\ vault (snd (snd (clear (store, w')))) = v).
Proof.
  split.
  - intros k store first.
    split; [reflexivity|]. split; [reflexivity|]. split; [reflexivity|].
    do 2 eexists. split; vm_compute; reflexivity.
  - intros v. do 2 eexists.
    split; [vm_compute; reflexivity|].
    split; [reflexivity|]. split; reflexivity.
Qed.

(** C5, amended.  On a store whose bundle is a dictionary, over a
    backend that answers (on Linux: no call into the secret service
    fails): [clear] returns, [has_credentials] is false afterwards, a
    fresh store built on the backend it leaves holds the empty bundle
    and reports false too, and a second [clear] returns as well and
    changes neither the store nor the backend. *)
Theorem C5_clear_is_idempotent :
  forall (self : SecretStore) (d : dict) (w : World),
    (IS_WINDOWS w = false -> failing (keyring w) = []) ->
    let first := clear (with_token_dictionary (JObj d) self, w) in
    let second := clear (snd first) in
    fst first = Ok tt
    /\ has_credentials (fst (snd first)) = Ok false
    /\ (if IS_WINDOWS w
        then credential (vault (snd (snd first))) = None
        else password (keyring (snd (snd first))) = None)
    /\ (forall session, exists fresh w',
           __init__ session (snd (snd first)) = (Ok fresh, w')
           /\ token_dictionary fresh = JObj []
           /\ has_credentials fresh = Ok false)
    /\ second = (Ok tt, snd first).
Proof.
  intros self d w Hf first second. unfold second, first. clear first second.
  destruct self as [ver ses dic ky].
  destruct w as [win [cred ws] [f c p] lg]. simpl in Hf.
  destruct win.
  - (* native vault *)
    destruct cred as [blob|];
      (split; [reflexivity|]); (split; [reflexivity|]);
      (split; [reflexivity|]);
      (split; [intros session; do 2 eexists; repeat split; reflexivity
              | reflexivity]).
  - (* secret service *)
    rewrite (Hf eq_refl).
    (split; [reflexivity|]); (split; [reflexivity|]);
      (split; [reflexivity|]).
    split; [|reflexivity].
    intros session. destruct c as [[|]|];
      do 2 eexists; repeat split; reflexivity.
Qed.

Lemma C5_witness :
  let w := Samples.linux_world
             {| failing := []; default_collection := Some true;
                password := Some (dumps (JObj Samples.bearer_bundle)) |} in
  let first :=
    clear (with_token_dictionary (JObj Samples.bearer_bundle) Samples.empty_store, w) in
  (IS_WINDOWS w = false -> failing (keyring w) = [])
  /\ fst first = Ok tt
  /\ has_credentials (fst (snd first)) = Ok false
  /\ clear (snd first) = (Ok tt, snd first).
Proof.
  intros w first.
  assert (Hf : IS_WINDOWS w = false -> failing (keyring w) = [])
    by (intros _; reflexivity).
  destruct (C5_clear_is_idempotent Samples.empty_store Samples.bearer_bundle w Hf)
    as [H1 [H2 [_ [_ H3]]]].
  split; [exact Hf|]. split; [exact H1|]. split; [exact H2 | exact H3].
Defined.

(** ** More on the store *)

(** X1.  On Windows the constructor returns a store for every content of
    the vault and leaves the vault as it is.  Either nothing went wrong:
    the store is empty or holds what [json.loads] made of the decoded
    credential, and only the start of the constructor is logged.  Or a
    failure was caught: it is logged and the store is empty. *)
Theorem windows_constructor_catches_every_failure :
  forall (session : Session) (w : World),
    IS_WINDOWS w = true ->
    exists store w',
      __init__ session w = (Ok store, w')
      /\ vault w' = vault w
      /\ ((log w' = log w ++ [Log INFO "initializing secret store"]
           /\ (token_dictionary store = JObj []
               \/ exists blob text,
                    credential (vault w) = Some blob
                    /\ Utf16.decode blob = Ok text
                    /\ loads text = Ok (token_dictionary store)))
          \/ (log w' = log w ++ [Log INFO "initializing secret store";
                                 Log EXCEPTION "Failed to load secret store, resetting"]
              /\ token_dictionary store = JObj [])).
Proof.
  intros session w Hw. destruct w as [win [cred ws] k lg]. simpl in Hw; subst win.
  unfold __init__.
  cbv beta iota zeta delta
    [_init_windows _windows_read_credential try_except try_finally bind
     get_state ret lift modify logger assign_token_dictionary CredReadW
     IS_WINDOWS vault credential log with_log with_token_dictionary
     token_dictionary].
  destruct cred as [blob|].
  - destruct (0 <? N.of_nat (List.length blob)).
    + unfold bytes_of_c_byte.
      destruct (existsb _ blob).
      * do 2 eexists. split; [reflexivity|]. split; [reflexivity|].
        right. rewrite <- app_assoc. split; reflexivity.
      * destruct (Utf16.decode blob) as [text|e] eqn:Hdec.
        -- destruct (truthy text).
           ++ destruct (loads text) as [v|e] eqn:Hload.
              ** do 2 eexists. split; [reflexivity|]. split; [reflexivity|].
                 left. split; [reflexivity|]. right. exists blob, text. auto.
              ** do 2 eexists. split; [reflexivity|]. split; [reflexivity|].
                 right. rewrite <- app_assoc. split; reflexivity.
           ++ do 2 eexists. split; [reflexivity|]. split; [reflexivity|].
              left. split; [reflexivity|]. left; reflexivity.
        -- do 2 eexists. split; [reflexivity|]. split; [reflexivity|].
           right. rewrite <- app_assoc. split; reflexivity.
    + do 2 eexists. split; [reflexivity|]. split; [reflexivity|].
      left. split; [reflexivity|]. left; reflexivity.
  - do 2 eexists. split; [reflexivity|]. split; [reflexivity|].
    left. split; [reflexivity|]. left; reflexivity.
Qed.

Lemma windows_constructor_witness :
  let w := Samples.windows_world
             {| credential := Some [x7b]; write_succeeds := true |} in
  IS_WINDOWS w = true
  /\ exists store w',
       __init__ Samples.bearer_session w = (Ok store, w')
       /\ token_dictionary store = JObj []
       /\ log w' = [Log INFO "initializing secret store";
                    Log EXCEPTION "Failed to load secret store, resetting"].
Proof.
  intros w. split; [reflexivity|].
  destruct (windows_constructor_catches_every_failure Samples.bearer_session w
              eq_refl) as [store [w' [Hinit _]]].
  exists store, w'. split; [exact Hinit|].
  vm_compute in Hinit. injection Hinit as <- <-. split; reflexivity.
Defined.

(** The constructor does not read the log. *)
Lemma init_ignores_log (session : Session) (w : World) (l : list log_record) :
  fst (__init__ session (with_log l w)) = fst (__init__ session w)
  /\ vault (snd (__init__ session (with_log l w))) = vault (snd (__init__ session w))
  /\ keyring (snd (__init__ session (with_log l w)))
     = keyring (snd (__init__ session w)).
Proof.
  destruct w as [win [cred ws] [f c p] lg]. unfold __init__.
  destruct win.
  - cbv beta iota zeta delta
      [_init_windows _windows_read_credential try_except try_finally bind
       get_state ret lift modify logger assign_token_dictionary CredReadW
       IS_WINDOWS vault keyring credential log with_log with_token_dictionary
       token_dictionary fst snd].
    destruct cred as [blob|]; [|repeat split].
    destruct (0 <? N.of_nat (List.length blob)); [|repeat split].
    destruct (bytes_of_c_byte blob) as [b|e]; [|repeat split].
    destruct (Utf16.decode b) as [text|e]; [|repeat split].
    destruct (truthy text); [|repeat split].
    destruct (loads text); repeat split.
  - cbv beta iota zeta delta
      [_init_linux libsecret fails try_except bind
       get_state ret lift modify logger assign_token_dictionary
       IS_WINDOWS keyring failing default_collection password log vault
       with_log with_keyring with_token_dictionary token_dictionary
       set_unlocked fst snd].
    destruct (existsb (libsecret_call_eqb ServiceGet) f); [repeat split|].
    destruct (existsb (libsecret_call_eqb CollectionForAlias) f); [repeat split|].
    destruct c as [[|]|];
      try (destruct (existsb (libsecret_call_eqb ServiceUnlock) f); [repeat split|]);
      (destruct (existsb (libsecret_call_eqb PasswordLookup) f); [repeat split|]);
      (destruct p as [text|]; [|repeat split]);
      (destruct (truthy text); [|repeat split]);
      destruct (loads text); repeat split.
Qed.

(** X2.  A credential blob with a byte of 128 or more is dropped.  The
    blob is read through a pointer to [c_byte], whose slice is a list of
    signed integers, and [bytes] refuses the negative ones: the
    [ValueError] is caught, logged, and the store starts empty, whatever
    text the blob encodes. *)
Theorem windows_credential_with_high_byte_is_reset :
  forall (session : Session) (w : World) (blob : list byte),
    IS_WINDOWS w = true ->
    credential (vault w) = Some blob ->
    existsb (fun b => 128 <=? Byte.to_N b) blob = true ->
    __init__ session w
    = (Ok {| version := lit "0.0"; session := session;
             token_dictionary := JObj []; key := lit "high-tide-login" |},
       with_log (log w ++ [Log INFO "initializing secret store";
                           Log EXCEPTION "Failed to load secret store, resetting"])
                w).
Proof.
  intros session w blob Hw Hc Hb.
  destruct w as [win [cred ws] k lg]. simpl in Hw, Hc; subst win cred.
  assert (Hlen : (0 <? N.of_nat (List.length blob)) = true)
    by (destruct blob; [discriminate Hb | reflexivity]).
  unfold __init__.
  cbv beta iota zeta delta
    [_init_windows _windows_read_credential try_except try_finally bind
     get_state ret lift modify logger assign_token_dictionary CredReadW
     IS_WINDOWS vault credential log with_log with_token_dictionary
     token_dictionary bytes_of_c_byte].
  rewrite Hlen, Hb. rewrite <- app_assoc. reflexivity.
Qed.

(** The text [{"a":"é"}] with the letter written out, as another writer
    of the credential could store it: valid JSON, valid UTF-16, and
    dropped by the constructor because of the byte [0xE9]. *)
Lemma windows_credential_with_high_byte_witness :
  let text := [123; 34; 97; 34; 58; 34; 233; 34; 125] in
  let blob := [x7b; x00; x22; x00; x61; x00; x22; x00; x3a; x00; x22; x00;
               xe9; x00; x22; x00; x7d; x00] in
  let w := Samples.windows_world
             {| credential := Some blob; write_succeeds := true |} in
  Utf16.decode blob = Ok text
  /\ loads text = Ok (JObj [(lit "a", JStr [233])])
  /\ fst (__init__ Samples.bearer_session w)
     = Ok {| version := lit "0.0"; session := Samples.bearer_session;
             token_dictionary := JObj []; key := lit "high-tide-login" |}.
Proof.
  intros text blob w.
  split; [reflexivity|]. split; [vm_compute; reflexivity|].
  rewrite (windows_credential_with_high_byte_is_reset
             Samples.bearer_session w blob eq_refl eq_refl eq_refl).
  reflexivity.
Defined.

(** X3.  A payload that is JSON but not an object is taken over by the
    constructor as it is; this is stated for a scalar and for a list of
    scalars.  [get] then raises [TypeError] (a list or a string cannot
    be subscripted with a key, and [None], a boolean or a number not at
    all), while [has_credentials] answers for a list and a string, by
    membership and by substring, and raises [TypeError] on the rest. *)
Theorem non_object_payload_is_loaded :
  forall (session : Session) (w : World) (text : pystr) (v : json),
    IS_WINDOWS w = false ->
    failing (keyring w) = [] ->
    password (keyring w) = Some text ->
    loads text = Ok v ->
    flat v = true ->
    exists fresh w',
      __init__ session w = (Ok fresh, w')
      /\ token_dictionary fresh = v
      /\ get fresh = Raise TypeError
      /\ has_credentials fresh
         = match v with
           | JArr items =>
               Ok (forallb
                     (fun k =>
                        existsb (fun x => match x with
                                          | JStr s => str_eqb k s
                                          | _ => false
                                          end) items)
                     [lit "token-type"; lit "access-token";
                      lit "refresh-token"])
           | JStr s =>
               Ok (forallb (fun k => str_contains k s)
                     [lit "token-type"; lit "access-token";
                      lit "refresh-token"])
           | _ => Raise TypeError
           end.
Proof.
  intros session w text v Hw Hf Hp Hl Hv.
  assert (Ht : text <> []) by (intros ->; discriminate Hl).
  destruct (init_linux_loads session w text v Hw Hf Hp Ht Hl) as [w' Hinit].
  eexists; exists w'. split; [exact Hinit|]. split; [reflexivity|].
  unfold get, has_credentials. cbn [token_dictionary].
  destruct v as [| b | n | s | items | d]; try (split; reflexivity).
  - split; [reflexivity|]. unfold required_keys, all_in, contains, rbind.
    cbn [forallb].
    repeat match goal with |- context [if ?c then _ else _] => destruct c end;
      reflexivity.
  - split; [reflexivity|]. unfold required_keys, all_in, contains, rbind.
    cbn [forallb].
    repeat match goal with |- context [if ?c then _ else _] => destruct c end;
      reflexivity.
  - discriminate Hv.
Qed.

(** A string that names the three keys: every key is a substring of it,
    so [has_credentials] is true, and [get] raises. *)
Lemma non_object_payload_witness :
  let text :=
    dumps (JStr (lit "token-type access-token refresh-token")) in
  let w := Samples.linux_world
             {| failing := []; default_collection := Some false;
                password := Some text |} in
  exists fresh w',
    __init__ Samples.bearer_session w = (Ok fresh, w')
    /\ token_dictionary fresh
       = JStr (lit "token-type access-token refresh-token")
    /\ has_credentials fresh = Ok true
    /\ get fresh = Raise TypeError.
Proof.
  intros text w.
  assert (Hl : loads text
               = Ok (JStr (lit "token-type access-token refresh-token")))
    by (vm_compute; reflexivity).
  destruct (non_object_payload_is_loaded Samples.bearer_session w text _
              eq_refl eq_refl eq_refl Hl eq_refl)
    as [fresh [w' [Hinit [Hv [Hget Hhas]]]]].
  exists fresh, w'. split; [exact Hinit|]. split; [exact Hv|].
  split; [exact Hhas | exact Hget].
Defined.

(** X4.  When the vault refuses the write, [save] returns all the same:
    the new bundle is held in memory, where [has_credentials] and [get]
    see it, the refusal is logged as an error, the vault keeps what it
    held, and a store built afterwards is the store that would have been
    built before the call. *)
Theorem refused_write_keeps_session_in_memory :
  forall (self : SecretStore) (w : World),
    IS_WINDOWS w = true ->
    write_succeeds (vault w) = false ->
    let ses := session self in
    let saved := save (self, w) in
    saved
    = (Ok tt,
       (with_token_dictionary (JObj (session_bundle ses)) self,
        with_log
          (log w ++ [Log ERROR
             "Failed to save credentials to Windows Credential Manager"]) w))
    /\ has_credentials (fst (snd saved)) = Ok true
    /\ get (fst (snd saved))
       = Ok (JStr (token_type ses), JStr (access_token ses),
             JStr (refresh_token ses))
    /\ forall session',
         fst (__init__ session' (snd (snd saved))) = fst (__init__ session' w).
Proof.
  intros self w Hw Hr ses saved. unfold saved, ses. clear saved ses.
  destruct (utf16_printable _
              (dumps_bundle_printable
                 (token_type (session self)) (access_token (session self))
                 (refresh_token (session self))
                 (str (expiry_time (session self)))))
    as [blob [Henc _]].
  fold (session_bundle (session self)) in Henc.
  rewrite (save_windows self w blob Hw Henc), Hr.
  split; [reflexivity|]. cbn [fst snd].
  split; [reflexivity|]. split; [reflexivity|].
  intros session'. apply init_ignores_log.
Qed.

Lemma refused_write_witness :
  let w := Samples.windows_world Samples.refusing_vault in
  let saved := save (Samples.empty_store, w) in
  fst saved = Ok tt
  /\ has_credentials (fst (snd saved)) = Ok true
  /\ vault (snd (snd saved)) = Samples.refusing_vault.
Proof.
  intros w saved.
  destruct (refused_write_keeps_session_in_memory Samples.empty_store w
              eq_refl eq_refl) as [Hs [Hh _]].
  split; [unfold saved; rewrite Hs; reflexivity|].
  split; [exact Hh|]. unfold saved; rewrite Hs; reflexivity.
Defined.

(** X5.  On Linux a failing call into the secret service leaves [save]
    and [clear] as a [GLib.Error], after the bundle in memory was
    replaced or emptied: the store and the keyring no longer agree. *)
Theorem linux_failure_leaves_memory_changed :
  forall (self : SecretStore) (w : World),
    IS_WINDOWS w = false ->
    (fails PasswordStore (keyring w) = true ->
     save (self, w)
     = (Raise GLibError,
        (with_token_dictionary (JObj (session_bundle (session self))) self, w)))
    /\ (fails PasswordClear (keyring w) = true ->
        forall d : dict,
          clear (with_token_dictionary (JObj d) self, w)
          = (Raise GLibError, (with_token_dictionary (JObj []) self, w))).
Proof.
  intros self w Hw. destruct self as [ver ses dic ky].
  destruct w as [win v k lg]. simpl in Hw; subst win.
  split.
  - intros Hf. cbn [keyring] in Hf.
    cbv beta iota zeta delta
      [save clear libsecret bind get_state lift ret modify
       assign_token_dictionary with_token_dictionary token_dictionary session
       IS_WINDOWS keyring cleared version key].
    rewrite Hf. reflexivity.
  - intros Hf d. cbn [keyring] in Hf.
    cbv beta iota zeta delta
      [save clear libsecret bind get_state lift ret modify
       assign_token_dictionary with_token_dictionary token_dictionary session
       IS_WINDOWS keyring cleared version key].
    rewrite Hf. reflexivity.
Qed.

Lemma linux_failure_witness :
  let k := {| failing := [PasswordStore]; default_collection := Some false;
              password := None |} in
  let saved := save (Samples.empty_store, Samples.linux_world k) in
  fst saved = Raise GLibError
  /\ has_credentials (fst (snd saved)) = Ok true
  /\ password (keyring (snd (snd saved))) = None.
Proof.
  intros k saved.
  pose proof (proj1 (linux_failure_leaves_memory_changed Samples.empty_store
                       (Samples.linux_world k) eq_refl) eq_refl) as Hs.
  unfold saved. rewrite Hs. repeat split.
Defined.

(** X6.  Saving and then clearing leaves nothing behind: both calls
    return, the bundle in memory is empty, the backend entry is gone,
    and a store built afterwards has no credentials.  On Windows this
    holds whether or not the vault accepted the write. *)
Theorem save_then_clear_leaves_no_credentials :
  forall (self : SecretStore) (w : World) (session' : Session),
    (IS_WINDOWS w = false -> failing (keyring w) = []) ->
    let saved := save (self, w) in
    let emptied := clear (snd saved) in
    fst saved = Ok tt
    /\ fst emptied = Ok tt
    /\ token_dictionary (fst (snd emptied)) = JObj []
    /\ (if IS_WINDOWS w
        then credential (vault (snd (snd emptied))) = None
        else password (keyring (snd (snd emptied))) = None)
    /\ exists fresh w',
         __init__ session' (snd (snd emptied)) = (Ok fresh, w')
         /\ token_dictionary fresh = JObj []
         /\ has_credentials fresh = Ok false.
Proof.
  intros self w session' Hf saved emptied. unfold emptied, saved.
  clear emptied saved.
  destruct (IS_WINDOWS w) eqn:Hw.
  - destruct (utf16_printable _
                (dumps_bundle_printable
                   (token_type (session self)) (access_token (session self))
                   (refresh_token (session self))
                   (str (expiry_time (session self)))))
      as [blob [Henc _]].
    fold (session_bundle (session self)) in Henc.
    rewrite (save_windows self w blob Hw Henc).
    destruct self as [ver ses dic ky].
    destruct w as [win [cred ws] k lg]. simpl in Hw; subst win.
    destruct ws, cred as [old|];
      (split; [reflexivity|]); (split; [reflexivity|]);
      (split; [reflexivity|]); (split; [reflexivity|]);
      do 2 eexists; repeat split; reflexivity.
  - rewrite (save_linux self w Hw (Hf eq_refl)).
    destruct self as [ver ses dic ky].
    destruct w as [win v [f c p] lg]. simpl in Hw, Hf; subst win.
    rewrite (Hf eq_refl).
    (split; [reflexivity|]); (split; [reflexivity|]);
      (split; [reflexivity|]); (split; [reflexivity|]).
    destruct c as [[|]|]; do 2 eexists; repeat split; reflexivity.
Qed.

Lemma save_then_clear_witness :
  let w := Samples.windows_world Samples.empty_vault in
  let saved := save (Samples.empty_store, w) in
  let emptied := clear (snd saved) in
  (IS_WINDOWS w = false -> failing (keyring w) = [])
  /\ credential (vault (snd (snd saved)))
     = Some (match Utf16.encode (dumps (JObj Samples.bearer_bundle)) with
             | Ok blob => blob
             | Raise _ => []
             end)
  /\ fst emptied = Ok tt
  /\ credential (vault (snd (snd emptied))) = None.
Proof.
  intros w saved emptied.
  assert (Hf : IS_WINDOWS w = false -> failing (keyring w) = [])
    by (intros H; discriminate H).
  destruct (save_then_clear_leaves_no_credentials Samples.empty_store w
              Samples.bearer_session Hf) as [_ [H2 [_ [H4 _]]]].
  split; [exact Hf|]. split; [vm_compute; reflexivity|].
  split; [exact H2 | exact H4].
Defined.

(** ** The UTF-16 codec on every text *)

Lemma to_N_byte_of_mod (n : N) : Byte.to_N (Utf16.byte_of n) = n mod 256.
Proof.
  unfold Utf16.byte_of.
  destruct (Byte.of_N (n mod 256)) as [b|] eqn:E.
  - apply Byte.to_of_N; exact E.
  - apply Byte.of_N_None_iff in E.
    pose proof (N.mod_lt n 256). lia.
Qed.

Lemma unit_of_code_unit (u : N) :
  u < 65536 ->
  Utf16.unit_of (Utf16.byte_of u) (Utf16.byte_of (u / 256)) = u.
Proof.
  intros Hu. unfold Utf16.unit_of. rewrite !to_N_byte_of_mod.
  assert (Hq : u / 256 < 256) by (apply N.Div0.div_lt_upper_bound; lia).
  rewrite (N.mod_small (u / 256)) by exact Hq.
  pose proof (N.div_mod u 256). lia.
Qed.

Lemma decode_code_unit (u : N) (rest : list byte) :
  u < 65536 ->
  is_high_surrogate u = false -> is_low_surrogate u = false ->
  Utf16.decode (Utf16.code_unit u ++ rest) = Utf16.push u (Utf16.decode rest).
Proof.
  intros Hu Hh Hl. unfold Utf16.code_unit. cbn [app Utf16.decode].
  rewrite (unit_of_code_unit u Hu), Hh, Hl. reflexivity.
Qed.

Lemma decode_surrogate_pair (c : N) (rest : list byte) :
  65536 <= c -> c <= 1114111 ->
  let n := c - 65536 in
  Utf16.decode (Utf16.code_unit (55296 + N.shiftr n 10)
                ++ Utf16.code_unit (56320 + N.land n 1023) ++ rest)
  = Utf16.push c (Utf16.decode rest).
Proof.
  intros Hlo Hhi n.
  destruct (pair_halves c Hlo Hhi) as [_ [_ [Hq Hr]]]. fold n in Hq, Hr.
  rewrite N.shiftr_div_pow2. change (2 ^ 10) with 1024.
  change 1023 with (N.ones 10). rewrite N.land_ones. change (2 ^ 10) with 1024.
  pose proof (join_halves c Hlo Hhi) as Hj. fold n in Hj. cbv zeta in Hj.
  generalize dependent (n / 1024). generalize dependent (n mod 1024).
  intros lo Hlo' hi Hhi' Hj.
  unfold Utf16.code_unit. cbn [app Utf16.decode].
  rewrite (unit_of_code_unit (55296 + hi)) by lia.
  rewrite (unit_of_code_unit (56320 + lo)) by lia.
  assert (H1 : is_high_surrogate (55296 + hi) = true).
  { unfold is_high_surrogate. apply andb_true_iff. split; apply N.leb_le; lia. }
  assert (H2 : is_low_surrogate (56320 + lo) = true).
  { unfold is_low_surrogate. apply andb_true_iff. split; apply N.leb_le; lia. }
  rewrite H1, H2, Hj. reflexivity.
Qed.

(** A text of scalar values is encoded, and what was encoded decodes to
    the text. *)
Lemma utf16_round_trip (s : pystr) :
  scalar_text s ->
  exists blob,
    Utf16.encode s = Ok blob
    /\ Utf16.decode blob = Ok s
    /\ (s <> [] -> blob <> []).
Proof.
  induction 1 as [|c s [Hc [Hh Hl]] Hs [blob [He [Hd _]]]].
  - exists []. split; [reflexivity|]. split; [reflexivity | auto].
  - cbn [Utf16.encode]. rewrite Hh, Hl, He. cbn [orb rbind].
    destruct (N.ltb_spec c 65536) as [Hlt|Hge].
    + eexists. split; [reflexivity|]. split.
      * rewrite (decode_code_unit c blob Hlt Hh Hl), Hd. reflexivity.
      * intros _. discriminate.
    + eexists. split; [reflexivity|]. split.
      * rewrite (decode_surrogate_pair c blob Hge Hc), Hd. reflexivity.
      * intros _. discriminate.
Qed.

(** A surrogate code point anywhere in the text: nothing is encoded. *)
Lemma utf16_refuses_surrogates (s : pystr) :
  existsb (fun c => is_high_surrogate c || is_low_surrogate c) s = true ->
  Utf16.encode s = Raise UnicodeEncodeError.
Proof.
  induction s as [|c s IH]; [discriminate|].
  cbn [existsb Utf16.encode].
  destruct (is_high_surrogate c || is_low_surrogate c); [reflexivity|].
  cbn [orb]. intros H. rewrite (IH H). reflexivity.
Qed.

(** X7.  Writing a credential and reading it back.  The write encodes
    the text as UTF-16LE and stores the bytes when the vault accepts
    them. The read hands the text back when every stored byte is below
    128, and raises [ValueError] otherwise.  A text with a surrogate
    code point is not encoded, and the vault is not touched. *)
Theorem credential_write_then_read :
  forall (self : SecretStore) (w : World) (text : pystr),
    write_succeeds (vault w) = true ->
    (scalar_text text -> text <> [] ->
     exists blob,
       Utf16.encode text = Ok blob
       /\ fst (_windows_write_credential text (self, w)) = Ok true
       /\ credential (vault (snd (snd (_windows_write_credential text (self, w)))))
          = Some blob
       /\ fst (_windows_read_credential
                 (snd (_windows_write_credential text (self, w))))
          = if existsb (fun b => 128 <=? Byte.to_N b) blob
            then Raise ValueError
            else Ok (Some text))
    /\ (existsb (fun c => is_high_surrogate c || is_low_surrogate c) text = true ->
        _windows_write_credential text (self, w)
        = (Raise UnicodeEncodeError, (self, w))).
Proof.
  intros self w text Hws. split.
  - intros Hs Hne.
    destruct (utf16_round_trip text Hs) as [blob [He [Hd Hb]]].
    specialize (Hb Hne). exists blob. split; [exact He|].
    destruct w as [win [cred ws] k lg]. simpl in Hws; subst ws.
    cbv beta iota zeta delta
      [_windows_write_credential _windows_read_credential bind lift get_state
       ret try_finally CredWriteW CredReadW vault write_succeeds credential
       with_vault fst snd].
    rewrite He. cbn [fst snd].
    split; [reflexivity|]. split; [reflexivity|].
    cbv beta iota zeta delta [vault credential fst snd].
    assert (Hlen : (0 <? N.of_nat (List.length blob)) = true)
      by (destruct blob; [contradiction | reflexivity]).
    rewrite Hlen. unfold bytes_of_c_byte.
    destruct (existsb _ blob); [reflexivity|].
    rewrite Hd. reflexivity.
  - intros Hsur. unfold _windows_write_credential, bind, lift.
    rewrite (utf16_refuses_surrogates text Hsur). reflexivity.
Qed.

(** A token of ASCII letters comes back; the text [é], whose code unit
    has the byte [0xE9], is stored and cannot be read. *)
Lemma credential_write_then_read_witness :
  let w := Samples.windows_world Samples.empty_vault in
  write_succeeds (vault w) = true
  /\ fst (_windows_read_credential
            (snd (_windows_write_credential (lit "Bearer")
                    (Samples.empty_store, w))))
     = Ok (Some (lit "Bearer"))
  /\ fst (_windows_read_credential
            (snd (_windows_write_credential [233] (Samples.empty_store, w))))
     = Raise ValueError.
Proof.
  intros w.
  assert (Hs : forall s, forallb (fun c => (c <=? 1114111)
                                   && negb (is_high_surrogate c)
                                   && negb (is_low_surrogate c)) s = true ->
                         scalar_text s).
  { induction s as [|c s IH]; [constructor|].
    cbn [forallb]. rewrite !andb_true_iff, !negb_true_iff, N.leb_le.
    intros [[[H1 H2] H3] H4].
    constructor; [repeat split; assumption | exact (IH H4)]. }
  split; [reflexivity|]. split.
  - destruct (proj1 (credential_write_then_read Samples.empty_store w
                       (lit "Bearer") eq_refl) (Hs (lit "Bearer") eq_refl)
                ltac:(discriminate))
      as [blob [He [_ [_ Hr]]]].
    vm_compute in He. injection He as <-. exact Hr.
  - destruct (proj1 (credential_write_then_read Samples.empty_store w
                       [233] eq_refl) (Hs [233] eq_refl) ltac:(discriminate))
      as [blob [He [_ [_ Hr]]]].
    vm_compute in He. injection He as <-. exact Hr.
Defined.

(** ** The media controls *)

Import WindowsIntegration.

(** What [initialize] returns, and whether the bridge is initialized
    afterwards, as a function of the desktop alone. *)
Lemma initialize_outcome (self : WindowsMediaControls) (d : Desktop) :
  fst (initialize (self, d))
  = Ok (if HAS_WINSDK d
        then match setup_fault d with
             | None => PyBool true
             | Some _ => PyNone
             end
        else PyBool false)
  /\ _initialized (fst (snd (initialize (self, d))))
     = (if HAS_WINSDK d
        then match setup_fault d with None => true | Some _ => false end
        else _initialized self).
Proof.
  destruct d as [w sdk toast app fault cf nf x fs ths rk sam fr ex ms lg].
  destruct sdk; [|split; reflexivity].
  destruct app as [[|code]|], fault as [[]|]; split; reflexivity.
Qed.

(** C7.  While the bridge is not initialized, [update_playback_status]
    and [update_metadata] return normally and leave the bridge and the
    desktop (the native controls, the threads, the log) exactly as
    they were; this covers the bridge as constructed and the bridge
    after an [initialize] that did not return [True]. *)
Theorem C7_updates_before_initialize_are_noops :
  forall (self : WindowsMediaControls) (d : Desktop),
    _initialized self = false ->
    (forall is_playing,
        update_playback_status is_playing (self, d) = (Ok tt, (self, d)))
    /\ (forall title artist album thumbnail_path duration_ms,
        update_metadata title artist album thumbnail_path duration_ms (self, d)
        = (Ok tt, (self, d)))
    /\ (fst (initialize (self, d)) <> Ok (PyBool true) ->
        let after := snd (initialize (self, d)) in
        (forall is_playing,
            update_playback_status is_playing after = (Ok tt, after))
        /\ (forall title artist album thumbnail_path duration_ms,
            update_metadata title artist album thumbnail_path duration_ms after
            = (Ok tt, after))).
Proof.
  assert (noop : forall s : Controls, _initialized (fst s) = false ->
            (forall is_playing,
                update_playback_status is_playing s = (Ok tt, s))
            /\ (forall title artist album thumbnail_path duration_ms,
                update_metadata title artist album thumbnail_path duration_ms s
                = (Ok tt, s))).
  { intros [o e] H; simpl in H.
    split; intros;
      unfold update_playback_status, update_metadata, bind, get_state, ret;
      rewrite H; reflexivity. }
  intros self d H.
  destruct (noop (self, d) H) as [H1 H2].
  split; [exact H1 | split; [exact H2 |]].
  intros Hfail after. apply noop. unfold after.
  destruct (initialize_outcome self d) as [Hr Hi].
  rewrite Hi. rewrite Hr in Hfail.
  destruct (HAS_WINSDK d); [|exact H].
  destruct (setup_fault d); [reflexivity | congruence].
Qed.

Lemma C7_witness :
  _initialized new_media_controls = false
  /\ update_playback_status true
       (new_media_controls, Samples.desktop None None)
     = (Ok tt, (new_media_controls, Samples.desktop None None)).
Proof.
  split; [reflexivity|].
  exact (proj1 (C7_updates_before_initialize_are_noops
                  new_media_controls (Samples.desktop None None) eq_refl)
               true).
Defined.

(** C10.  [initialize] returns [False] when winsdk is absent and [True]
    when the native set-up succeeds; when a step of the set-up raises it
    logs a warning, leaves the bridge uninitialized and returns [None],
    which is not [False]: the test [result is False] does not see that
    failure. *)
Theorem C10_initialize_returns_none_on_exception :
  forall (self : WindowsMediaControls) (d : Desktop),
    let outcome := initialize (self, d) in
    fst outcome
    = Ok (if HAS_WINSDK d
          then match setup_fault d with
               | None => PyBool true
               | Some _ => PyNone
               end
          else PyBool false)
    /\ (HAS_WINSDK d = true ->
        _initialized (fst (snd outcome))
        = match setup_fault d with None => true | Some _ => false end)
    /\ (HAS_WINSDK d = true -> setup_fault d <> None ->
        In (Log WARNING "Failed to initialize Windows Media Controls")
           (log (snd (snd outcome))))
    /\ is_False PyNone = false
    /\ is_False (PyBool false) = true.
Proof.
  intros self d outcome. unfold outcome.
  destruct (initialize_outcome self d) as [Hr Hi].
  split; [exact Hr|].
  split; [intros H; rewrite Hi, H; reflexivity|].
  split; [|split; reflexivity].
  intros Hsdk Hfault.
  destruct d as [w sdk toast app fault cf nf x fs ths rk sam fr ex ms lg].
  simpl in Hsdk, Hfault; subst sdk.
  clear Hr Hi.
  destruct app as [[|code]|], fault as [[]|]; try congruence;
    cbn; rewrite !in_app_iff; cbn [In]; auto 8.
Qed.

Lemma C10_witness :
  fst (initialize (new_media_controls, Samples.desktop (Some CreatePlayer) None))
  = Ok PyNone
  /\ In (Log WARNING "Failed to initialize Windows Media Controls")
        (log (snd (snd (initialize
           (new_media_controls, Samples.desktop (Some CreatePlayer) None))))).
Proof.
  pose proof (C10_initialize_returns_none_on_exception
                new_media_controls (Samples.desktop (Some CreatePlayer) None))
    as H.
  destruct H as [Hr [_ [Hlog _]]].
  split; [exact Hr|].
  apply Hlog; [reflexivity | discriminate].
Defined.

(** ** Notifications *)

Lemma opt_str_eqb_eq (a b : option pystr) : opt_str_eqb a b = true <-> a = b.
Proof.
  destruct a as [x|], b as [y|]; simpl;
    try (split; [discriminate | discriminate]); try tauto.
  rewrite str_eqb_eq. split; [intros ->; reflexivity | congruence].
Qed.



(** ** Startup registration *)










(** ** More on the media controls *)

Ltac run_controls :=
  cbv beta iota zeta delta
    [initialize shutdown update_playback_status update_metadata
     update_position _on_button_pressed _set_app_user_model_id
     _set_thumbnail_async native on_controls update_self logger start_thread
     try_except bind get_state ret raise modify fst snd negb orb andb id
     setup_step_eqb
     set_media_player set_smtc set_display_updater set_initialized
     set_current set_button_pressed_token
     _media_player _smtc _display_updater _initialized _current_title
     _current_artist _current_album _button_pressed_token
     HAS_WINSDK setup_fault controls_fault smtc log threads files
     with_smtc with_log with_threads].

(** X8.  A set-up without a failing step acquires the player, the
    controls and the display updater, enables the controls and their
    buttons, registers one button listener and keeps its token, and
    marks the object initialized.  It writes two log records: the debug
    line of the application id, which says how that call went and does
    not stop the set-up, and the line of the success. *)
Theorem initialize_acquires_the_controls :
  forall (self : WindowsMediaControls) (d : Desktop),
    HAS_WINSDK d = true ->
    setup_fault d = None ->
    initialize (self, d)
    = (Ok (PyBool true),
       ({| _media_player := true; _smtc := true; _display_updater := true;
           _initialized := true;
           _current_title := _current_title self;
           _current_artist := _current_artist self;
           _current_album := _current_album self;
           _button_pressed_token := Some (button_handlers (smtc d)) |},
        with_log
          (log d
           ++ [Log DEBUG
                 match app_id_hresult d with
                 | Some 0 =>
                     "Set AppUserModelId to: io.github.nokse22.high-tide"
                 | Some _ => "Failed to set AppUserModelId"
                 | None => "Could not set AppUserModelId"
                 end;
               Log INFO
                 "Windows Media Controls (SMTC) initialized successfully"])
          (with_smtc (add_button_pressed (enable_all (smtc d))) d))).
Proof.
  intros self d Hw Hf.
  destruct self as [mp sm du ini ct ca cal tok].
  destruct d as [win sdk toast app fault cf nf x fs th rk sam fr ex ms lg].
  simpl in Hw, Hf; subst sdk fault.
  match goal with
  | |- _ = (_, (_, with_log (?l ++ [?a; ?b]) _)) =>
      change (l ++ [a; b]) with (l ++ ([a] ++ [b]));
      rewrite (app_assoc l [a] [b])
  end.
  destruct app as [[|code]|]; reflexivity.
Qed.

Lemma initialize_acquires_witness :
  let d := Samples.desktop None None in
  HAS_WINSDK d = true /\ setup_fault d = None
  /\ fst (initialize (new_media_controls, d)) = Ok (PyBool true)
  /\ button_handlers (smtc (snd (snd (initialize (new_media_controls, d))))) = 1%nat
  /\ is_enabled (smtc (snd (snd (initialize (new_media_controls, d))))) = true
  /\ log (snd (snd (initialize (new_media_controls, d))))
     = [Log DEBUG "Set AppUserModelId to: io.github.nokse22.high-tide";
        Log INFO "Windows Media Controls (SMTC) initialized successfully"].
Proof.
  intros d.
  pose proof (initialize_acquires_the_controls new_media_controls d
                eq_refl eq_refl) as H.
  split; [reflexivity|]. split; [reflexivity|].
  rewrite H. repeat split.
Defined.

(** X9.  [shutdown] after [initialize], on controls that take the calls
    of [shutdown]: whether the set-up succeeded or failed at some step,
    the object is back to holding nothing, the listener that was
    registered is removed again, and the controls are disabled if they
    had been acquired. *)
Theorem shutdown_undoes_initialize :
  forall (self : WindowsMediaControls) (d : Desktop),
    HAS_WINSDK d = true ->
    controls_fault d = false ->
    _smtc self = false ->
    _button_pressed_token self = None ->
    let started := snd (initialize (self, d)) in
    let stopped := shutdown started in
    fst stopped = Ok tt
    /\ fst (snd stopped)
       = {| _media_player := false; _smtc := false; _display_updater := false;
            _initialized := false;
            _current_title := _current_title self;
            _current_artist := _current_artist self;
            _current_album := _current_album self;
            _button_pressed_token := None |}
    /\ button_handlers (smtc (snd (snd stopped))) = button_handlers (smtc d)
    /\ is_enabled (smtc (snd (snd stopped)))
       = (if _smtc (fst started) then false else is_enabled (smtc d))
    /\ (setup_fault d = None -> _smtc (fst started) = true).
Proof.
  intros self d Hw Hc Hs Ht started stopped. unfold stopped, started.
  clear stopped started.
  destruct self as [mp sm du ini ct ca cal tok].
  destruct d as [win sdk toast app fault cf nf x fs th rk sam fr ex ms lg].
  simpl in Hw, Hc, Hs, Ht; subst sdk cf sm tok.
  destruct app as [[|code]|], fault as [[]|]; repeat split; try discriminate.
Qed.

Lemma shutdown_undoes_initialize_witness :
  let d := Samples.desktop (Some GetDisplayUpdater) None in
  let started := snd (initialize (new_media_controls, d)) in
  HAS_WINSDK d = true /\ controls_fault d = false
  /\ _smtc new_media_controls = false
  /\ _button_pressed_token new_media_controls = None
  /\ button_handlers (smtc (snd started)) = 1%nat
  /\ _button_pressed_token (fst started) = Some 0%nat
  /\ button_handlers (smtc (snd (snd (shutdown started)))) = 0%nat
  /\ is_enabled (smtc (snd (snd (shutdown started)))) = false.
Proof.
  intros d started.
  destruct (shutdown_undoes_initialize new_media_controls d
              eq_refl eq_refl eq_refl eq_refl) as [_ [_ [H3 [H4 _]]]].
  do 6 (split; [reflexivity|]). split; [exact H3 | exact H4].
Defined.

(** X10.  [shutdown] never raises, whatever the native controls do.  It
    leaves the object without references and uninitialized, so every
    later update returns without touching anything, and a second
    [shutdown] makes no native call either: it only writes its debug
    line. *)
Theorem shutdown_is_final_and_repeatable :
  forall (self : WindowsMediaControls) (d : Desktop),
    let first := shutdown (self, d) in
    let second := shutdown (snd first) in
    fst first = Ok tt
    /\ fst (snd first)
       = {| _media_player := false; _smtc := false; _display_updater := false;
            _initialized := false;
            _current_title := _current_title self;
            _current_artist := _current_artist self;
            _current_album := _current_album self;
            _button_pressed_token := None |}
    /\ (_smtc self = false -> smtc (snd (snd first)) = smtc d)
    /\ (forall is_playing,
          update_playback_status is_playing (snd first) = (Ok tt, snd first))
    /\ (forall title artist album thumbnail_path duration_ms,
          update_metadata title artist album thumbnail_path duration_ms (snd first)
          = (Ok tt, snd first))
    /\ (forall position_ms,
          update_position position_ms (snd first) = (Ok tt, snd first))
    /\ second
       = (Ok tt,
          (fst (snd first),
           with_log (log (snd (snd first))
                     ++ [Log DEBUG "Windows Media Controls shut down"])
                    (snd (snd first)))).
Proof.
  intros self d first second. unfold second, first. clear second first.
  destruct self as [mp sm du ini ct ca cal tok].
  destruct d as [win sdk toast app fault cf nf x fs th rk sam fr ex ms lg].
  destruct sm, cf, tok as [t|];
    (split; [reflexivity|]); (split; [reflexivity|]);
    (split; [intros H; first [discriminate H | reflexivity]|]);
    repeat split.
Qed.

(** X11.  The updates never raise.  [update_position] changes nothing in
    any state.  When the native controls refuse a call, the other two
    log the failure and return; [update_metadata] has by then stored the
    three strings in the object. *)
Theorem updates_never_raise :
  forall (self : WindowsMediaControls) (d : Desktop),
    (forall position_ms,
        update_position position_ms (self, d) = (Ok tt, (self, d)))
    /\ (forall is_playing,
          fst (update_playback_status is_playing (self, d)) = Ok tt)
    /\ (forall title artist album thumbnail_path duration_ms,
          fst (update_metadata title artist album thumbnail_path duration_ms
                 (self, d)) = Ok tt)
    /\ (_initialized self = true -> controls_fault d = true ->
        (_smtc self = true ->
         forall is_playing,
           update_playback_status is_playing (self, d)
           = (Ok tt,
              (self,
               with_log (log d ++ [Log EXCEPTION
                  "Error updating SMTC playback status"]) d)))
        /\ (_display_updater self = true ->
            forall title artist album thumbnail_path duration_ms,
              update_metadata title artist album thumbnail_path duration_ms
                (self, d)
              = (Ok tt,
                 (set_current title artist album self,
                  with_log (log d ++ [Log EXCEPTION
                     "Error updating SMTC metadata"]) d)))).
Proof.
  intros self d.
  destruct self as [mp sm du ini ct ca cal tok].
  destruct d as [win sdk toast app fault cf nf x fs th rk sam fr ex ms lg].
  split; [intros p; destruct ini; reflexivity|].
  split; [intros p; destruct ini, sm, cf, p; reflexivity|].
  split.
  { intros title artist album thumbnail_path duration_ms.
    destruct ini, du, cf; try reflexivity.
    run_controls. cbv beta iota delta [path_exists files].
    destruct (truthy thumbnail_path);
      [destruct (existsb (str_eqb thumbnail_path) fs)|]; reflexivity. }
  intros Hi Hc. simpl in Hi, Hc; subst ini cf.
  split.
  - intros Hs p. simpl in Hs; subst sm. destruct p; reflexivity.
  - intros Hs title artist album thumbnail_path duration_ms.
    simpl in Hs; subst du. reflexivity.
Qed.



(** X13.  A button event never raises out of the handler, whatever the
    callbacks do.  Play, pause, next, previous and stop each run their
    own callback once, after the debug line; what the callback raises is
    logged and goes no further.  The play/pause callback is not used:
    replacing it changes nothing.  Any other button calls no callback:
    only the debug line is written. *)
Theorem button_events_are_contained :
  forall (callbacks : Callbacks) (button : SystemMediaTransportControlsButton)
         (self : WindowsMediaControls) (d : Desktop),
    fst (_on_button_pressed callbacks button (self, d)) = Ok tt
    /\ (forall other : M Controls unit,
          _on_button_pressed
            {| on_play := on_play callbacks; on_pause := on_pause callbacks;
               on_play_pause := other; on_next := on_next callbacks;
               on_previous := on_previous callbacks;
               on_stop := on_stop callbacks |} button (self, d)
          = _on_button_pressed callbacks button (self, d))
    /\ (HAS_WINSDK d = true ->
        let pressed :=
          (self, with_log (log d ++ [Log DEBUG "SMTC button pressed"]) d) in
        (forall callback,
            In (button, callback)
               [(PLAY, on_play callbacks); (PAUSE, on_pause callbacks);
                (NEXT, on_next callbacks); (PREVIOUS, on_previous callbacks);
                (STOP, on_stop callbacks)] ->
            _on_button_pressed callbacks button (self, d)
            = match callback pressed with
              | (Ok _, after) => (Ok tt, after)
              | (Raise _, after) =>
                  (Ok tt,
                   (fst after,
                    with_log (log (snd after)
                              ++ [Log EXCEPTION "Error handling SMTC button press"])
                             (snd after)))
              end)
        /\ (In button [RECORD; FAST_FORWARD; REWIND; CHANNEL_UP; CHANNEL_DOWN] ->
            _on_button_pressed callbacks button (self, d) = (Ok tt, pressed))).
Proof.
  intros callbacks button self d.
  destruct callbacks as [cplay cpause cpp cnext cprev cstop].
  destruct d as [win sdk toast app fault cf nf x fs th rk sam fr ex ms lg].
  assert (Hrun : forall callback : M Controls unit,
    try_except
      (bind get_state (fun '(_, d0) =>
         bind (if HAS_WINSDK d0 then ret tt else raise ImportError) (fun _ =>
         bind (logger DEBUG "SMTC button pressed") (fun _ => callback))))
      (fun _ => logger EXCEPTION "Error handling SMTC button press")
      (self,
       {| IS_WINDOWS := win; HAS_WINSDK := true; HAS_WIN10TOAST := toast;
          app_id_hresult := app; setup_fault := fault; controls_fault := cf; notifier_fault := nf;
          smtc := x; files := fs; threads := th; run_key := rk;
          run_key_access := sam; sys_frozen := fr; sys_executable := ex; main_script := ms;
          log := lg |})
    = match callback
              (self,
               {| IS_WINDOWS := win; HAS_WINSDK := true; HAS_WIN10TOAST := toast;
                  app_id_hresult := app; setup_fault := fault; controls_fault := cf;
                  notifier_fault := nf; smtc := x; files := fs; threads := th;
                  run_key := rk; run_key_access := sam; sys_frozen := fr;
                  sys_executable := ex;
                  main_script := ms;
                  log := lg ++ [Log DEBUG "SMTC button pressed"] |}) with
      | (Ok _, after) => (Ok tt, after)
      | (Raise _, after) =>
          (Ok tt,
           (fst after,
            with_log (log (snd after)
                      ++ [Log EXCEPTION "Error handling SMTC button press"])
                     (snd after)))
      end).
  { intros callback.
    unfold try_except, bind, get_state, logger, modify, ret, raise.
    cbn [HAS_WINSDK with_log log IS_WINDOWS HAS_WIN10TOAST setup_fault
         controls_fault notifier_fault smtc files threads run_key sys_frozen
         sys_executable main_script].
    destruct (callback _) as [[[]|e] [s1 d1]]; reflexivity. }
  split.
  { destruct sdk; [|reflexivity].
    destruct button; unfold _on_button_pressed;
      cbn [on_play on_pause on_next on_previous on_stop]; rewrite Hrun;
      match goal with
      | |- context [match ?c ?s with _ => _ end] =>
          destruct (c s) as [[[]|e] [s1 d1]]
      end; reflexivity. }
  split; [intros other; destruct button; reflexivity|].
  intros Hw. simpl in Hw; subst sdk. cbv zeta. split.
  - intros callback Hin. cbn [In] in Hin.
    destruct Hin as [H|[H|[H|[H|[H|[]]]]]]; inversion H; subst;
      unfold _on_button_pressed;
      cbn [on_play on_pause on_next on_previous on_stop]; apply Hrun.
  - intros Hin. cbn [In] in Hin.
    destruct Hin as [H|[H|[H|[H|[H|[]]]]]]; subst; reflexivity.
Qed.

(** ** More on the notifications *)

(** X14.  The constructor never raises.  It holds a notifier exactly
    when win10toast is installed and [ToastNotifier()] did not raise;
    without one, every request to show something returns [False] and
    starts no thread. *)
Theorem notifications_need_a_notifier :
  forall d : Desktop,
    exists d',
      new_notifications d
      = (Ok {| _notifier := HAS_WIN10TOAST d && negb (notifier_fault d);
               _enabled := true; _last_track_id := None |}, d')
      /\ threads d' = threads d
      /\ forall (self : WindowsNotifications) (d0 : Desktop),
           _notifier self = false ->
           (forall title artist album icon_path track_id,
               show_now_playing title artist album icon_path track_id (self, d0)
               = (Ok false, (self, d0)))
           /\ (forall title message icon_path,
                 show_message title message icon_path (self, d0)
                 = (Ok false, (self, d0))).
Proof.
  intros d.
  destruct d as [win sdk toast app fault cf nf x fs th rk sam fr ex ms lg].
  destruct toast, nf; eexists; (split; [reflexivity|]); (split; [reflexivity|]);
    intros [no en last] d0 Hn; simpl in Hn; subst no;
    split; intros; destruct en; reflexivity.
Qed.

(** The two ways a request on a working service ends. *)
Lemma show_now_playing_fresh (self : WindowsNotifications) (d : Desktop)
    (title artist album : pystr) (icon_path track_id : option pystr) :
  _enabled self = true ->
  _notifier self = true ->
  truthy_opt track_id && opt_str_eqb track_id (_last_track_id self) = false ->
  show_now_playing title artist album icon_path track_id (self, d)
  = (Ok true,
     ({| _notifier := true; _enabled := true; _last_track_id := track_id |},
      with_threads
        (threads d
         ++ [ToastThread title
               (if truthy album then artist ++ [32; 8226; 32] ++ album
                else artist) icon_path]) d)).
Proof.
  intros He Hn Hd. destruct self as [no en last].
  simpl in He, Hn, Hd; subst no en.
  unfold show_now_playing.
  cbv beta iota zeta delta
    [bind get_state ret modify try_except start_thread logger fst snd negb orb
     _enabled _notifier _last_track_id].
  rewrite Hd. reflexivity.
Qed.

Lemma show_now_playing_again (self : WindowsNotifications) (d : Desktop)
    (title artist album : pystr) (icon_path : option pystr) (T : pystr) :
  truthy T = true ->
  _last_track_id self = Some T ->
  show_now_playing title artist album icon_path (Some T) (self, d)
  = (Ok false, (self, d)).
Proof.
  intros Ht Hl. destruct self as [no en last]. simpl in Hl; subst last.
  unfold show_now_playing.
  cbv beta iota zeta delta
    [bind get_state ret modify try_except start_thread logger fst snd
     _enabled _notifier _last_track_id].
  cbn [truthy_opt opt_str_eqb]. rewrite Ht, str_eqb_refl.
  destruct (negb en || negb no); reflexivity.
Qed.

Lemma opt_str_eqb_neq (a b : option pystr) : a <> b -> opt_str_eqb a b = false.
Proof.
  intros H. destruct (opt_str_eqb a b) eqn:E; [|reflexivity].
  apply opt_str_eqb_eq in E. contradiction.
Qed.

(** X15.  While notifications are disabled nothing is shown and nothing
    is remembered: after enabling them again the service is in the state
    it was in before, so the track shown last is still suppressed. *)
Theorem disabling_keeps_the_last_track :
  forall (self : WindowsNotifications) (d : Desktop) (T1 : pystr)
         (title artist album : pystr) (icon_path : option pystr),
    _enabled self = true ->
    _notifier self = true ->
    truthy T1 = true ->
    _last_track_id self <> Some T1 ->
    let shown := snd (show_now_playing title artist album icon_path (Some T1)
                        (self, d)) in
    let off := snd (set_enabled false shown) in
    let on := snd (set_enabled true off) in
    (forall title' artist' album' icon_path' track_id,
        show_now_playing title' artist' album' icon_path' track_id off
        = (Ok false, off))
    /\ (forall title' message icon_path',
          show_message title' message icon_path' off = (Ok false, off))
    /\ on = shown
    /\ show_now_playing title artist album icon_path (Some T1) on
       = (Ok false, on).
Proof.
  intros self d T1 title artist album icon_path He Hn Ht Hl shown off on.
  unfold on, off, shown. clear on off shown.
  rewrite (show_now_playing_fresh self d title artist album icon_path (Some T1)
             He Hn)
    by (rewrite opt_str_eqb_neq by congruence; apply andb_false_r).
  cbn [snd set_enabled modify _notifier _enabled _last_track_id].
  split; [reflexivity|]. split; [reflexivity|]. split; [reflexivity|].
  apply show_now_playing_again; [exact Ht | reflexivity].
Qed.

Lemma disabling_keeps_the_last_track_witness :
  let self := {| _notifier := true; _enabled := true; _last_track_id := None |} in
  let d := Samples.desktop None None in
  let shown := snd (show_now_playing (lit "Song") (lit "Artist") [] None
                      (Some (lit "T1")) (self, d)) in
  let on := snd (set_enabled true (snd (set_enabled false shown))) in
  _enabled self = true /\ _notifier self = true
  /\ truthy (lit "T1") = true /\ _last_track_id self <> Some (lit "T1")
  /\ show_now_playing (lit "Song") (lit "Artist") [] None (Some (lit "T1")) on
     = (Ok false, on).
Proof.
  intros self d shown on.
  assert (Hl : _last_track_id self <> Some (lit "T1")) by discriminate.
  destruct (disabling_keeps_the_last_track self d (lit "T1") (lit "Song")
              (lit "Artist") [] None eq_refl eq_refl eq_refl Hl)
    as [_ [_ [_ H]]].
  do 3 (split; [reflexivity|]). split; [exact Hl | exact H].
Defined.






(** ** More on the startup registration *)

Lemma reg_get_set (name value : pystr) (k : registry_key) :
  reg_get name (reg_set name value k) = Some value.
Proof.
  induction k as [|[n v] k IH]; simpl.
  - rewrite str_eqb_refl; reflexivity.
  - destruct (str_eqb name n) eqn:E; simpl.
    + rewrite str_eqb_refl; reflexivity.
    + rewrite E; exact IH.
Qed.

Lemma reg_get_set_other (other name value : pystr) (k : registry_key) :
  other <> name -> reg_get other (reg_set name value k) = reg_get other k.
Proof.
  intros H. apply str_eqb_neq in H.
  induction k as [|[n v] k IH]; simpl.
  - rewrite H; reflexivity.
  - destruct (str_eqb name n) eqn:E; simpl.
    + apply str_eqb_eq in E; subst n. rewrite H; reflexivity.
    + destruct (str_eqb other n); [reflexivity | exact IH].
Qed.

Lemma reg_get_del_other (other name : pystr) (k : registry_key) :
  other <> name -> reg_get other (reg_del name k) = reg_get other k.
Proof.
  intros H. apply str_eqb_neq in H.
  induction k as [|[n v] k IH]; simpl; [reflexivity|].
  destruct (str_eqb name n) eqn:E; simpl.
  - apply str_eqb_eq in E; subst n. rewrite H; exact IH.
  - destruct (str_eqb other n); [reflexivity | exact IH].
Qed.

Lemma reg_set_set (name value : pystr) (k : registry_key) :
  reg_set name value (reg_set name value k) = reg_set name value k.
Proof.
  induction k as [|[n v] k IH]; simpl.
  - rewrite str_eqb_refl; reflexivity.
  - destruct (str_eqb name n) eqn:E; simpl.
    + rewrite str_eqb_refl; reflexivity.
    + rewrite E, IH; reflexivity.
Qed.

Lemma startup_command_truthy (d : Desktop) (cmd : pystr) :
  get_startup_command d = Some cmd -> truthy cmd = true.
Proof.
  unfold get_startup_command.
  destruct (sys_frozen d); [|destruct (path_exists (main_script d) d)];
    intros H; inversion H; reflexivity.
Qed.

(** X18.  Enabling the autostart on Windows, with the [Run] key open
    for writing and the command known, stores the command under the
    name of the application and answers [True]; [is_startup_enabled]
    is true afterwards when the key can be read (and false, after
    logging the refusal, when it cannot), and enabling once more leaves
    the key as it is. *)
Theorem enabling_startup_registers_the_command :
  forall (d : Desktop) (k : registry_key) (cmd : pystr),
    IS_WINDOWS d = true ->
    run_key d = Some k ->
    granted KEY_SET_VALUE d = true ->
    get_startup_command d = Some cmd ->
    let enabled := set_startup_enabled true d in
    fst enabled = Ok true
    /\ run_key (snd enabled) = Some (reg_set _APP_NAME cmd k)
    /\ reg_get _APP_NAME (reg_set _APP_NAME cmd k) = Some cmd
    /\ fst (is_startup_enabled (snd enabled)) = Ok (granted KEY_READ d)
    /\ fst (set_startup_enabled true (snd enabled)) = Ok true
    /\ run_key (snd (set_startup_enabled true (snd enabled)))
       = run_key (snd enabled).
Proof.
  intros d k cmd Hw Hk Hg Hc enabled. unfold enabled. clear enabled.
  pose proof (startup_command_truthy d cmd Hc) as Ht.
  destruct d as [w sdk toast app fault cf nf x fs ths rk sam fr ex ms lg].
  unfold granted in Hg.
  cbn [IS_WINDOWS run_key run_key_access] in Hw, Hk, Hg; subst w rk.
  unfold get_startup_command, path_exists in Hc.
  cbn [sys_frozen files main_script sys_executable] in Hc.
  run_registry. rewrite Hg.
  unfold get_startup_command, path_exists.
  cbn [sys_frozen files main_script sys_executable].
  rewrite Hc, Ht.
  cbn [fst snd IS_WINDOWS HAS_WINSDK HAS_WIN10TOAST app_id_hresult setup_fault
       controls_fault notifier_fault smtc files threads run_key run_key_access
       sys_frozen sys_executable main_script log with_run_key with_log].
  rewrite Hg.
  cbn [fst snd IS_WINDOWS HAS_WINSDK HAS_WIN10TOAST app_id_hresult setup_fault
       controls_fault notifier_fault smtc files threads run_key run_key_access
       sys_frozen sys_executable main_script log with_run_key with_log].
  rewrite Hc, Ht.
  cbn [fst snd run_key with_run_key with_log].
  rewrite reg_set_set.
  destruct (N.land KEY_READ sam =? KEY_READ);
    cbn [fst snd run_key with_run_key with_log];
    rewrite ?reg_get_set; repeat split; apply reg_get_set.
Qed.

Lemma enabling_startup_witness :
  let d := Samples.desktop None (Some [(lit "OneDrive", lit "onedrive.exe")]) in
  IS_WINDOWS d = true
  /\ run_key d = Some [(lit "OneDrive", lit "onedrive.exe")]
  /\ granted KEY_SET_VALUE d = true
  /\ get_startup_command d
     = Some (DQUOTE :: lit "C:\HighTide\high-tide.exe" ++ [DQUOTE])
  /\ run_key (snd (set_startup_enabled true d))
     = Some [(lit "OneDrive", lit "onedrive.exe");
             (lit "HighTide",
              DQUOTE :: lit "C:\HighTide\high-tide.exe" ++ [DQUOTE])]
  /\ fst (is_startup_enabled (snd (set_startup_enabled true d))) = Ok true.
Proof.
  intros d.
  destruct (enabling_startup_registers_the_command d _ _ eq_refl eq_refl eq_refl
              eq_refl)
    as [_ [H2 [_ [H4 _]]]].
  do 4 (split; [reflexivity|]). split; [exact H2 | exact H4].
Defined.

(** X19.  Run from source with a script that cannot be found, the
    command is not known: with the [Run] key open for writing, enabling
    answers [False], logs an error and writes nothing. *)
Theorem enabling_startup_needs_the_program :
  forall (d : Desktop) (k : registry_key),
    IS_WINDOWS d = true ->
    run_key d = Some k ->
    granted KEY_SET_VALUE d = true ->
    sys_frozen d = false ->
    path_exists (main_script d) d = false ->
    set_startup_enabled true d
    = (Ok false,
       with_log (log d ++ [Log ERROR
          "Could not determine executable path for startup"]) d).
Proof.
  intros d k Hw Hk Hg Hf Hp.
  destruct d as [w sdk toast app fault cf nf x fs ths rk sam fr ex ms lg].
  unfold granted in Hg.
  cbn [IS_WINDOWS run_key run_key_access sys_frozen] in Hw, Hk, Hg, Hf.
  subst w rk fr.
  unfold path_exists in Hp. cbn [files main_script] in Hp.
  run_registry. rewrite Hg. unfold get_startup_command, path_exists.
  cbn [sys_frozen files main_script sys_executable]. rewrite Hp. reflexivity.
Qed.

Lemma enabling_startup_needs_the_program_witness :
  let d :=
    {| IS_WINDOWS := true; HAS_WINSDK := true; HAS_WIN10TOAST := true;
       app_id_hresult := Some 0;
       setup_fault := None; controls_fault := false; notifier_fault := false;
       smtc := Samples.idle_smtc; files := []; threads := [];
       run_key := Some []; run_key_access := KEY_ALL_ACCESS;
       sys_frozen := false;
       sys_executable := lit "C:\Python\python.exe";
       main_script := lit "C:\HighTide\main.py"; log := [] |} in
  IS_WINDOWS d = true /\ run_key d = Some []
  /\ granted KEY_SET_VALUE d = true /\ sys_frozen d = false
  /\ path_exists (main_script d) d = false
  /\ fst (set_startup_enabled true d) = Ok false
  /\ run_key (snd (set_startup_enabled true d)) = Some [].
Proof.
  intros d.
  pose proof (enabling_startup_needs_the_program d [] eq_refl eq_refl eq_refl
                eq_refl eq_refl) as H.
  do 5 (split; [reflexivity|]). rewrite H. split; reflexivity.
Defined.

(** X20.  Neither call raises, [is_startup_enabled] writes nothing, and
    [set_startup_enabled] touches no value of the [Run] key but the one
    under the name of the application; it neither creates nor removes
    the key. *)
Theorem startup_calls_leave_other_values :
  forall (d : Desktop) (enabled : bool),
    (exists answer, fst (is_startup_enabled d) = Ok answer)
    /\ run_key (snd (is_startup_enabled d)) = run_key d
    /\ (exists answer, fst (set_startup_enabled enabled d) = Ok answer)
    /\ match run_key d, run_key (snd (set_startup_enabled enabled d)) with
       | Some before, Some after =>
           forall name, name <> _APP_NAME ->
                        reg_get name after = reg_get name before
       | None, None => True
       | _, _ => False
       end.
Proof.
  intros d enabled.
  destruct d as [w sdk toast app fault cf nf x fs ths rk sam fr ex ms lg].
  destruct w.
  2:{ split; [eexists; reflexivity|]. split; [reflexivity|].
      split; [eexists; reflexivity|]. cbn. destruct rk; auto. }
  destruct rk as [k|].
  2:{ split; [eexists; reflexivity|]. split; [reflexivity|].
      split; [eexists; reflexivity|]. exact I. }
  split.
  { run_registry. destruct (N.land KEY_READ sam =? KEY_READ);
      [|eexists; reflexivity].
    destruct (reg_get _APP_NAME k); eexists; reflexivity. }
  split.
  { run_registry. destruct (N.land KEY_READ sam =? KEY_READ); [|reflexivity].
    destruct (reg_get _APP_NAME k); reflexivity. }
  destruct enabled.
  - run_registry.
    destruct (N.land KEY_SET_VALUE sam =? KEY_SET_VALUE);
      [|cbn [fst snd run_key with_run_key with_log];
        split; [eexists; reflexivity | reflexivity]].
    destruct (get_startup_command _) as [cmd|]; [destruct (truthy cmd)|];
      cbn [fst snd run_key with_run_key with_log];
      (split; [eexists; reflexivity|]); intros name Hn;
      [apply reg_get_set_other; exact Hn | reflexivity | reflexivity].
  - run_registry.
    destruct (N.land KEY_SET_VALUE sam =? KEY_SET_VALUE);
      [|cbn [fst snd run_key with_run_key with_log];
        split; [eexists; reflexivity | reflexivity]].
    destruct (reg_get _APP_NAME k) eqn:E;
      cbn [fst snd run_key with_run_key with_log];
      (split; [eexists; reflexivity|]); intros name Hn;
      [apply reg_get_del_other; exact Hn | reflexivity].
Qed.

(** X21.  The startup command is the executable path between two double
    quotes.  Run from source, [get_executable_path] hands back the
    interpreter and the script with a quote, a space and a quote between
    them, so that the two outer quotes complete the command. No path is
    known exactly when the program is not frozen and its script does not
    exist. *)
Theorem startup_command_quotes_the_executable_path :
  forall d : Desktop,
    get_startup_command d
    = option_map (fun path => DQUOTE :: path ++ [DQUOTE]) (get_executable_path d)
    /\ (get_executable_path d = None
        <-> sys_frozen d = false /\ path_exists (main_script d) d = false)
    /\ (sys_frozen d = true -> get_executable_path d = Some (sys_executable d)).
Proof.
  intros d. unfold get_startup_command, get_executable_path.
  destruct (sys_frozen d); [|destruct (path_exists (main_script d) d)];
    cbn [option_map].
  - split; [reflexivity|]. split; [|reflexivity].
    split; [discriminate | intros [H _]; discriminate H].
  - split; [rewrite <- !app_assoc; reflexivity|]. split; [|discriminate].
    split; [discriminate | intros [_ H]; discriminate H].
  - split; [reflexivity|]. split; [|discriminate]. split; auto.
Qed.

(** ** The tray icon *)


Lemma update_nth_twice (i : nat) (f : TrayIcon.Icon -> TrayIcon.Icon)
    (l : list TrayIcon.Icon) :
  (forall x, f (f x) = f x) ->
  TrayIcon.update_nth i f (TrayIcon.update_nth i f l) = TrayIcon.update_nth i f l.
Proof.
  intros Hf. revert i; induction l as [|y l IH]; intros [|i]; simpl;
    try reflexivity.
  - rewrite Hf; reflexivity.
  - rewrite IH; reflexivity.
Qed.

Lemma update_nth_nth (i : nat) (f : TrayIcon.Icon -> TrayIcon.Icon)
    (l : list TrayIcon.Icon) (j : nat) :
  nth_error (TrayIcon.update_nth i f l) j
  = if Nat.eqb i j then option_map f (nth_error l j) else nth_error l j.
Proof.
  revert i j; induction l as [|y l IH]; intros [|i] [|j]; simpl;
    try reflexivity.
  - destruct (Nat.eqb _ _); reflexivity.
  - apply IH.
Qed.

Ltac run_tray :=
  cbv beta iota zeta delta
    [TrayIcon.start TrayIcon.stop TrayIcon.update_state
     TrayIcon._load_icon_image TrayIcon.default_image TrayIcon._on_quit_clicked
     TrayIcon.logger TrayIcon.update_self TrayIcon.on_icon
     TrayIcon.set_icon TrayIcon.set_thread TrayIcon.set_track
     TrayIcon.with_icons TrayIcon.with_log TrayIcon.path_exists
     TrayIcon._icon TrayIcon._thread TrayIcon._is_playing
     TrayIcon._current_title TrayIcon._current_artist
     TrayIcon.HAS_PYSTRAY TrayIcon.has_cairosvg TrayIcon.svg_fault
     TrayIcon.open_fault TrayIcon.icon_fault TrayIcon.title_fault
     TrayIcon.stop_fault TrayIcon.files TrayIcon.icons TrayIcon.log
     try_except bind get_state ret raise modify fst snd negb].


(** X23.  [update_state] never raises.  It records the three values in
    the object, with "High Tide" standing in for an empty title, so the
    title kept in the object is never empty and the play/pause entry of
    the menu reads "Pause" exactly while playing.  Without an icon the
    shell is not touched; with one, only the tooltip of that icon is
    written.  Calling it a second time with the same values changes
    nothing. *)
Theorem tray_update_state_is_idempotent :
  forall (self : TrayIcon.WindowsTrayIcon) (h : TrayIcon.Shell)
         (is_playing : bool) (title artist : pystr),
    let updated := TrayIcon.update_state is_playing title artist (self, h) in
    fst updated = Ok tt
    /\ fst (snd updated)
       = TrayIcon.set_track is_playing
           (if truthy title then title else lit "High Tide") artist self
    /\ TrayIcon._current_title (fst (snd updated)) <> []
    /\ nth_error (TrayIcon.menu (fst (snd updated))) 2
       = Some (Some (if is_playing then lit "Pause" else lit "Play"))
    /\ (TrayIcon._icon self = None -> snd (snd updated) = h)
    /\ (forall i, TrayIcon._icon self = Some i ->
          TrayIcon.title_fault h = false ->
          forall j,
            nth_error (TrayIcon.icons (snd (snd updated))) j
            = if Nat.eqb i j
              then option_map
                     (TrayIcon.set_title
                        (TrayIcon.tooltip is_playing title artist))
                     (nth_error (TrayIcon.icons h) j)
              else nth_error (TrayIcon.icons h) j)
    /\ TrayIcon.update_state is_playing title artist (snd updated) = updated.
Proof.
  intros self h is_playing title artist updated. unfold updated. clear updated.
  destruct self as [ic thr pl ct ca].
  destruct h as [py cairo svgf openf iconf titlef stopf fs ics lg].
  pose proof (update_nth_twice) as Htwice.
  destruct ic as [i|]; [destruct titlef|]; run_tray;
    (split; [reflexivity|]); (split; [reflexivity|]);
    (split; [destruct (truthy title) eqn:E;
             [destruct title; [discriminate E | discriminate] | discriminate]|]);
    (split; [reflexivity|]);
    (split; [first [discriminate | reflexivity]|]).
  - split; [intros i0 _ H; discriminate H | reflexivity].
  - split.
    + intros i0 Hi _ j. injection Hi as <-. apply update_nth_nth.
    + rewrite Htwice by reflexivity. reflexivity.
  - split; [intros i0 H; discriminate H | reflexivity].
Qed.

(** X24.  [stop] never raises and can be called at any time.  Without an
    icon it does nothing at all.  With one it calls [stop()] on it,
    forgets it even when that call raised, and logs; a second [stop]
    then finds nothing to do.  A click on "Quit" stops the icon first:
    the quit callback runs in the state [stop] left. *)
Theorem tray_stop_is_tolerant :
  forall (self : TrayIcon.WindowsTrayIcon) (h : TrayIcon.Shell),
    let stopped := TrayIcon.stop (self, h) in
    fst stopped = Ok tt
    /\ TrayIcon._icon (fst (snd stopped)) = None
    /\ (TrayIcon._icon self = None -> stopped = (Ok tt, (self, h)))
    /\ (forall i, TrayIcon._icon self = Some i ->
          TrayIcon.icons (snd (snd stopped))
          = if TrayIcon.stop_fault h then TrayIcon.icons h
            else TrayIcon.update_nth i TrayIcon.set_stopped (TrayIcon.icons h))
    /\ TrayIcon.stop (snd stopped) = (Ok tt, snd stopped)
    /\ forall callbacks : TrayIcon.Callbacks,
         TrayIcon._on_quit_clicked callbacks (self, h)
         = TrayIcon.on_quit callbacks (snd stopped).
Proof.
  intros self h stopped. unfold stopped. clear stopped.
  destruct self as [ic thr pl ct ca].
  destruct h as [py cairo svgf openf iconf titlef stopf fs ics lg].
  destruct ic as [i|]; [destruct stopf|]; run_tray;
    (split; [reflexivity|]); (split; [reflexivity|]);
    (split; [first [discriminate | reflexivity]|]);
    (split; [first [intros i0 H; discriminate H
                   | intros i0 H; injection H as <-; reflexivity]|]);
    (split; [reflexivity|]); intros callbacks; reflexivity.
Qed.

(** ** The protocol handler *)

(** *** Keys and paths *)

Lemma regkey_induction (P : Protocol.regkey -> Prop) :
  (forall vs subs, Forall (fun entry => P (snd entry)) subs ->
                   P (Protocol.Key vs subs)) ->
  forall k, P k.
Proof.
  intros H. fix IH 1. intros [vs subs]. apply H.
  induction subs as [|[n c] subs IHs]; constructor; [apply IH | exact IHs].
Qed.

Lemma size_Key (vs : registry_key) (subs : list (pystr * Protocol.regkey)) :
  Protocol.size (Protocol.Key vs subs) = S (Protocol.sizes subs).
Proof.
  unfold Protocol.sizes. cbn [Protocol.size]. f_equal.
  induction subs as [|[n c] subs IH]; [reflexivity|].
  cbn [map list_sum snd]. rewrite IH. reflexivity.
Qed.

Lemma size_positive (k : Protocol.regkey) : (1 <= Protocol.size k)%nat.
Proof. destruct k; rewrite size_Key; lia. Qed.

Lemma sub_get_update (n : pystr) (f : Protocol.regkey -> Protocol.regkey)
    (subs : list (pystr * Protocol.regkey)) :
  Protocol.sub_get n (Protocol.sub_update n f subs)
  = option_map f (Protocol.sub_get n subs).
Proof.
  induction subs as [|[m c] subs IH]; simpl; [reflexivity|].
  destruct (str_eqb n m) eqn:E; simpl; rewrite E; [reflexivity | exact IH].
Qed.

Lemma sub_update_ext (n : pystr) (f g : Protocol.regkey -> Protocol.regkey)
    (subs : list (pystr * Protocol.regkey)) :
  (forall c, Protocol.sub_get n subs = Some c -> f c = g c) ->
  Protocol.sub_update n f subs = Protocol.sub_update n g subs.
Proof.
  induction subs as [|[m c] subs IH]; simpl; [reflexivity|].
  destruct (str_eqb n m); intros H.
  - rewrite (H c eq_refl); reflexivity.
  - rewrite (IH H); reflexivity.
Qed.

Lemma sub_update_update (n : pystr) (f g : Protocol.regkey -> Protocol.regkey)
    (subs : list (pystr * Protocol.regkey)) :
  Protocol.sub_update n g (Protocol.sub_update n f subs)
  = Protocol.sub_update n (fun c => g (f c)) subs.
Proof.
  induction subs as [|[m c] subs IH]; simpl; [reflexivity|].
  destruct (str_eqb n m) eqn:E; simpl; rewrite E; [reflexivity|].
  rewrite IH; reflexivity.
Qed.

Lemma sub_del_update (n : pystr) (f : Protocol.regkey -> Protocol.regkey)
    (subs : list (pystr * Protocol.regkey)) :
  Protocol.sub_del n (Protocol.sub_update n f subs) = Protocol.sub_del n subs.
Proof.
  induction subs as [|[m c] subs IH]; simpl; [reflexivity|].
  destruct (str_eqb n m) eqn:E; simpl; rewrite E; [reflexivity|].
  rewrite IH; reflexivity.
Qed.

Lemma lookup_in_app (p q : list pystr) (k : Protocol.regkey) :
  Protocol.lookup_in (p ++ q) k
  = match Protocol.lookup_in p k with
    | Some c => Protocol.lookup_in q c
    | None => None
    end.
Proof.
  revert k; induction p as [|n p IH]; intros k; simpl; [reflexivity|].
  destruct (Protocol.sub_get n (Protocol.subkeys k)); [apply IH | reflexivity].
Qed.

Lemma lookup_modify_in (p : list pystr) (f : Protocol.regkey -> Protocol.regkey)
    (k : Protocol.regkey) :
  Protocol.lookup_in p (Protocol.modify_in p f k)
  = option_map f (Protocol.lookup_in p k).
Proof.
  revert k; induction p as [|n p IH]; intros k; simpl; [reflexivity|].
  rewrite sub_get_update.
  destruct (Protocol.sub_get n (Protocol.subkeys k)); simpl;
    [apply IH | reflexivity].
Qed.

Lemma modify_in_ext (p : list pystr) (f g : Protocol.regkey -> Protocol.regkey)
    (k : Protocol.regkey) :
  (forall c, Protocol.lookup_in p k = Some c -> f c = g c) ->
  Protocol.modify_in p f k = Protocol.modify_in p g k.
Proof.
  revert k; induction p as [|n p IH]; intros k H; simpl.
  - apply H; reflexivity.
  - f_equal. apply sub_update_ext. intros c Hc. apply IH.
    intros c' Hc'. apply H. simpl. rewrite Hc. exact Hc'.
Qed.

Lemma modify_in_modify_in (p : list pystr)
    (f g : Protocol.regkey -> Protocol.regkey) (k : Protocol.regkey) :
  Protocol.modify_in p g (Protocol.modify_in p f k)
  = Protocol.modify_in p (fun c => g (f c)) k.
Proof.
  revert k; induction p as [|n p IH]; intros k; simpl; [reflexivity|].
  f_equal. rewrite sub_update_update. apply sub_update_ext.
  intros c _. apply IH.
Qed.

Lemma modify_in_app (p q : list pystr) (f : Protocol.regkey -> Protocol.regkey)
    (k : Protocol.regkey) :
  Protocol.modify_in (p ++ q) f k
  = Protocol.modify_in p (Protocol.modify_in q f) k.
Proof.
  revert k; induction p as [|n p IH]; intros k; simpl; [reflexivity|].
  f_equal. apply sub_update_ext. intros c _. apply IH.
Qed.

Lemma modify_in_id (p : list pystr) (f : Protocol.regkey -> Protocol.regkey)
    (k : Protocol.regkey) :
  (forall c, Protocol.lookup_in p k = Some c -> f c = c) ->
  Protocol.modify_in p f k = k.
Proof.
  revert k; induction p as [|n p IH]; intros [vs subs] H; simpl.
  - apply H; reflexivity.
  - f_equal. simpl in H.
    induction subs as [|[m c] subs IHs]; simpl; [reflexivity|].
    simpl in H. destruct (str_eqb n m).
    + rewrite IH by exact H. reflexivity.
    + rewrite IHs by exact H. reflexivity.
Qed.

Lemma remove_snoc (q : list pystr) (n : pystr) (root : option Protocol.regkey) :
  Protocol.remove (q ++ [n]) root
  = Protocol.modify_at q
      (fun k => Protocol.Key (Protocol.values k)
                  (Protocol.sub_del n (Protocol.subkeys k))) root.
Proof.
  unfold Protocol.remove.
  destruct (q ++ [n]) eqn:E; [destruct q; discriminate E|].
  rewrite <- E, removelast_last, last_last. reflexivity.
Qed.

(** Deleting a key that has just lost its subkeys is deleting the key. *)
Lemma remove_emptied (p : list pystr) (g : Protocol.regkey -> Protocol.regkey)
    (root : option Protocol.regkey) :
  Protocol.remove p (Protocol.modify_at p g root) = Protocol.remove p root.
Proof.
  destruct p as [|m p']; [reflexivity|].
  destruct (exists_last (l := m :: p') ltac:(discriminate)) as [q [n E]].
  rewrite E, !remove_snoc. unfold Protocol.modify_at.
  destruct root as [k|]; [|reflexivity]. cbn [option_map]. f_equal.
  rewrite modify_in_app, modify_in_modify_in. apply modify_in_ext.
  intros c _. cbn [Protocol.modify_in Protocol.values Protocol.subkeys].
  rewrite sub_del_update. reflexivity.
Qed.

(** *** Deleting a tree *)

Ltac run_winreg :=
  cbv beta iota zeta delta
    [Protocol.wtry Protocol.wbind Protocol.wret Protocol.wraise
     Protocol.OpenKey Protocol.EnumKey Protocol.DeleteKey Protocol.CreateKey
     Protocol.SetValueEx Protocol.writes Protocol.is_OSError
     Protocol.is_FileNotFound Protocol.tidal Protocol.read_only
     Protocol.with_tidal andb].

Lemma delete_subkeys_empties (vs : registry_key)
    (subs : list (pystr * Protocol.regkey)) :
  Forall (fun entry => Protocol.deletes (snd entry)) subs ->
  forall (fuel : nat) (root : option Protocol.regkey) (p : list pystr),
    Protocol.lookup p root = Some (Protocol.Key vs subs) ->
    (2 * Protocol.sizes subs + 1 <= fuel)%nat ->
    Protocol.delete_subkeys fuel p
      {| Protocol.tidal := root; Protocol.read_only := false |}
    = (inl tt,
       {| Protocol.tidal :=
            Protocol.modify_at p (fun _ => Protocol.Key vs []) root;
          Protocol.read_only := false |}).
Proof.
  induction 1 as [|[n c] subs Hc Hsubs IH]; intros fuel root p Hl Hf.
  - destruct fuel as [|fuel]; [lia|].
    cbn [Protocol.delete_subkeys]. run_winreg. rewrite Hl.
    cbn [Protocol.subkeys nth_error].
    destruct root as [k|]; [|discriminate Hl].
    unfold Protocol.modify_at. cbn [option_map].
    rewrite modify_in_id; [reflexivity|].
    intros c Hc. cbn [Protocol.lookup] in Hl. congruence.
  - destruct fuel as [|fuel]; [lia|].
    change (Protocol.sizes ((n, c) :: subs))
      with (Protocol.size c + Protocol.sizes subs)%nat in Hf.
    pose proof (size_positive c) as Hpos.
    cbn [Protocol.delete_subkeys]. run_winreg. rewrite Hl.
    cbn [Protocol.subkeys nth_error].
    assert (Hchild : Protocol.lookup (p ++ [n]) root = Some c).
    { destruct root as [k|]; [|discriminate Hl]. cbn [Protocol.lookup] in *.
      rewrite lookup_in_app, Hl. cbn [Protocol.lookup_in Protocol.subkeys
                                       Protocol.sub_get].
      rewrite str_eqb_refl. reflexivity. }
    cbn [snd] in Hc. rewrite (Hc fuel root (p ++ [n]) Hchild) by lia.
    rewrite remove_snoc.
    assert (Hrest : Protocol.lookup p
                      (Protocol.modify_at p
                         (fun k => Protocol.Key (Protocol.values k)
                                     (Protocol.sub_del n (Protocol.subkeys k)))
                         root)
                    = Some (Protocol.Key vs subs)).
    { destruct root as [k|]; [|discriminate Hl].
      cbn [Protocol.lookup Protocol.modify_at option_map] in *.
      rewrite lookup_modify_in, Hl.
      cbn [option_map Protocol.values Protocol.subkeys Protocol.sub_del].
      rewrite str_eqb_refl. reflexivity. }
    rewrite (IH fuel _ p Hrest) by lia.
    f_equal. f_equal. unfold Protocol.modify_at.
    destruct root as [k|]; [|reflexivity]. cbn [option_map]. f_equal.
    apply modify_in_modify_in.
Qed.

Lemma every_key_deletes (c : Protocol.regkey) : Protocol.deletes c.
Proof.
  induction c as [vs subs IH] using regkey_induction.
  intros fuel root p Hl Hf. rewrite size_Key in Hf.
  destruct fuel as [|fuel]; [lia|].
  cbn [Protocol.delete_key_recursive].
  unfold Protocol.wtry, Protocol.wbind at 1.
  unfold Protocol.OpenKey at 1. cbn [Protocol.tidal Protocol.read_only].
  rewrite Hl. cbn [Protocol.writes andb].
  unfold Protocol.wbind.
  rewrite (delete_subkeys_empties vs subs IH fuel root p Hl) by lia.
  unfold Protocol.DeleteKey. cbn [Protocol.tidal Protocol.read_only].
  assert (Hnow : Protocol.lookup p
                   (Protocol.modify_at p (fun _ => Protocol.Key vs []) root)
                 = Some (Protocol.Key vs [])).
  { destruct root as [k|]; [|discriminate Hl].
    cbn [Protocol.lookup Protocol.modify_at option_map] in *.
    rewrite lookup_modify_in, Hl. reflexivity. }
  rewrite Hnow. cbn [Protocol.subkeys Protocol.with_tidal Protocol.read_only].
  rewrite remove_emptied. reflexivity.
Qed.

Lemma sub_get_ensure (n : pystr) (f : Protocol.regkey -> Protocol.regkey)
    (subs : list (pystr * Protocol.regkey)) :
  Protocol.sub_get n (Protocol.sub_ensure n f subs)
  = Some (f (match Protocol.sub_get n subs with
             | Some c => c
             | None => Protocol.Key [] []
             end)).
Proof.
  induction subs as [|[m c] subs IH]; simpl.
  - rewrite str_eqb_refl; reflexivity.
  - destruct (str_eqb n m) eqn:E; simpl; rewrite E; [reflexivity | exact IH].
Qed.

Lemma sub_get_ensure_other (n m : pystr) (f : Protocol.regkey -> Protocol.regkey)
    (subs : list (pystr * Protocol.regkey)) :
  n <> m ->
  Protocol.sub_get n (Protocol.sub_ensure m f subs) = Protocol.sub_get n subs.
Proof.
  intros H. apply str_eqb_neq in H.
  induction subs as [|[x c] subs IH]; simpl.
  - rewrite H; reflexivity.
  - destruct (str_eqb m x) eqn:E; simpl.
    + apply str_eqb_eq in E; subst x. rewrite H; reflexivity.
    + destruct (str_eqb n x); [reflexivity | exact IH].
Qed.

Lemma sub_get_update_other (n m : pystr) (f : Protocol.regkey -> Protocol.regkey)
    (subs : list (pystr * Protocol.regkey)) :
  n <> m ->
  Protocol.sub_get n (Protocol.sub_update m f subs) = Protocol.sub_get n subs.
Proof.
  intros H. apply str_eqb_neq in H.
  induction subs as [|[x c] subs IH]; simpl; [reflexivity|].
  destruct (str_eqb m x) eqn:E; simpl.
  - apply str_eqb_eq in E; subst x. rewrite H; reflexivity.
  - destruct (str_eqb n x); [reflexivity | exact IH].
Qed.

Lemma command_of_quotes (d : Desktop) (executable : pystr) :
  get_executable_path d = Some executable ->
  Protocol.command_of executable d
  = DQUOTE :: executable ++ DQUOTE :: 32 :: DQUOTE :: lit "%1" ++ [DQUOTE].
Proof.
  unfold get_executable_path, Protocol.command_of.
  destruct (sys_frozen d); [reflexivity|].
  destruct (path_exists (main_script d) d); [|discriminate].
  intros H; injection H as <-. rewrite <- !app_assoc. reflexivity.
Qed.

Lemma before_quote_app (s rest : pystr) :
  Protocol.before_quote (s ++ DQUOTE :: rest) = Protocol.before_quote s.
Proof.
  induction s as [|c s IH].
  - cbn [app Protocol.before_quote]. rewrite N.eqb_refl. reflexivity.
  - cbn [app Protocol.before_quote].
    destruct (c =? DQUOTE); [reflexivity | rewrite IH; reflexivity].
Qed.

Lemma before_quote_without (s : pystr) :
  existsb (N.eqb DQUOTE) s = false -> Protocol.before_quote s = s.
Proof.
  induction s as [|c s IH]; [reflexivity|].
  cbn [existsb Protocol.before_quote].
  rewrite (N.eqb_sym DQUOTE c). destruct (c =? DQUOTE); [discriminate|].
  cbn [orb]. intros H; rewrite (IH H); reflexivity.
Qed.

(** The icon is read from the interpreter or the frozen program. *)
Lemma icon_of_executable (d : Desktop) (executable : pystr) :
  get_executable_path d = Some executable ->
  Protocol.icon_of executable
  = Protocol.before_quote (sys_executable d) ++ lit ",0".
Proof.
  unfold get_executable_path, Protocol.icon_of.
  destruct (sys_frozen d).
  - intros H; injection H as <-.
    destruct (existsb (N.eqb DQUOTE) (sys_executable d)) eqn:E;
      [reflexivity | rewrite before_quote_without by exact E; reflexivity].
  - destruct (path_exists (main_script d) d); [|discriminate].
    intros H; injection H as <-.
    rewrite existsb_app. cbn [existsb app]. rewrite N.eqb_refl.
    cbn [orb]. rewrite orb_true_r. rewrite before_quote_app. reflexivity.
Qed.

Ltac run_protocol :=
  cbv beta iota zeta delta
    [Protocol.register_protocol_handler Protocol.unregister_protocol_handler
     Protocol.is_protocol_handler_registered Protocol.try_winreg
     Protocol.wtry Protocol.wbind Protocol.wret Protocol.wraise
     Protocol.OpenKey Protocol.CreateKey Protocol.SetValueEx
     Protocol.writes Protocol.is_OSError Protocol.is_FileNotFound
     Protocol.tidal Protocol.read_only Protocol.with_tidal
     Protocol.lookup Protocol.lookup_in
     logger bind get_state ret modify fst snd negb andb
     IS_WINDOWS log with_log].

(** X25.  Registering on Windows, with the registry writable and the
    executable known, answers [True] and leaves the key of the protocol
    with its two values, the icon under [DefaultIcon] and the command
    under [shell\open\command]; the handler then counts as registered.
    The command is the executable path between double quotes, followed
    by the quoted placeholder of the link. *)
Theorem register_writes_the_handler :
  forall (h : Protocol.Hive) (d : Desktop) (executable : pystr),
    IS_WINDOWS d = true ->
    Protocol.read_only h = false ->
    get_executable_path d = Some executable ->
    executable <> [] ->
    let registered := Protocol.register_protocol_handler (h, d) in
    let root := Protocol.tidal (fst (snd registered)) in
    fst registered = Ok true
    /\ Protocol.value_at [] [] root = Some (lit "URL:TIDAL Protocol")
    /\ Protocol.value_at [] (lit "URL Protocol") root = Some []
    /\ Protocol.value_at [lit "DefaultIcon"] [] root
       = Some (Protocol.before_quote (sys_executable d) ++ lit ",0")
    /\ Protocol.value_at [lit "shell"; lit "open"; lit "command"] [] root
       = Some (DQUOTE :: executable
               ++ DQUOTE :: 32 :: DQUOTE :: lit "%1" ++ [DQUOTE])
    /\ fst (Protocol.is_protocol_handler_registered (snd registered)) = Ok true.
Proof.
  intros h d executable Hw Hr He Hne registered root.
  unfold root, registered. clear root registered.
  pose proof (command_of_quotes d executable He) as Hcmd.
  rewrite <- (icon_of_executable d executable He).
  assert (Ht : truthy executable = true)
    by (destruct executable; [contradiction | reflexivity]).
  destruct h as [tree ro]. simpl in Hr; subst ro.
  destruct d as [w sdk toast app fault cf nf x fs ths rk sam fr ex ms lg].
  simpl in Hw; subst w.
  unfold Protocol.register_protocol_handler, bind, get_state.
  cbn [IS_WINDOWS negb]. rewrite He, Ht. cbn [negb].
  rewrite Hcmd.
  assert (Hd : lit "DefaultIcon" <> lit "shell") by discriminate.
  assert (Hs : lit "shell" <> lit "DefaultIcon") by discriminate.
  assert (Hu : ([] : pystr) <> lit "URL Protocol") by discriminate.
  unfold Protocol.value_at.
  run_protocol.
  unfold Protocol.modify_at, Protocol.create.
  set (k0 := match tree with Some k => k | None => Protocol.Key [] [] end).
  cbn [option_map Protocol.create_in Protocol.modify_in Protocol.values
       Protocol.subkeys Protocol.lookup_in fst snd].
  rewrite ?sub_get_update, ?sub_get_ensure, ?sub_get_update_other,
    ?sub_get_ensure_other by assumption.
  cbn [option_map Protocol.create_in Protocol.modify_in Protocol.values
       Protocol.subkeys Protocol.lookup_in fst snd].
  rewrite ?sub_get_update, ?sub_get_ensure, ?sub_get_update_other,
    ?sub_get_ensure_other by assumption.
  cbn [option_map Protocol.create_in Protocol.modify_in Protocol.values
       Protocol.subkeys Protocol.lookup_in fst snd].
  rewrite ?sub_get_update, ?sub_get_ensure, ?sub_get_update_other,
    ?sub_get_ensure_other by assumption.
  cbn [option_map Protocol.create_in Protocol.modify_in Protocol.values
       Protocol.subkeys Protocol.lookup_in fst snd].
  split; [reflexivity|].
  change (lit "") with ([] : pystr).
  rewrite (reg_get_set_other [] (lit "URL Protocol")) by exact Hu.
  rewrite !reg_get_set. repeat split.
Qed.

Lemma register_writes_the_handler_witness :
  let h := {| Protocol.tidal := None; Protocol.read_only := false |} in
  let d := Samples.desktop None None in
  let registered := Protocol.register_protocol_handler (h, d) in
  IS_WINDOWS d = true /\ Protocol.read_only h = false
  /\ get_executable_path d = Some (lit "C:\HighTide\high-tide.exe")
  /\ lit "C:\HighTide\high-tide.exe" <> []
  /\ fst registered = Ok true
  /\ Protocol.value_at [lit "DefaultIcon"] []
       (Protocol.tidal (fst (snd registered)))
     = Some (lit "C:\HighTide\high-tide.exe,0")
  /\ fst (Protocol.is_protocol_handler_registered (snd registered)) = Ok true.
Proof.
  intros h d registered.
  assert (Hne : lit "C:\HighTide\high-tide.exe" <> []) by discriminate.
  destruct (register_writes_the_handler h d _ eq_refl eq_refl eq_refl Hne)
    as [H1 [_ [_ [H4 [_ H6]]]]].
  do 3 (split; [reflexivity|]). split; [exact Hne|].
  split; [exact H1|]. split; [exact H4 | exact H6].
Defined.

(** X26.  Registration fails closed.  Off Windows the three functions
    answer [False] and do nothing.  Without an executable path, and with
    a registry that refuses the write, [register_protocol_handler]
    answers [False], logs, and leaves the registry as it was. *)
Theorem register_fails_closed :
  forall (h : Protocol.Hive) (d : Desktop),
    (IS_WINDOWS d = false ->
     Protocol.register_protocol_handler (h, d) = (Ok false, (h, d))
     /\ Protocol.unregister_protocol_handler (h, d) = (Ok false, (h, d))
     /\ Protocol.is_protocol_handler_registered (h, d) = (Ok false, (h, d)))
    /\ (IS_WINDOWS d = true -> get_executable_path d = None ->
        Protocol.register_protocol_handler (h, d)
        = (Ok false,
           (h, with_log (log d ++ [Log ERROR
                 "Could not determine executable path for protocol registration"])
                 d)))
    /\ (IS_WINDOWS d = true -> Protocol.read_only h = true ->
        forall executable,
          get_executable_path d = Some executable -> executable <> [] ->
          Protocol.register_protocol_handler (h, d)
          = (Ok false,
             (h, with_log (log d ++ [Log EXCEPTION
                   "Failed to register protocol handler"]) d))).
Proof.
  intros h d. destruct h as [tree ro].
  destruct d as [w sdk toast app fault cf nf x fs ths rk sam fr ex ms lg].
  split; [|split].
  - intros Hw. simpl in Hw; subst w. repeat split.
  - intros Hw He. simpl in Hw; subst w.
    unfold Protocol.register_protocol_handler, bind, get_state.
    cbn [IS_WINDOWS negb]. rewrite He. reflexivity.
  - intros Hw Hr executable He Hne. simpl in Hw, Hr; subst w ro.
    assert (Ht : truthy executable = true)
      by (destruct executable; [contradiction | reflexivity]).
    unfold Protocol.register_protocol_handler, bind, get_state.
    cbn [IS_WINDOWS negb]. rewrite He, Ht. reflexivity.
Qed.

Lemma unregister_runs (h : Protocol.Hive) (d : Desktop) :
  IS_WINDOWS d = true ->
  Protocol.unregister_protocol_handler (h, d)
  = (if Protocol.read_only h
        && match Protocol.tidal h with Some _ => true | None => false end
     then (Ok false,
           (h, with_log (log d ++ [Log EXCEPTION
                 "Failed to unregister protocol handler"]) d))
     else (Ok true,
           (Protocol.with_tidal None h,
            with_log (log d ++ [Log INFO
               "Unregistered tidal:// protocol handler"]) d))).
Proof.
  intros Hw. destruct h as [tree ro].
  destruct d as [w sdk toast app fault cf nf x fs ths rk sam fr ex ms lg].
  simpl in Hw; subst w.
  unfold Protocol.unregister_protocol_handler, bind, get_state,
    Protocol.try_winreg.
  cbn [IS_WINDOWS negb Protocol.tidal Protocol.read_only].
  destruct tree as [k|].
  - destruct ro.
    + reflexivity.
    + rewrite (every_key_deletes k (S (2 * Protocol.size k)) (Some k) [])
        by (reflexivity || lia).
      reflexivity.
  - destruct ro; reflexivity.
Qed.

Lemma register_answers (h : Protocol.Hive) (d : Desktop) (executable : pystr) :
  IS_WINDOWS d = true ->
  Protocol.read_only h = false ->
  get_executable_path d = Some executable ->
  executable <> [] ->
  exists tree,
    Protocol.register_protocol_handler (h, d)
    = (Ok true,
       ({| Protocol.tidal := Some tree; Protocol.read_only := false |},
        with_log (log d ++ [Log INFO "Registered tidal:// protocol handler"])
                 d)).
Proof.
  intros Hw Hr He Hne.
  assert (Ht : truthy executable = true)
    by (destruct executable; [contradiction | reflexivity]).
  destruct h as [tree ro]. simpl in Hr; subst ro.
  destruct d as [w sdk toast app fault cf nf x fs ths rk sam fr ex ms lg].
  simpl in Hw; subst w.
  unfold Protocol.register_protocol_handler, bind, get_state.
  cbn [IS_WINDOWS negb]. rewrite He, Ht. eexists. reflexivity.
Qed.

(** X27.  Unregistering on Windows removes the key of the protocol with
    everything below it, however deep the tree is, and answers [True]; a
    key that is not there is no error.  The recursion limit is never
    met.  Only a registry that refuses write access to an existing key
    makes it answer [False], with the key left in place. *)
Theorem unregister_removes_the_whole_tree :
  forall (h : Protocol.Hive) (d : Desktop),
    IS_WINDOWS d = true ->
    let unregistered := Protocol.unregister_protocol_handler (h, d) in
    unregistered
    = (if Protocol.read_only h
          && match Protocol.tidal h with Some _ => true | None => false end
       then (Ok false,
             (h, with_log (log d ++ [Log EXCEPTION
                   "Failed to unregister protocol handler"]) d))
       else (Ok true,
             (Protocol.with_tidal None h,
              with_log (log d ++ [Log INFO
                 "Unregistered tidal:// protocol handler"]) d)))
    /\ (Protocol.read_only h = false ->
        fst (Protocol.is_protocol_handler_registered (snd unregistered))
        = Ok false).
Proof.
  intros h d Hw unregistered. unfold unregistered. clear unregistered.
  split; [exact (unregister_runs h d Hw)|].
  intros Hr. rewrite (unregister_runs h d Hw), Hr.
  destruct h as [tree ro].
  destruct d as [w sdk toast app fault cf nf x fs ths rk sam fr ex ms lg].
  simpl in Hw; subst w. reflexivity.
Qed.

Lemma unregister_removes_the_whole_tree_witness :
  let tree :=
    Protocol.Key [(lit "", lit "URL:TIDAL Protocol")]
      [(lit "shell",
        Protocol.Key []
          [(lit "open",
            Protocol.Key []
              [(lit "command", Protocol.Key [(lit "", lit "tidal.exe")] [])])]);
       (lit "DefaultIcon", Protocol.Key [(lit "", lit "tidal.exe,0")] [])] in
  let h := {| Protocol.tidal := Some tree; Protocol.read_only := false |} in
  let d := Samples.desktop None None in
  IS_WINDOWS d = true
  /\ fst (Protocol.is_protocol_handler_registered (h, d)) = Ok true
  /\ fst (Protocol.unregister_protocol_handler (h, d)) = Ok true
  /\ Protocol.tidal (fst (snd (Protocol.unregister_protocol_handler (h, d))))
     = None.
Proof.
  intros tree h d.
  destruct (unregister_removes_the_whole_tree h d eq_refl) as [H _].
  do 2 (split; [reflexivity|]). rewrite H. split; reflexivity.
Defined.

(** X28.  Registering and then unregistering leaves no key of the
    protocol, whatever was there before; on a registry without the key
    it gives back the registry it started from. *)
Theorem register_then_unregister :
  forall (h : Protocol.Hive) (d : Desktop) (executable : pystr),
    IS_WINDOWS d = true ->
    Protocol.read_only h = false ->
    get_executable_path d = Some executable ->
    executable <> [] ->
    let registered := Protocol.register_protocol_handler (h, d) in
    let unregistered := Protocol.unregister_protocol_handler (snd registered) in
    fst registered = Ok true
    /\ fst unregistered = Ok true
    /\ Protocol.tidal (fst (snd unregistered)) = None
    /\ (Protocol.tidal h = None -> fst (snd unregistered) = h)
    /\ fst (Protocol.is_protocol_handler_registered (snd unregistered))
       = Ok false.
Proof.
  intros h d executable Hw Hr He Hne registered unregistered.
  unfold unregistered, registered. clear unregistered registered.
  destruct (register_answers h d executable Hw Hr He Hne) as [tree Hreg].
  rewrite Hreg. cbn [fst snd].
  assert (Hw' : IS_WINDOWS
                  (with_log (log d ++ [Log INFO
                     "Registered tidal:// protocol handler"]) d) = true)
    by (destruct d; exact Hw).
  rewrite (unregister_runs _ _ Hw'). cbn [Protocol.read_only andb fst snd].
  split; [reflexivity|]. split; [reflexivity|]. split; [reflexivity|].
  split.
  - intros Hn. destruct h as [tree0 ro]. simpl in Hr, Hn. subst. reflexivity.
  - destruct d as [w sdk toast app fault cf nf x fs ths rk sam fr ex ms lg].
    simpl in Hw; subst w. reflexivity.
Qed.

Lemma register_then_unregister_witness :
  let h := {| Protocol.tidal := None; Protocol.read_only := false |} in
  let d := Samples.desktop None None in
  let registered := Protocol.register_protocol_handler (h, d) in
  IS_WINDOWS d = true /\ Protocol.read_only h = false
  /\ get_executable_path d = Some (lit "C:\HighTide\high-tide.exe")
  /\ lit "C:\HighTide\high-tide.exe" <> []
  /\ fst (snd (Protocol.unregister_protocol_handler (snd registered))) = h.
Proof.
  intros h d registered.
  assert (Hne : lit "C:\HighTide\high-tide.exe" <> []) by discriminate.
  destruct (register_then_unregister h d _ eq_refl eq_refl eq_refl Hne)
    as [_ [_ [_ [H4 _]]]].
  do 3 (split; [reflexivity|]). split; [exact Hne | exact (H4 eq_refl)].
Defined.

(** ** The GStreamer plugins *)

Lemma member_In (name : pystr) (names : list pystr) :
  Plugins.member name names = true <-> In name names.
Proof.
  unfold Plugins.member. rewrite existsb_exists. split.
  - intros [x [Hx E]]. apply str_eqb_eq in E. subst x. exact Hx.
  - intros H. exists name. split; [exact H | apply str_eqb_refl].
Qed.

Lemma missing_of_results (g : Plugins.Gst) (l : list (pystr * pystr)) :
  Forall (fun entry => fst entry = snd entry) l ->
  Plugins.missing_of (map (fun entry => (fst entry, Plugins.find (snd entry) g)) l)
  = filter (fun name => negb (Plugins.find name g)) (map fst l).
Proof.
  unfold Plugins.missing_of.
  induction 1 as [|[n e] l Hn Hl IH]; [reflexivity|].
  cbn [map filter fst snd] in *. subst e.
  destruct (Plugins.find n g); cbn [negb map]; rewrite IH; reflexivity.
Qed.

Lemma required_names_are_elements :
  Forall (fun entry : pystr * pystr => fst entry = snd entry)
         Plugins.required_plugins.
Proof. repeat constructor. Qed.

Lemma check_gstreamer_plugins_runs (g : Plugins.Gst) (d : Desktop) :
  IS_WINDOWS d = true ->
  Plugins.gst_fault g = false ->
  exists d',
    Plugins.check_gstreamer_plugins (g, d)
    = (Ok (map (fun entry => (fst entry, Plugins.find (snd entry) g))
               Plugins.required_plugins), (g, d')).
Proof.
  intros Hw Hf. destruct g as [gf fac]. simpl in Hf; subst gf.
  destruct d as [w sdk toast app fault cf nf x fs ths rk sam fr ex ms lg].
  simpl in Hw; subst w.
  unfold Plugins.check_gstreamer_plugins, bind, get_state, try_except.
  cbn [IS_WINDOWS negb Plugins.gst_fault ret].
  destruct (Plugins.missing_of _); eexists; reflexivity.
Qed.

Lemma check_gstreamer_plugins_gives_up (g : Plugins.Gst) (d : Desktop) :
  IS_WINDOWS d = false \/ Plugins.gst_fault g = true ->
  exists d', Plugins.check_gstreamer_plugins (g, d) = (Ok [], (g, d')).
Proof.
  intros H. destruct g as [gf fac].
  destruct d as [w sdk toast app fault cf nf x fs ths rk sam fr ex ms lg].
  destruct w; [|eexists; reflexivity].
  destruct H as [H|H]; [discriminate H|]. simpl in H; subst gf.
  eexists; reflexivity.
Qed.

Lemma get_missing_plugins_message_runs (g : Plugins.Gst) (d d' : Desktop)
    (results : list (pystr * bool)) :
  Plugins.check_gstreamer_plugins (g, d) = (Ok results, (g, d')) ->
  fst (Plugins.get_missing_plugins_message (g, d))
  = Ok (match Plugins.missing_of results with
        | [] => None
        | _ :: _ =>
            Some (match filter (fun name => Plugins.member name Plugins.critical)
                               (Plugins.missing_of results) with
                  | [] =>
                      if forallb (fun name =>
                                    Plugins.member name (Plugins.missing_of results))
                                 Plugins.sink_plugins
                      then Plugins.NoAudioOutput
                      else Plugins.OptionalMissing (Plugins.missing_of results)
                  | c :: cs => Plugins.CriticalMissing (c :: cs)
                  end)
        end).
Proof.
  intros Hc. unfold Plugins.get_missing_plugins_message, bind. rewrite Hc.
  destruct (Plugins.missing_of results) as [|first rest]; [reflexivity|].
  destruct (filter _ (first :: rest));
    [destruct (forallb _ Plugins.sink_plugins)|]; reflexivity.
Qed.

(** X29.  The message never raises, and there is none in three cases:
    off Windows, when the check itself failed, and when every one of the
    ten plugins was found.  A failed check therefore reads as nothing
    missing. *)
Theorem no_message_without_a_missing_plugin :
  forall (g : Plugins.Gst) (d : Desktop),
    (exists answer, fst (Plugins.get_missing_plugins_message (g, d)) = Ok answer)
    /\ (fst (Plugins.get_missing_plugins_message (g, d)) = Ok None
        <-> IS_WINDOWS d = false
            \/ Plugins.gst_fault g = true
            \/ forall name, In name (map fst Plugins.required_plugins) ->
                            Plugins.find name g = true).
Proof.
  intros g d.
  destruct (IS_WINDOWS d) eqn:Hw.
  2:{ destruct (check_gstreamer_plugins_gives_up g d (or_introl Hw)) as [d' Hc].
      rewrite (get_missing_plugins_message_runs g d d' [] Hc).
      split; [eexists; reflexivity|]. split; auto. }
  destruct (Plugins.gst_fault g) eqn:Hf.
  { destruct (check_gstreamer_plugins_gives_up g d (or_intror Hf)) as [d' Hc].
    rewrite (get_missing_plugins_message_runs g d d' [] Hc).
    split; [eexists; reflexivity|]. split; auto. }
  destruct (check_gstreamer_plugins_runs g d Hw Hf) as [d' Hc].
  rewrite (get_missing_plugins_message_runs g d d' _ Hc).
  rewrite (missing_of_results g _ required_names_are_elements).
  split; [eexists; reflexivity|].
  set (missing := filter _ (map fst Plugins.required_plugins)).
  assert (Hm : missing = [] <->
               forall name, In name (map fst Plugins.required_plugins) ->
                            Plugins.find name g = true).
  { unfold missing. split.
    - intros E name Hn.
      destruct (Plugins.find name g) eqn:Hfind; [reflexivity|].
      assert (Hin : In name (filter (fun name => negb (Plugins.find name g))
                               (map fst Plugins.required_plugins)))
        by (apply filter_In; split; [exact Hn | rewrite Hfind; reflexivity]).
      rewrite E in Hin. contradiction.
    - intros Hall.
      destruct (filter _ _) as [|name rest] eqn:E; [reflexivity|].
      assert (Hin : In name (filter (fun name => negb (Plugins.find name g))
                               (map fst Plugins.required_plugins)))
        by (rewrite E; left; reflexivity).
      apply filter_In in Hin. destruct Hin as [Hn Hneg].
      rewrite (Hall name Hn) in Hneg. discriminate Hneg. }
  clearbody missing.
  destruct missing as [|name rest].
  - split; [intros _|reflexivity].
    right; right. apply Hm; reflexivity.
  - split; [intros H; discriminate H|].
    intros [H|[H|H]]; [discriminate H | discriminate H |].
    apply Hm in H. discriminate H.
Qed.

(** X30.  With the check working, the message goes by rank.  A missing
    critical plugin gives the critical message, which names exactly the
    critical plugins that are missing.  Otherwise, both audio sinks
    missing gives the message about the audio output.  Otherwise the
    message lists every missing plugin. *)
Theorem missing_plugins_message_goes_by_rank :
  forall (g : Plugins.Gst) (d : Desktop),
    IS_WINDOWS d = true ->
    Plugins.gst_fault g = false ->
    match fst (Plugins.get_missing_plugins_message (g, d)) with
    | Ok (Some (Plugins.CriticalMissing plugins)) =>
        plugins <> []
        /\ forall name,
             In name plugins
             <-> In name Plugins.critical /\ Plugins.find name g = false
    | Ok (Some Plugins.NoAudioOutput) =>
        (forall name, In name Plugins.critical -> Plugins.find name g = true)
        /\ Plugins.find (lit "directsoundsink") g = false
        /\ Plugins.find (lit "wasapisink") g = false
    | Ok (Some (Plugins.OptionalMissing plugins)) =>
        (forall name, In name Plugins.critical -> Plugins.find name g = true)
        /\ (Plugins.find (lit "directsoundsink") g = true
            \/ Plugins.find (lit "wasapisink") g = true)
        /\ plugins <> []
        /\ forall name,
             In name plugins
             <-> In name (map fst Plugins.required_plugins)
                 /\ Plugins.find name g = false
    | Ok None =>
        forall name, In name (map fst Plugins.required_plugins) ->
                     Plugins.find name g = true
    | Raise _ => False
    end.
Proof.
  intros g d Hw Hf.
  destruct (check_gstreamer_plugins_runs g d Hw Hf) as [d' Hc].
  rewrite (get_missing_plugins_message_runs g d d' _ Hc).
  rewrite (missing_of_results g _ required_names_are_elements).
  set (missing := filter (fun name => negb (Plugins.find name g))
                    (map fst Plugins.required_plugins)).
  assert (Hmiss : forall name,
             In name missing
             <-> In name (map fst Plugins.required_plugins)
                 /\ Plugins.find name g = false).
  { intros name. unfold missing. rewrite filter_In, negb_true_iff. tauto. }
  assert (Hsub : forall name, In name Plugins.critical ->
                              In name (map fst Plugins.required_plugins)).
  { intros name H. cbn in H |- *. tauto. }
  clearbody missing.
  assert (Hdec : missing = [] \/ missing <> [])
    by (destruct missing; [left; reflexivity | right; discriminate]).
  destruct Hdec as [E|Hne].
  - subst missing. intros name Hn.
    destruct (Plugins.find name g) eqn:Hfind; [reflexivity|].
    exfalso. apply (proj2 (Hmiss name)). split; assumption.
  - assert (Hsome : forall X : Plugins.message,
               match missing with [] => None | _ :: _ => Some X end = Some X)
      by (intros X; destruct missing; [contradiction | reflexivity]).
    rewrite Hsome.
    destruct (filter (fun name => Plugins.member name Plugins.critical) missing)
      as [|c cs] eqn:Ec.
    + assert (Hcrit : forall name, In name Plugins.critical ->
                                   Plugins.find name g = true).
      { intros name Hn. destruct (Plugins.find name g) eqn:Hfind; [reflexivity|].
        assert (Hin : In name (filter (fun name => Plugins.member name Plugins.critical)
                                 missing)).
        { apply filter_In. split.
          - apply Hmiss. split; [apply Hsub; exact Hn | exact Hfind].
          - apply member_In; exact Hn. }
        rewrite Ec in Hin. contradiction. }
      destruct (forallb (fun name => Plugins.member name missing)
                  Plugins.sink_plugins) eqn:Es.
      * split; [exact Hcrit|].
        cbn [forallb Plugins.sink_plugins] in Es.
        rewrite !andb_true_iff, !member_In, !Hmiss in Es. tauto.
      * split; [exact Hcrit|].
        split.
        { cbn [forallb Plugins.sink_plugins] in Es.
          rewrite andb_true_r, andb_false_iff in Es.
          destruct (Plugins.find (lit "directsoundsink") g) eqn:H1; [auto|].
          destruct (Plugins.find (lit "wasapisink") g) eqn:H2; [auto|].
          exfalso.
          assert (I1 : Plugins.member (lit "directsoundsink") missing = true).
          { apply member_In, Hmiss. split; [cbn; tauto | exact H1]. }
          assert (I2 : Plugins.member (lit "wasapisink") missing = true).
          { apply member_In, Hmiss. split; [cbn; tauto | exact H2]. }
          destruct Es; congruence. }
        split; [exact Hne | exact Hmiss].
    + split; [discriminate|].
      intros name. rewrite <- Ec, filter_In, member_In, Hmiss.
      split; [tauto|]. intros [Hn Hfind]. pose proof (Hsub name Hn). tauto.
Qed.

Lemma missing_plugins_message_witness :
  let g := {| Plugins.gst_fault := false;
              Plugins.factories :=
                [lit "playbin"; lit "playbin3"; lit "audioconvert";
                 lit "audioresample"; lit "rgvolume"; lit "rglimiter";
                 lit "taginject"; lit "queue"] |} in
  let d := Samples.desktop None None in
  IS_WINDOWS d = true /\ Plugins.gst_fault g = false
  /\ fst (Plugins.get_missing_plugins_message (g, d))
     = Ok (Some Plugins.NoAudioOutput)
  /\ Plugins.find (lit "wasapisink") g = false.
Proof.
  intros g d.
  pose proof (missing_plugins_message_goes_by_rank g d eq_refl eq_refl) as H.
  assert (E : fst (Plugins.get_missing_plugins_message (g, d))
              = Ok (Some Plugins.NoAudioOutput)) by reflexivity.
  rewrite E in H. destruct H as [_ [_ H3]].
  do 2 (split; [reflexivity|]). split; [exact E | exact H3].
Defined.
